(** * Legal-AI: a shallow embedding of the store, the chat and login pages
      and the QA test suite, with the properties of the specification
      that concern them.

    Sources embedded here:
    - [database/setup.sql]: the schema, [hybrid_search_2026] and
      [insert_sample_data_2026];
    - [frontend/src/pages/Chat.jsx]: [API_URL], [handleSubmit], the
      authentication guard, [checkConnection], [handleLogout] and
      [userName];
    - [frontend/src/pages/Login.jsx]: [validateEmail], [validatePassword]
      and [handleSubmit];
    - [frontend/src/pages/Signup.jsx]: the validators,
      [getPasswordStrength] and [handleSubmit];
    - [frontend/LegalQATestSuite.js]: [questionBank],
      [generateAllQuestions], [evaluateResponse] and [exportQuestions].
    Reciprocal Rank Fusion lives in the Python pipeline, which is not part
    of these sources; it is modelled from the specification. *)

From Stdlib Require Import ZArith NArith QArith Qround Floats List Bool Lia Lqa.
From Stdlib Require Import Ascii String DecimalString.
From Stdlib Require Import Sorting.Sorted Sorting.Permutation.
From stdpp Require Import base option list gmap.
Import ListNotations.

Set Default Proof Using "Type".

(* ================================================================== *)
(** * JavaScript values shared by the front-end models *)
(* ================================================================== *)

Module JS.

(** A JavaScript string is a finite sequence of UTF-16 code units. *)
Abbreviation jsstring := (list N) (only parsing).

(** The code units of an ASCII literal of the source. *)
Definition js (s : string) : jsstring :=
  List.map (fun a => N.of_nat (nat_of_ascii a)) (list_ascii_of_string s).

Definition jsstring_eqb (a b : jsstring) : bool :=
  if decide (a = b) then true else false.

(** [+] on strings. *)
Definition concat (a b : jsstring) : jsstring := a ++ b.

(** [s.length] *)
Definition str_length (s : jsstring) : nat := List.length s.

(** [WhiteSpace] and [LineTerminator] of ECMAScript: what [\s] matches and
    what [String.prototype.trim] strips. *)
Definition isWhiteSpace (c : N) : bool :=
  ((9 <=? c) && (c <=? 13) ||
   (c =? 32) || (c =? 160) || (c =? 5760) ||
   (8192 <=? c) && (c <=? 8202) ||
   (c =? 8232) || (c =? 8233) || (c =? 8239) || (c =? 8287) ||
   (c =? 12288) || (c =? 65279))%N.

Fixpoint trimStart (s : jsstring) : jsstring :=
  match s with
  | c :: s' => if isWhiteSpace c then trimStart s' else s
  | [] => []
  end.

Definition trimEnd (s : jsstring) : jsstring := rev (trimStart (rev s)).

(** [s.trim()] *)
Definition trim (s : jsstring) : jsstring := trimEnd (trimStart s).

(** [s.startsWith(p)], used by [String_includes]. *)
Fixpoint startsWith (s p : jsstring) {struct p} : bool :=
  match p, s with
  | [], _ => true
  | _ :: _, [] => false
  | c :: p', d :: s' => (c =? d)%N && startsWith s' p'
  end.

(** [s.includes(p)]: [p] occurs in [s] as a contiguous run of code units. *)
Fixpoint String_includes (s p : jsstring) : bool :=
  startsWith s p ||
  match s with
  | [] => false
  | _ :: s' => String_includes s' p
  end.

(** [arr.includes(k)] on an array of strings. *)
Definition Array_includes (arr : list jsstring) (k : jsstring) : bool :=
  existsb (jsstring_eqb k) arr.

(** ASCII case folding: [toLowerCase] restricted to strings whose letters
    are ASCII, which is all the literals of the sources are. *)
Definition ascii_toLowerCase (s : jsstring) : jsstring :=
  List.map (fun c => if ((65 <=? c) && (c <=? 90))%N then (c + 32)%N else c) s.

(** ** Regular expressions without flags, matched by derivatives *)

Inductive regex : Type :=
| Empty : regex                       (* matches nothing *)
| Eps : regex                         (* the empty string *)
| Class : (N -> bool) -> regex        (* one code unit of a class *)
| Cat : regex -> regex -> regex
| Alt : regex -> regex -> regex
| Star : regex -> regex.

(** [r+] *)
Definition Plus (r : regex) : regex := Cat r (Star r).

Fixpoint nullable (r : regex) : bool :=
  match r with
  | Empty => false
  | Eps => true
  | Class _ => false
  | Cat a b => nullable a && nullable b
  | Alt a b => nullable a || nullable b
  | Star _ => true
  end.

Fixpoint deriv (c : N) (r : regex) : regex :=
  match r with
  | Empty => Empty
  | Eps => Empty
  | Class p => if p c then Eps else Empty
  | Cat a b =>
      if nullable a then Alt (Cat (deriv c a) b) (deriv c b)
      else Cat (deriv c a) b
  | Alt a b => Alt (deriv c a) (deriv c b)
  | Star a => Cat (deriv c a) (Star a)
  end.

(** [/^r$/.test(s)] *)
Definition test_anchored (r : regex) (s : jsstring) : bool :=
  nullable (fold_left (fun r c => deriv c r) s r).

(** ** Numbers *)

(** The Number of a non-negative integer below 2^53 (array lengths, ids). *)
Definition Number_of_nat (n : nat) : float :=
  PrimFloat.of_uint63 (Uint63.of_Z (Z.of_nat n)).

(** [Math.round]: the nearest integer, ties towards +infinity; NaN,
    infinities, zeros and integral values are returned as they are. *)
Definition Math_round (x : float) : float :=
  match Prim2SF x with
  | S754_finite s m e =>
      if (0 <=? e)%Z then x
      else
        let num := (if s then Z.neg m else Z.pos m) in
        let r := ((2 * num + 2 ^ (- e)) `div` 2 ^ (- e + 1))%Z in
        if (r <? 0)%Z then PrimFloat.opp (PrimFloat.of_uint63 (Uint63.of_Z (- r)))
        else if (r =? 0)%Z then (if s then PrimFloat.opp 0%float else 0%float)
        else PrimFloat.of_uint63 (Uint63.of_Z r)
  | _ => x
  end.

(** ** Facts used by the models *)

Lemma jsstring_eqb_eq (a b : jsstring) : jsstring_eqb a b = true <-> a = b.
Proof. unfold jsstring_eqb. destruct (decide (a = b)); split; congruence. Qed.

Lemma startsWith_spec (s p : jsstring) :
  startsWith s p = true <-> exists post, s = p ++ post.
Proof.
  revert s. induction p as [|c p IH]; intros s; simpl.
  - split; [intros _; exists s; reflexivity | reflexivity].
  - destruct s as [|d s].
    + split; [discriminate | intros [post H]; discriminate].
    + rewrite andb_true_iff, N.eqb_eq, IH. split.
      * intros [-> [post ->]]. exists post. reflexivity.
      * intros [post H]. injection H as -> ->. split; [reflexivity | eauto].
Qed.

(** [String_includes s p] holds exactly when [p] is a substring of [s]. *)
Lemma String_includes_spec (s p : jsstring) :
  String_includes s p = true <-> exists pre post, s = pre ++ p ++ post.
Proof.
  induction s as [|d s IH].
  - simpl. rewrite orb_false_r, startsWith_spec. split.
    + intros [post H]. exists [], post. exact H.
    + intros [pre [post H]]. destruct pre; simpl in H.
      * exists post. exact H.
      * discriminate.
  - change (String_includes (d :: s) p)
      with (startsWith (d :: s) p || String_includes s p).
    rewrite orb_true_iff, startsWith_spec, IH. split.
    + intros [[post H] | [pre [post H]]].
      * exists [], post. exact H.
      * exists (d :: pre), post. simpl. rewrite H. reflexivity.
    + intros [pre [post H]]. destruct pre as [|x pre]; simpl in H.
      * left. exists post. exact H.
      * right. injection H as _ ->. exists pre, post. reflexivity.
Qed.

Example trim_strips_both_ends :
  trim (js "  What is IPC Section 420? ") = js "What is IPC Section 420?".
Proof. reflexivity. Qed.

Example Math_round_ties_upwards :
  Math_round 2.5%float = 3%float
  /\ Math_round (-2.5)%float = (-2)%float
  /\ Math_round (23 / 40 * 100)%float = 57%float.
Proof. repeat split; vm_compute; reflexivity. Qed.

End JS.

(* ================================================================== *)
(** * Binary64: bounds on rounded quotients and products *)
(* ================================================================== *)

(** The arithmetic of Numbers is that of binary64, which [SpecFloat]
    defines: an operation computes a mantissa, an exponent and a location
    and rounds them with [binary_round_aux].  This part bounds what the
    rounding gives, up to the quotient of two integers and its product
    with 100. *)
Module Binary64.

Local Open Scope Z_scope.

Lemma digits2_pos_bounds (p : positive) :
  2 ^ (Z.pos (digits2_pos p) - 1) <= Z.pos p < 2 ^ Z.pos (digits2_pos p).
Proof.
  induction p as [p IH | p IH |]; cbn [digits2_pos].
  - rewrite Pos2Z.inj_succ.
    replace (Z.succ (Z.pos (digits2_pos p)) - 1)
      with (Z.succ (Z.pos (digits2_pos p) - 1)) by lia.
    rewrite !Z.pow_succ_r by lia. lia.
  - rewrite Pos2Z.inj_succ.
    replace (Z.succ (Z.pos (digits2_pos p)) - 1)
      with (Z.succ (Z.pos (digits2_pos p) - 1)) by lia.
    rewrite !Z.pow_succ_r by lia. lia.
  - simpl. lia.
Qed.


(** A multiple of [2 * P] is an even multiple of [P]. *)
Lemma multiple_of_double (m P : Z) :
  0 < P -> m mod (2 * P) = 0 -> m mod P = 0 /\ (m / P) mod 2 = 0.
Proof.
  intros HP H. apply Z.mod_divide in H; [|lia]. destruct H as [c ->].
  replace (c * (2 * P)) with (2 * c * P) by ring.
  rewrite Z.mod_mul, Z.div_mul by lia.
  split; [reflexivity|]. rewrite Z.mul_comm. apply Z.mod_mul. lia.
Qed.

(** What [k] right shifts have made of the mantissa [m0] and the location
    [l0]: the quotient, and a round or sticky bit only if something was
    lost. *)
Definition shifted (m0 : Z) (l0 : location) (k : Z) (mrs : shr_record) : Prop :=
  shr_m mrs = m0 / 2 ^ k /\
  (shr_r mrs || shr_s mrs = true -> l0 <> loc_Exact \/ m0 mod 2 ^ k <> 0).

Lemma shifted_start (m0 : Z) (l0 : location) :
  shifted m0 l0 0 (shr_record_of_loc m0 l0).
Proof.
  split.
  - rewrite Z.pow_0_r, Z.div_1_r. destruct l0 as [|[]]; reflexivity.
  - destruct l0 as [|[]]; cbn; intros H; try discriminate H;
      left; discriminate.
Qed.

Lemma shr_1_shifted (m0 : Z) (l0 : location) (k : Z) (mrs : shr_record) :
  0 <= m0 -> 0 <= k ->
  shifted m0 l0 k mrs -> shifted m0 l0 (k + 1) (shr_1 mrs).
Proof.
  intros Hm0 Hk [Hm Hloss]. destruct mrs as [m r s]. cbn [shr_m shr_r shr_s] in *.
  assert (HP : 0 < 2 ^ k) by (apply Z.pow_pos_nonneg; lia).
  assert (Hpow : 2 ^ (k + 1) = 2 * 2 ^ k) by (rewrite Z.pow_add_r by lia; lia).
  assert (Hge : 0 <= m) by (rewrite Hm; apply Z.div_pos; lia).
  assert (Hdiv : m0 / 2 ^ (k + 1) = m / 2).
  { rewrite Hpow, Hm, Z.mul_comm, Z.div_div by lia. reflexivity. }
  assert (Hkeep : r || s = true -> l0 <> loc_Exact \/ m0 mod 2 ^ (k + 1) <> 0).
  { intros H. destruct (Hloss H) as [Hl | Hl]; [left; exact Hl|].
    right. rewrite Hpow. intros E.
    apply Hl. exact (proj1 (multiple_of_double _ _ HP E)). }
  assert (Hodd : m mod 2 = 1 -> m0 mod 2 ^ (k + 1) <> 0).
  { intros Hone. rewrite Hpow. intros E.
    pose proof (proj2 (multiple_of_double _ _ HP E)) as H0.
    rewrite <- Hm in H0. lia. }
  unfold shifted. rewrite Hdiv.
  destruct m as [|[p|p|]|p]; cbn [shr_1 shr_m shr_r shr_s]; try lia.
  - split; [reflexivity|]. rewrite orb_false_l. exact Hkeep.
  - split; [rewrite Pos2Z.inj_xI; apply Z.div_unique with 1; lia|].
    intros _. right. apply Hodd. rewrite Pos2Z.inj_xI.
    symmetry. apply Z.mod_unique with (Z.pos p); lia.
  - split; [rewrite Pos2Z.inj_xO; apply Z.div_unique with 0; lia|].
    rewrite orb_false_l. exact Hkeep.
  - split; [reflexivity|]. intros _. right. apply Hodd. reflexivity.
Qed.

Lemma iter_pos_shifted (m0 : Z) (l0 : location) (p : positive) :
  0 <= m0 ->
  forall (k : Z) (mrs : shr_record),
    0 <= k -> shifted m0 l0 k mrs ->
    shifted m0 l0 (k + Z.pos p) (SpecFloat.iter_pos shr_1 p mrs).
Proof.
  intros Hm0. induction p as [p IH | p IH |]; intros k mrs Hk H;
    cbn [SpecFloat.iter_pos].
  - replace (k + Z.pos p~1) with (k + 1 + Z.pos p + Z.pos p) by lia.
    apply IH; [lia|]. apply IH; [lia|]. apply shr_1_shifted; assumption.
  - replace (k + Z.pos p~0) with (k + Z.pos p + Z.pos p) by lia.
    apply IH; [lia|]. apply IH; assumption.
  - apply shr_1_shifted; assumption.
Qed.


Lemma loc_of_shr_record_of_loc (m : Z) (l : location) :
  shr_m (shr_record_of_loc m l) = m /\
  loc_of_shr_record (shr_record_of_loc m l) = l.
Proof. destruct l as [|[]]; split; reflexivity. Qed.

Lemma loc_of_shr_record_inexact (mrs : shr_record) :
  loc_of_shr_record mrs <> loc_Exact -> shr_r mrs || shr_s mrs = true.
Proof.
  destruct mrs as [m [|] [|]]; cbn; intros H; try reflexivity.
  congruence.
Qed.

(** The exponent of binary64 a number of [d] digits at exponent [e] is
    rounded at. *)
Lemma fexp_value (x : Z) : fexp prec emax x = Z.max (x - 53) (-1074).
Proof. reflexivity. Qed.

(** The shift to the exponent of the format keeps a mantissa under a
    bound [B * 2 ^ eb] that the format represents, and strictly under it
    when something was lost. *)
Lemma shr_fexp_le (B eb mx ex : Z) (lx : location) :
  0 < B < 2 ^ 53 -> -1074 <= eb ->
  0 <= mx -> ex <= eb ->
  mx <= B * 2 ^ (eb - ex) ->
  (lx <> loc_Exact -> mx < B * 2 ^ (eb - ex)) ->
  let '(mrs, e) := shr_fexp prec emax mx ex lx in
  e <= eb /\
  0 <= shr_m mrs <= B * 2 ^ (eb - e) /\
  (loc_of_shr_record mrs <> loc_Exact -> shr_m mrs < B * 2 ^ (eb - e)).
Proof.
  intros HB Heb Hmx Hex Hle Hlt.
  destruct (loc_of_shr_record_of_loc mx lx) as [Em El].
  unfold shr_fexp, shr. rewrite fexp_value.
  destruct (Z.max (Zdigits2 mx + ex - 53) (-1074) - ex) as [|p|p] eqn:En;
    try (rewrite Em, El; split; [exact Hex|]; split; [lia | exact Hlt]).
  assert (He : ex + Z.pos p <= eb).
  { assert (Hd : Zdigits2 mx + ex - 53 <= eb).
    { destruct mx as [|q|q]; cbn [Zdigits2]; try lia.
      pose proof (digits2_pos_bounds q) as [Hlow _].
      assert (Hup : 2 ^ (Z.pos (digits2_pos q) - 1) < 2 ^ (53 + (eb - ex))).
      { eapply Z.le_lt_trans; [exact Hlow|].
        eapply Z.le_lt_trans; [exact Hle|].
        rewrite Z.pow_add_r by lia.
        apply Z.mul_lt_mono_pos_r; [apply Z.pow_pos_nonneg; lia | lia]. }
      apply Z.pow_lt_mono_r_iff in Hup; lia. }
    lia. }
  destruct (iter_pos_shifted mx lx p Hmx 0 (shr_record_of_loc mx lx)
              ltac:(lia) (shifted_start mx lx)) as [Hm Hloss].
  rewrite Z.add_0_l in Hm, Hloss.
  assert (HP : 0 < 2 ^ Z.pos p) by (apply Z.pow_pos_nonneg; lia).
  assert (Hsplit : 2 ^ (eb - ex) = 2 ^ (eb - (ex + Z.pos p)) * 2 ^ Z.pos p).
  { rewrite <- Z.pow_add_r by lia. f_equal. lia. }
  assert (HQ : 0 <= 2 ^ (eb - (ex + Z.pos p))) by (apply Z.pow_nonneg; lia).
  split; [exact He|]. rewrite Hm. split; [split|].
  - apply Z.div_pos; lia.
  - apply Z.div_le_upper_bound; [lia|]. rewrite Hsplit in Hle. lia.
  - intros Hloc. apply Z.div_lt_upper_bound; [lia|].
    destruct (Hloss (loc_of_shr_record_inexact _ Hloc)) as [Hl | Hl].
    + specialize (Hlt Hl). rewrite Hsplit in Hlt. lia.
    + rewrite Hsplit in Hle.
      assert (Hne : mx <> 2 ^ Z.pos p * (B * 2 ^ (eb - (ex + Z.pos p)))).
      { intros E. apply Hl. rewrite E, Z.mul_comm. apply Z.mod_mul. lia. }
      lia.
Qed.

Lemma round_nearest_even_le (m : Z) (l : location) :
  m <= round_nearest_even m l <= m + 1 /\
  (l = loc_Exact -> round_nearest_even m l = m).
Proof.
  destruct l as [|[]]; cbn; try destruct (Z.even m);
    (split; [lia | reflexivity || discriminate]).
Qed.

(** Rounding a number that is at most [B * 2 ^ eb], a number the format
    represents, gives zero or a number that is at most [B * 2 ^ eb]. *)
Lemma binary_round_aux_le (B eb mx ex : Z) (lx : location) :
  0 < B < 2 ^ 53 -> -1074 <= eb <= 971 ->
  0 <= mx -> ex <= eb ->
  mx <= B * 2 ^ (eb - ex) ->
  (lx <> loc_Exact -> mx < B * 2 ^ (eb - ex)) ->
  binary_round_aux prec emax false mx ex lx = S754_zero false \/
  exists m e,
    binary_round_aux prec emax false mx ex lx = S754_finite false m e /\
    e <= eb /\ Z.pos m <= B * 2 ^ (eb - e).
Proof.
  intros HB Heb Hmx Hex Hle Hlt. unfold binary_round_aux.
  pose proof (shr_fexp_le B eb mx ex lx HB (proj1 Heb) Hmx Hex Hle Hlt) as H1.
  destruct (shr_fexp prec emax mx ex lx) as [mrs1 e1].
  destruct H1 as (He1 & [Hm1 Hb1] & Hs1).
  destruct (round_nearest_even_le (shr_m mrs1) (loc_of_shr_record mrs1))
    as [[Hr1 Hr2] Hr3].
  assert (Hround : round_nearest_even (shr_m mrs1) (loc_of_shr_record mrs1)
                   <= B * 2 ^ (eb - e1)).
  { destruct (loc_of_shr_record mrs1) eqn:El.
    - rewrite Hr3 by reflexivity. exact Hb1.
    - assert (shr_m mrs1 < B * 2 ^ (eb - e1)) by (apply Hs1; discriminate).
      lia. }
  assert (Hpos : 0 <= round_nearest_even (shr_m mrs1) (loc_of_shr_record mrs1))
    by lia.
  pose proof (shr_fexp_le B eb _ e1 loc_Exact HB (proj1 Heb) Hpos He1 Hround
                ltac:(congruence)) as H2.
  destruct (shr_fexp prec emax _ e1 loc_Exact) as [mrs2 e2].
  destruct H2 as (He2 & [Hm2 Hb2] & _).
  destruct (shr_m mrs2) as [|m|m]; [left; reflexivity| |lia].
  right. exists m, e2.
  replace (e2 <=? emax - prec) with true
    by (symmetry; apply Z.leb_le; change (emax - prec) with 971; lia).
  auto.
Qed.


(** A mantissa of 53 digits at an exponent of the format is kept as it
    is. *)
Lemma binary_round_aux_canonical (s : bool) (m : positive) (e : Z) :
  Z.pos (digits2_pos m) = 53 -> -1074 <= e <= 971 ->
  binary_round_aux prec emax s (Z.pos m) e loc_Exact = S754_finite s m e.
Proof.
  intros Hd He. unfold binary_round_aux, shr_fexp. cbn [Zdigits2].
  rewrite Hd, fexp_value.
  replace (Z.max (53 + e - 53) (-1074) - e) with 0 by lia.
  cbn [shr shr_record_of_loc shr_m loc_of_shr_record round_nearest_even
       Zdigits2].
  rewrite Hd, fexp_value.
  replace (Z.max (53 + e - 53) (-1074) - e) with 0 by lia.
  cbn [shr shr_record_of_loc shr_m].
  replace (e <=? emax - prec) with true
    by (symmetry; apply Z.leb_le; change (emax - prec) with 971; lia).
  reflexivity.
Qed.

Lemma iter_xO (p n : positive) :
  Z.pos (Pos.iter xO p n) = Z.pos p * 2 ^ Z.pos n /\
  Z.pos (digits2_pos (Pos.iter xO p n)) = Z.pos (digits2_pos p) + Z.pos n.
Proof.
  induction n as [|n [IH1 IH2]] using Pos.peano_ind.
  - cbn [Pos.iter digits2_pos]. rewrite Pos2Z.inj_succ. split; lia.
  - rewrite Pos.iter_succ. cbn [digits2_pos].
    rewrite Pos2Z.inj_xO, !Pos2Z.inj_succ, IH1, IH2, Z.pow_succ_r by lia.
    split; lia.
Qed.

(** The Number of a positive integer below 2 ^ 53 is that integer, with
    a mantissa of 53 digits. *)
Lemma binary_normalize_integer (k : Z) :
  0 < k < 2 ^ 53 ->
  exists m e,
    binary_normalize prec emax k 0 false = S754_finite false m e /\
    -52 <= e <= 0 /\
    Z.pos m = k * 2 ^ (- e) /\
    Z.pos (digits2_pos m) = 53.
Proof.
  intros [Hpos Hk]. destruct k as [|p|p]; try lia.
  cbn [binary_normalize]. unfold binary_round.
  rewrite fexp_value.
  pose proof (digits2_pos_bounds p) as [Hlow Hup].
  assert (Hd : 1 <= Z.pos (digits2_pos p) <= 53).
  { split; [lia|].
    assert (H : 2 ^ (Z.pos (digits2_pos p) - 1) < 2 ^ 53) by lia.
    apply Z.pow_lt_mono_r_iff in H; lia. }
  replace (Z.max (Z.pos (digits2_pos p) + 0 - 53) (-1074))
    with (Z.pos (digits2_pos p) - 53) by lia.
  unfold shl_align.
  destruct (Z.pos (digits2_pos p) - 53 - 0) as [|n|n] eqn:En; try lia.
  - exists p, 0. rewrite binary_round_aux_canonical by lia.
    split; [reflexivity|]. split; [lia|]. split; [cbn; lia | lia].
  - destruct (iter_xO p n) as [Hv Hdig].
    exists (Pos.iter xO p n), (Z.pos (digits2_pos p) - 53).
    rewrite binary_round_aux_canonical by lia.
    split; [reflexivity|]. split; [lia|].
    split; [rewrite Hv; f_equal; f_equal; lia | lia].
Qed.

(** The quotient of two Numbers of integers [kx <= ky] is zero or at most
    one. *)
Lemma SFdiv_le_one (kx ky : Z) (mx my : positive) (ex ey : Z) :
  0 < kx <= ky ->
  -52 <= ex <= 0 -> Z.pos mx = kx * 2 ^ (- ex) ->
  Z.pos (digits2_pos mx) = 53 ->
  -52 <= ey <= 0 -> Z.pos my = ky * 2 ^ (- ey) ->
  Z.pos (digits2_pos my) = 53 ->
  SF64div (S754_finite false mx ex) (S754_finite false my ey)
  = S754_zero false \/
  exists m e,
    SF64div (S754_finite false mx ex) (S754_finite false my ey)
    = S754_finite false m e /\
    e <= 0 /\ Z.pos m <= 2 ^ (- e).
Proof.
  intros Hk Hex Hmx Hdx Hey Hmy Hdy.
  assert (Hexp : ex <= ey).
  { destruct (Z.le_gt_cases ex ey) as [H | H]; [exact H | exfalso].
    pose proof (digits2_pos_bounds mx) as [Hlow _]. rewrite Hdx in Hlow.
    pose proof (digits2_pos_bounds my) as [_ Hup]. rewrite Hdy in Hup.
    assert (Hs : 2 ^ (- ey) = 2 ^ (- ex) * 2 ^ (ex - ey))
      by (rewrite <- Z.pow_add_r by lia; f_equal; lia).
    assert (H2 : 2 <= 2 ^ (ex - ey))
      by (change 2 with (2 ^ 1) at 1; apply Z.pow_le_mono_r; lia).
    assert (Hp : 0 < 2 ^ (- ex)) by (apply Z.pow_pos_nonneg; lia).
    change (2 ^ (53 - 1)) with 4503599627370496 in Hlow.
    change (2 ^ 53) with 9007199254740992 in Hup.
    rewrite Hs in Hmy.
    assert (Hdouble : 2 * Z.pos mx <= Z.pos my).
    { rewrite Hmx, Hmy.
      assert (kx * 2 ^ (- ex) <= ky * 2 ^ (- ex)) by nia.
      nia. }
    lia. }
  unfold SF64div, SFdiv, SFdiv_core_binary. cbn [Zdigits2 xorb].
  rewrite Hdx, Hdy, fexp_value.
  replace (Z.min (Z.max (53 + ex - (53 + ey) - 53) (-1074)) (ex - ey))
    with (ex - ey - 53) by lia.
  replace (ex - ey - (ex - ey - 53)) with 53 by lia.
  rewrite Z.shiftl_mul_pow2 by lia.
  pose proof (Z_div_mod (Z.pos mx * 2 ^ 53) (Z.pos my) ltac:(lia)) as Hdiv.
  destruct (Z.div_eucl (Z.pos mx * 2 ^ 53) (Z.pos my)) as [q r].
  destruct Hdiv as [Hq Hr].
  assert (Hp : 0 < 2 ^ (- ex)) by (apply Z.pow_pos_nonneg; lia).
  assert (Hs : 2 ^ (0 - (ex - ey - 53)) = 2 ^ (ey - ex) * 2 ^ 53)
    by (rewrite <- Z.pow_add_r by lia; f_equal; lia).
  assert (Hs' : 2 ^ (- ex) = 2 ^ (- ey) * 2 ^ (ey - ex))
    by (rewrite <- Z.pow_add_r by lia; f_equal; lia).
  assert (Hp' : 0 < 2 ^ (ey - ex)) by (apply Z.pow_pos_nonneg; lia).
  assert (Hp'' : 0 < 2 ^ (- ey)) by (apply Z.pow_pos_nonneg; lia).
  assert (Hbound : Z.pos mx * 2 ^ 53 <= Z.pos my * (2 ^ (ey - ex) * 2 ^ 53)).
  { rewrite Hmx, Hmy, Hs'.
    assert (kx * (2 ^ (- ey) * 2 ^ (ey - ex))
            <= ky * 2 ^ (- ey) * 2 ^ (ey - ex)) by nia.
    nia. }
  assert (Hq0 : 0 <= q) by nia.
  destruct (binary_round_aux_le 1 0 q (ex - ey - 53)
              (new_location (Z.pos my) r)) as [H | (m & e & H & He & Hm)];
    try lia.
  - rewrite Hs. nia.
  - intros Hloc. rewrite Hs.
    assert (Hr0 : r <> 0).
    { intros ->. apply Hloc. unfold new_location, new_location_even,
        new_location_odd. destruct (Z.even (Z.pos my)); reflexivity. }
    nia.
  - left. exact H.
  - right. exists m, e. split; [exact H|]. split; [exact He|].
    rewrite Z.mul_1_l in Hm. replace (- e) with (0 - e) by lia. exact Hm.
Qed.

(** The product of a Number that is at most one and 100 is zero or at
    most 100. *)
Lemma SFmul_100_le (mq : positive) (eq : Z) :
  eq <= 0 -> Z.pos mq <= 2 ^ (- eq) ->
  SF64mul (S754_finite false mq eq) (Prim2SF 100%float) = S754_zero false \/
  exists m e,
    SF64mul (S754_finite false mq eq) (Prim2SF 100%float)
    = S754_finite false m e /\
    e <= -46 /\ Z.pos m <= 100 * 2 ^ (- e).
Proof.
  intros He Hm.
  change (Prim2SF 100%float) with (S754_finite false 7036874417766400 (-46)).
  unfold SF64mul, SFmul. cbn [xorb].
  assert (Hp : 0 < 2 ^ (- eq)) by (apply Z.pow_pos_nonneg; lia).
  destruct (binary_round_aux_le 7036874417766400 (-46)
              (Z.pos (mq * 7036874417766400)) (eq + -46) loc_Exact)
    as [H | (m & e & H & He' & Hm')]; try lia.
  - replace (-46 - (eq + -46)) with (- eq) by lia.
    rewrite Pos2Z.inj_mul. nia.
  - congruence.
  - left. exact H.
  - right. exists m, e. split; [exact H|]. split; [exact He'|].
    assert (Hs : 2 ^ (- e) = 2 ^ 46 * 2 ^ (-46 - e))
      by (rewrite <- Z.pow_add_r by lia; f_equal; lia).
    rewrite Hs. change (2 ^ 46) with 70368744177664. lia.
Qed.

End Binary64.

(* ================================================================== *)
(** * The QA test suite: [frontend/LegalQATestSuite.js] *)
(* ================================================================== *)

Module TestSuite.
Import JS.

(** One literal of [questionBank]. *)
Record entry : Type := mkEntry {
  q : jsstring;
  difficulty : jsstring;
  expectedKeywords : list jsstring
}.

(** A generated question: [{ id, category, ...q }]; the spread fields are
    kept together in [fields]. *)
Record question : Type := mkQuestion {
  id : N;
  category : jsstring;
  fields : entry
}.

(** The value [evaluateResponse] returns. *)
Record evaluation : Type := mkEvaluation {
  score : float;
  matchedKeywords : list jsstring;
  missedKeywords : list jsstring;
  quality : jsstring
}.

Local Open Scope string_scope.

Definition lit (question_text level : string) (keywords : list string) : entry :=
  mkEntry (js question_text) (js level) (List.map js keywords).

Definition constitutional_articles : list entry :=
[ lit "What is Article 14?" "easy"
    ["equality"; "law"; "discrimination"];
  lit "Explain Article 21 in detail" "medium"
    ["life"; "liberty"; "procedure"; "law"];
  lit "What are the limitations of Article 19?" "hard"
    ["reasonable restrictions"; "public order"; "sovereignty"];
  lit "What is Article 32?" "easy"
    ["constitutional remedies"; "writs"; "fundamental rights"];
  lit "Difference between Article 14 and Article 15" "medium"
    ["equality"; "discrimination"; "grounds"];
  lit "What does Article 13 say?" "easy"
    ["laws inconsistent"; "fundamental rights"; "void"];
  lit "Explain Article 19(1)(a)" "medium"
    ["freedom of speech"; "expression"];
  lit "What is Article 20?" "easy"
    ["protection"; "conviction"; "offences"];
  lit "What is Article 22?" "medium"
    ["arrest"; "detention"; "safeguards"];
  lit "Explain Article 12" "easy"
    ["State"; "definition"; "authorities"];
  lit "What is Article 15?" "easy"
    ["discrimination"; "religion"; "caste"; "sex"];
  lit "What does Article 16 protect?" "medium"
    ["equality"; "employment"; "public"];
  lit "What is Article 17?" "easy"
    ["untouchability"; "abolished"];
  lit "Explain Article 23" "medium"
    ["traffic"; "human beings"; "forced labour"];
  lit "What is Article 24?" "easy"
    ["children"; "factories"; "employment"];
  lit "What does Article 25 guarantee?" "medium"
    ["religion"; "conscience"; "practice"];
  lit "What is Article 26?" "medium"
    ["religious denominations"; "affairs"; "manage"];
  lit "Explain Article 29" "medium"
    ["minorities"; "culture"; "language"; "script"];
  lit "What is Article 30?" "medium"
    ["minorities"; "educational institutions"];
  lit "What is Article 44?" "easy"
    ["uniform civil code"; "directive"];
  lit "Explain Article 51A" "medium"
    ["fundamental duties"; "citizens"];
  lit "What is Article 124?" "medium"
    ["Supreme Court"; "establishment"];
  lit "What does Article 226 provide?" "medium"
    ["High Courts"; "writs"; "power"];
  lit "What is Article 370?" "hard"
    ["Jammu Kashmir"; "special status"; "abrogated"];
  lit "Explain Article 356" "hard"
    ["President's rule"; "emergency"; "state"] ].

Definition fundamental_rights : list entry :=
[ lit "List all fundamental rights" "medium"
    ["equality"; "freedom"; "exploitation"; "religion"; "cultural"; "constitutional"];
  lit "What is Right to Equality?" "easy"
    ["Article 14"; "equal protection"; "discrimination"];
  lit "Can fundamental rights be suspended?" "hard"
    ["emergency"; "Article 359"; "Article 19"];
  lit "What are writs under Article 32?" "medium"
    ["habeas corpus"; "mandamus"; "prohibition"; "certiorari"; "quo warranto"];
  lit "What is Right to Freedom?" "medium"
    ["Article 19"; "speech"; "assembly"; "movement"];
  lit "What is Right against Exploitation?" "easy"
    ["Article 23"; "24"; "traffic"; "forced labour"; "children"];
  lit "What is Right to Freedom of Religion?" "medium"
    ["Article 25-28"; "conscience"; "practice"; "propagate"];
  lit "What are Cultural and Educational Rights?" "medium"
    ["Article 29-30"; "minorities"; "culture"; "language"];
  lit "What is Right to Constitutional Remedies?" "medium"
    ["Article 32"; "Supreme Court"; "writs"; "enforcement"];
  lit "Which rights cannot be suspended during emergency?" "hard"
    ["Article 20"; "21"; "life"; "personal liberty"];
  lit "What is the difference between habeas corpus and mandamus?" "hard"
    ["detention"; "duty"; "public official"];
  lit "Can fundamental rights be amended?" "hard"
    ["Kesavananda Bharati"; "basic structure"; "Parliament"];
  lit "What is positive discrimination?" "medium"
    ["reservation"; "affirmative action"; "backward classes"];
  lit "What are reasonable restrictions?" "medium"
    ["Article 19(2)"; "public order"; "sovereignty"; "decency"];
  lit "Can aliens claim fundamental rights?" "hard"
    ["Article 14"; "21"; "foreigners"; "limited"] ].

Definition landmark_cases : list entry :=
[ lit "What is the Kesavananda Bharati case?" "hard"
    ["basic structure"; "amendment"; "Parliament"; "1973"];
  lit "Tell me about Shreya Singhal case" "medium"
    ["Section 66A"; "IT Act"; "freedom of speech"; "struck down"];
  lit "What is Maneka Gandhi case?" "hard"
    ["passport"; "Article 21"; "procedure"; "just fair reasonable"];
  lit "Explain Puttaswamy case" "hard"
    ["privacy"; "fundamental right"; "Aadhaar"; "9-judge"];
  lit "What is Golaknath case?" "hard"
    ["fundamental rights"; "amendment"; "prospective"];
  lit "What is ADM Jabalpur case?" "hard"
    ["emergency"; "habeas corpus"; "Article 21"; "overruled"];
  lit "Explain Vishaka case" "medium"
    ["sexual harassment"; "workplace"; "guidelines"];
  lit "What is Navtej Singh Johar case?" "medium"
    ["Section 377"; "decriminalized"; "LGBTQ"; "constitutional"];
  lit "What is Indra Sawhney case?" "hard"
    ["reservation"; "50%"; "creamy layer"; "Mandal"];
  lit "Explain Shah Bano case" "medium"
    ["maintenance"; "Muslim women"; "uniform civil code"];
  lit "What is Minerva Mills case?" "hard"
    ["42nd Amendment"; "judicial review"; "limited power"];
  lit "What is Shayara Bano case?" "medium"
    ["triple talaq"; "unconstitutional"; "Muslim women"];
  lit "Explain Olga Tellis case" "medium"
    ["pavement dwellers"; "livelihood"; "Article 21"];
  lit "What is Bandhua Mukti Morcha case?" "medium"
    ["bonded labour"; "Article 23"; "rehabilitation"];
  lit "What is Mohini Jain case?" "medium"
    ["right to education"; "capitation fee"; "Article 21"] ].

Definition ipc_sections : list entry :=
[ lit "What is IPC Section 302?" "easy"
    ["murder"; "death"; "life imprisonment"];
  lit "What is IPC Section 300?" "medium"
    ["murder"; "definition"; "intention"; "knowledge"];
  lit "What is IPC Section 304?" "medium"
    ["culpable homicide"; "not murder"];
  lit "What is the punishment for theft?" "easy"
    ["Section 379"; "imprisonment"; "fine"];
  lit "What is IPC Section 420?" "easy"
    ["cheating"; "fraud"; "dishonestly"];
  lit "What is IPC Section 376?" "medium"
    ["rape"; "sexual assault"; "punishment"];
  lit "What is IPC Section 498A?" "medium"
    ["dowry"; "cruelty"; "husband"; "relatives"];
  lit "What is IPC Section 354?" "medium"
    ["assault"; "outrage modesty"; "woman"];
  lit "What is defamation under IPC?" "medium"
    ["Section 499"; "500"; "reputation"];
  lit "What is IPC Section 506?" "easy"
    ["criminal intimidation"; "threat"];
  lit "What is difference between Section 299 and 300?" "hard"
    ["culpable homicide"; "murder"; "intention"; "exceptions"];
  lit "What is IPC Section 120B?" "medium"
    ["criminal conspiracy"; "agreement"];
  lit "What is IPC Section 34?" "medium"
    ["common intention"; "acts done"];
  lit "What is IPC Section 107?" "medium"
    ["abetment"; "instigation"; "conspiracy"];
  lit "What is IPC Section 511?" "medium"
    ["attempt"; "offence"; "punishable"] ].

Definition crpc_sections : list entry :=
[ lit "What is CrPC Section 154?" "medium"
    ["FIR"; "information"; "cognizable offence"];
  lit "What is CrPC Section 161?" "medium"
    ["examination"; "witnesses"; "police"];
  lit "What is CrPC Section 41?" "medium"
    ["arrest"; "without warrant"; "cognizable"];
  lit "What is CrPC Section 125?" "medium"
    ["maintenance"; "wife"; "children"; "parents"];
  lit "What is CrPC Section 156?" "medium"
    ["police officer"; "investigation"; "cognizable"];
  lit "What is anticipatory bail?" "medium"
    ["Section 438"; "arrest"; "apprehension"];
  lit "What is CrPC Section 482?" "hard"
    ["High Court"; "inherent powers"; "quash"];
  lit "What is difference between cognizable and non-cognizable?" "medium"
    ["arrest"; "warrant"; "serious"];
  lit "What is CrPC Section 167?" "medium"
    ["police custody"; "judicial custody"; "15 days"];
  lit "What is CrPC Section 307?" "medium"
    ["conclusion"; "trial"; "acquittal"; "conviction"] ].

Definition legal_procedures : list entry :=
[ lit "How to file an FIR?" "easy"
    ["police station"; "written"; "cognizable"; "Section 154"];
  lit "What is the process of bail?" "medium"
    ["application"; "court"; "surety"; "conditions"];
  lit "How does PIL work?" "medium"
    ["public interest"; "Supreme Court"; "High Court"; "standing"];
  lit "What is the appeal process?" "medium"
    ["higher court"; "limitation"; "grounds"];
  lit "How to file a writ petition?" "hard"
    ["Article 32"; "226"; "Supreme Court"; "High Court"];
  lit "What is investigation process?" "medium"
    ["FIR"; "evidence"; "chargesheet"; "Section 173"];
  lit "What is trial procedure?" "medium"
    ["charges"; "evidence"; "examination"; "judgment"];
  lit "How to file a complaint?" "easy"
    ["magistrate"; "written"; "non-cognizable"];
  lit "What is anticipatory bail procedure?" "medium"
    ["Section 438"; "application"; "Sessions Court"; "High Court"];
  lit "What is quashing of FIR?" "hard"
    ["Section 482"; "inherent powers"; "abuse of process"] ].

Definition comparative_questions : list entry :=
[ lit "Difference between Article 32 and 226?" "hard"
    ["Supreme Court"; "High Court"; "jurisdiction"; "writs"];
  lit "Difference between bail and anticipatory bail?" "medium"
    ["arrest"; "before"; "after"; "conditions"];
  lit "Murder vs Culpable Homicide?" "hard"
    ["Section 300"; "299"; "intention"; "degree"];
  lit "Cognizable vs Non-cognizable offence?" "medium"
    ["arrest"; "warrant"; "severity"];
  lit "Bailable vs Non-bailable offence?" "easy"
    ["bail"; "right"; "discretion"; "court"];
  lit "FIR vs Complaint?" "medium"
    ["cognizable"; "non-cognizable"; "police"; "magistrate"];
  lit "Summons case vs Warrant case?" "medium"
    ["procedure"; "punishment"; "severity"];
  lit "Sessions Court vs Magistrate Court?" "medium"
    ["jurisdiction"; "punishment"; "powers"];
  lit "Supreme Court vs High Court?" "easy"
    ["apex"; "state"; "jurisdiction"; "appeals"];
  lit "Civil law vs Criminal law?" "easy"
    ["dispute"; "crime"; "punishment"; "compensation"] ].

Definition scenario_based : list entry :=
[ lit "What happens if I kill someone?" "medium"
    ["Section 302"; "murder"; "punishment"; "life imprisonment"; "death"];
  lit "What to do if arrested?" "medium"
    ["rights"; "bail"; "lawyer"; "remain silent"];
  lit "Can police arrest without warrant?" "medium"
    ["cognizable"; "Section 41"; "conditions"];
  lit "What if someone cheats me?" "easy"
    ["Section 420"; "complaint"; "FIR"; "fraud"];
  lit "What happens if I commit fraud?" "medium"
    ["Section 420"; "punishment"; "imprisonment"; "fine"];
  lit "Can I get bail in murder case?" "hard"
    ["non-bailable"; "discretion"; "court"; "conditions"];
  lit "What to do in false FIR?" "medium"
    ["quash"; "Section 482"; "anticipatory bail"];
  lit "Rights during police custody?" "medium"
    ["lawyer"; "medical"; "inform"; "24 hours"];
  lit "What if defamed on social media?" "medium"
    ["Section 499"; "500"; "IT Act"; "defamation"];
  lit "Can I refuse to give statement to police?" "medium"
    ["right to silence"; "self-incrimination"; "Article 20(3)"] ].

Definition rights_based : list entry :=
[ lit "What are my rights during arrest?" "medium"
    ["informed"; "grounds"; "bail"; "lawyer"; "medical"];
  lit "Do I have right to remain silent?" "medium"
    ["Article 20(3)"; "self-incrimination"; "protection"];
  lit "Can police search my house?" "medium"
    ["warrant"; "Section 100"; "privacy"; "conditions"];
  lit "What is right to fair trial?" "medium"
    ["Article 21"; "legal aid"; "speedy trial"; "due process"];
  lit "Can I record police?" "medium"
    ["right"; "evidence"; "transparency"; "limitations"];
  lit "Right to lawyer during interrogation?" "medium"
    ["Article 22"; "consultation"; "present"];
  lit "Can police torture suspects?" "easy"
    ["illegal"; "Article 21"; "human rights"; "custodial violence"];
  lit "What is right to privacy?" "medium"
    ["Puttaswamy"; "fundamental right"; "Article 21"; "informational"];
  lit "Can I refuse to give fingerprints?" "hard"
    ["Section 53"; "reasonable"; "investigation"; "evidence"];
  lit "Right to free legal aid?" "medium"
    ["Article 39A"; "poor"; "legal services authority"] ].

Definition edge_cases : list entry :=
[ lit "Can a minor be tried for murder?" "hard"
    ["Juvenile Justice Act"; "POCSO"; "reformation"; "16-18"];
  lit "What if accused is mentally ill?" "hard"
    ["Section 84"; "unsound mind"; "incapacity"];
  lit "Can dying declaration be sole evidence?" "hard"
    ["Section 32"; "corroboration"; "reliable"; "trustworthy"];
  lit "Is suicide illegal in India?" "medium"
    ["decriminalized"; "Section 309"; "mental health"];
  lit "Can confession to police be used?" "hard"
    ["Section 25"; "inadmissible"; "magistrate"; "judicial"];
  lit "What is plea bargaining?" "hard"
    ["Chapter XXIA"; "negotiation"; "lesser sentence"; "voluntary"];
  lit "Can video evidence be used?" "medium"
    ["Section 65B"; "certificate"; "electronic"; "authentic"];
  lit "What is narco test?" "hard"
    ["consent"; "unconstitutional"; "self-incrimination"; "investigation"];
  lit "Can property be seized before conviction?" "hard"
    ["provisional attachment"; "PMLA"; "investigation"; "court order"];
  lit "What is compoundable offence?" "medium"
    ["settlement"; "compromise"; "permission"; "court"] ].

(** [Object.entries(questionBank)]: the categories in insertion order. *)
Definition questionBank : list (jsstring * list entry) :=
  [ (js "constitutional_articles", constitutional_articles);
    (js "fundamental_rights", fundamental_rights);
    (js "landmark_cases", landmark_cases);
    (js "ipc_sections", ipc_sections);
    (js "crpc_sections", crpc_sections);
    (js "legal_procedures", legal_procedures);
    (js "comparative_questions", comparative_questions);
    (js "scenario_based", scenario_based);
    (js "rights_based", rights_based);
    (js "edge_cases", edge_cases) ].

Definition variations : list jsstring :=
  List.map js
    [ "Explain in detail: ";
      "What are the key points of ";
      "Briefly describe ";
      "What is the importance of ";
      "What are the limitations of ";
      "How does the court interpret ";
      "What are recent developments in ";
      "Critically analyze " ].

Local Close Scope string_scope.

Section WithToLowerCase.

(** [String.prototype.toLowerCase] is the engine's; the models take it as
    it is given. *)
Variable toLowerCase : jsstring -> jsstring.

(** The state of [generateAllQuestions]: [allQuestions] and the counter
    [id]. *)
Definition gen_state : Type := (list question * N)%type.

(** [allQuestions.push({ id: id++, category, ...q })] *)
Definition push_base (cat : jsstring) (st : gen_state) (e : entry) : gen_state :=
  let '(allQuestions, next) := st in
  (allQuestions ++ [mkQuestion next cat e], (next + 1)%N).

(** The first loop: every entry of every category, in order. *)
Definition push_bank (st : gen_state) : gen_state :=
  fold_left
    (fun st '(cat, questions) => fold_left (push_base cat) questions st)
    questionBank st.

(** The body of [baseQuestions.forEach((q, idx) => ...)]. *)
Definition push_variation (st : gen_state) (it : nat * question) : gen_state :=
  let '(allQuestions, next) := st in
  let '(idx, bq) := it in
  if (idx mod 3 =? 0)%nat && (List.length allQuestions <? 1100)%nat then
    let variation :=
      nth (idx mod List.length variations) variations (js "undefined"%string) in
    (allQuestions ++
       [mkQuestion next (category bq)
          (mkEntry (concat variation (toLowerCase (q (fields bq))))
                   (difficulty (fields bq))
                   (expectedKeywords (fields bq)))],
     (next + 1)%N)
  else st.

Definition generateAllQuestions : list question :=
  let '(allQuestions, next) := push_bank ([], 1%N) in
  let baseQuestions := allQuestions in
  fst (fold_left push_variation
         (combine (seq 0 (List.length baseQuestions)) baseQuestions)
         (allQuestions, next)).

(** [evaluateResponse(response, expectedKeywords)] *)
Definition evaluateResponse (response : jsstring) (expected : list jsstring)
  : evaluation :=
  let responseLower := toLowerCase response in
  let matched :=
    List.filter
      (fun keyword => String_includes responseLower (toLowerCase keyword))
      expected in
  let raw :=
    (Number_of_nat (List.length matched) / Number_of_nat (List.length expected)
     * 100)%float in
  mkEvaluation
    (Math_round raw)
    matched
    (List.filter (fun k => negb (Array_includes matched k)) expected)
    (if (80 <=? raw)%float then js "excellent"%string
     else if (60 <=? raw)%float then js "good"%string
     else if (40 <=? raw)%float then js "average"%string
     else js "poor"%string).

End WithToLowerCase.

(** ** What the claims are measured against *)

(** The integer a Number denotes, when it denotes one. *)
Definition Number_to_Z (x : float) : option Z :=
  match Prim2SF x with
  | S754_zero _ => Some 0%Z
  | S754_finite s m e =>
      let num := (if s then Z.neg m else Z.pos m) in
      if (0 <=? e)%Z then Some (num * 2 ^ e)%Z
      else if (num mod 2 ^ (- e) =? 0)%Z then Some (num `div` 2 ^ (- e))%Z
      else None
  | _ => None
  end.

(** Rounding of a rational to the nearest integer, ties upwards. *)
Definition round_half_up (x : Q) : Z := Qfloor (Qplus x (1 # 2)).

(** [round(100 * m / n)] over the rationals. *)
Definition claimed_score (m n : nat) : Z :=
  round_half_up
    (Qmult (inject_Z 100)
       (Qdiv (inject_Z (Z.of_nat m)) (inject_Z (Z.of_nat n)))).

(** The score [evaluateResponse] computes from the two lengths. *)
Definition score_of_counts (m n : nat) : float :=
  Math_round (Number_of_nat m / Number_of_nat n * 100)%float.

Definition agrees (m n : nat) : bool :=
  match Number_to_Z (score_of_counts m n) with
  | Some z => (z =? claimed_score m n)%Z && (0 <=? z)%Z && (z <=? 100)%Z
  | None => false
  end.

(** Every pair [m <= n] with [1 <= n <= bound]. *)
Definition table_agrees (bound : nat) : bool :=
  forallb (fun n => forallb (fun m => agrees m n) (seq 0 (S n))) (seq 1 bound).

(** The first 130 questions: the bank in order, numbered from 1. *)
Definition base_entries : list (jsstring * entry) :=
  flat_map (fun '(cat, questions) => List.map (pair cat) questions) questionBank.

Definition expected_base : list question :=
  List.map (fun '(i, (cat, e)) => mkQuestion (N.of_nat (S i)) cat e)
    (combine (seq 0 (List.length base_entries)) base_entries).

(** The [k]-th variation rephrases base question [3 * k]. *)
Definition expected_variation (toLowerCase : jsstring -> jsstring) (k : nat)
  : question :=
  let bq := nth (3 * k) expected_base (mkQuestion 0%N [] (mkEntry [] [] [])) in
  mkQuestion (N.of_nat (131 + k)) (category bq)
    (mkEntry
       (nth ((3 * k) mod 8) variations [] ++ toLowerCase (q (fields bq)))
       (difficulty (fields bq))
       (expectedKeywords (fields bq))).

(** A response made of the letters a..w, and forty one-letter keywords of
    which the first twenty-three are those letters. *)
Definition letters_a_to_w : jsstring := List.map N.of_nat (seq 97 23).

Definition forty_keywords : list jsstring :=
  List.map (fun c => [N.of_nat c]) (seq 97 23 ++ seq 48 10 ++ seq 33 7).

(** The claim about the score, as the specification words it. *)
Definition score_as_claimed
  (toLowerCase : jsstring -> jsstring) (response : jsstring)
  (expected : list jsstring) : Prop :=
  let m :=
    List.length
      (List.filter
         (fun k => String_includes (toLowerCase response) (toLowerCase k))
         expected) in
  Number_to_Z (score (evaluateResponse toLowerCase response expected))
  = Some (claimed_score m (List.length expected)).

(** ** Properties *)

Lemma table_agrees_39 : table_agrees 39 = true.
Proof. vm_compute. reflexivity. Qed.

Lemma agrees_below_40 (m n : nat) :
  m <= n -> 0 < n -> n < 40 -> agrees m n = true.
Proof.
  intros Hm Hn Hb.
  pose proof table_agrees_39 as T. unfold table_agrees in T.
  rewrite forallb_forall in T.
  assert (Tn : forallb (fun m => agrees m n) (seq 0 (S n)) = true)
    by (apply T, in_seq; lia).
  rewrite forallb_forall in Tn. apply Tn, in_seq. lia.
Qed.

Lemma filter_length_le {A} (f : A -> bool) (l : list A) :
  List.length (List.filter f l) <= List.length l.
Proof.
  induction l as [|a l IH]; simpl; [lia|]. destruct (f a); simpl; lia.
Qed.

Lemma filter_complement_Permutation {A} (f : A -> bool) (l : list A) :
  Permutation (List.filter f l ++ List.filter (fun a => negb (f a)) l) l.
Proof.
  induction l as [|a l IH]; simpl; [constructor|].
  destruct (f a); simpl.
  - constructor. exact IH.
  - symmetry. apply Permutation_cons_app. symmetry. exact IH.
Qed.

Lemma Array_includes_In (arr : list jsstring) (k : jsstring) :
  Array_includes arr k = true <-> In k arr.
Proof.
  unfold Array_includes. rewrite existsb_exists. split.
  - intros [x [Hx E]]. apply jsstring_eqb_eq in E. subst. exact Hx.
  - intros H. exists k. split; [exact H | apply jsstring_eqb_eq; reflexivity].
Qed.

(** The missed keywords are the expected ones that fail the test. *)
Lemma missed_is_complement (f : jsstring -> bool) (expected : list jsstring) :
  List.filter (fun k => negb (Array_includes (List.filter f expected) k)) expected
  = List.filter (fun k => negb (f k)) expected.
Proof.
  apply filter_ext_in. intros k Hk. f_equal.
  destruct (f k) eqn:E.
  - apply Array_includes_In. apply filter_In. split; assumption.
  - destruct (Array_includes (List.filter f expected) k) eqn:E'; [|reflexivity].
    apply Array_includes_In, filter_In in E'. destruct E' as [_ E'].
    congruence.
Qed.

(** ** The range of the score *)

Section ScoreRange.
Import Binary64.
Local Open Scope Z_scope.

(** The integers from 0 to [bound] are Numbers that denote themselves. *)
Definition integers_convert (bound : nat) : bool :=
  forallb
    (fun r =>
       match Number_to_Z (PrimFloat.of_uint63 (Uint63.of_Z (Z.of_nat r))) with
       | Some z => z =? Z.of_nat r
       | None => false
       end)
    (seq 0 (S bound)).

Lemma integers_convert_100 : integers_convert 100 = true.
Proof. vm_compute. reflexivity. Qed.

Lemma Number_to_Z_integer (r : Z) :
  0 <= r <= 100 ->
  Number_to_Z (PrimFloat.of_uint63 (Uint63.of_Z r)) = Some r.
Proof.
  intros Hr. pose proof integers_convert_100 as T. unfold integers_convert in T.
  rewrite forallb_forall in T.
  specialize (T (Z.to_nat r) ltac:(apply in_seq; lia)).
  rewrite Z2Nat.id in T by lia.
  destruct (Number_to_Z _) as [z|]; [|discriminate].
  apply Z.eqb_eq in T. congruence.
Qed.

Lemma Prim2SF_Number_of_nat (k : nat) :
  Z.of_nat k < 2 ^ 53 ->
  Prim2SF (Number_of_nat k) = binary_normalize prec emax (Z.of_nat k) 0 false.
Proof.
  intros Hk. unfold Number_of_nat.
  rewrite of_uint63_spec, Uint63.of_Z_spec, Z.mod_small; [reflexivity|].
  split; [lia|]. eapply Z.lt_trans; [exact Hk|]. reflexivity.
Qed.

(** [Math.round] of a Number that is zero or at most 100 is an integer
    between 0 and 100. *)
Lemma Math_round_range (x : float) :
  (Prim2SF x = S754_zero false \/
   exists m e, Prim2SF x = S754_finite false m e /\
               e <= -46 /\ Z.pos m <= 100 * 2 ^ (- e)) ->
  exists z, Number_to_Z (Math_round x) = Some z /\ 0 <= z <= 100.
Proof.
  intros [H | (m & e & H & He & Hm)].
  - exists 0. unfold Math_round, Number_to_Z. rewrite H, H. split; [reflexivity | lia].
  - unfold Math_round. rewrite H.
    replace (0 <=? e) with false by (symmetry; apply Z.leb_gt; lia).
    assert (Hp : 0 < 2 ^ (- e)) by (apply Z.pow_pos_nonneg; lia).
    assert (Hs : 2 ^ (- e + 1) = 2 * 2 ^ (- e))
      by (rewrite Z.pow_add_r by lia; lia).
    set (r := (2 * Z.pos m + 2 ^ (- e)) / 2 ^ (- e + 1)).
    assert (Hr : 0 <= r <= 100).
    { subst r. rewrite Hs. split.
      - apply Z.div_pos; lia.
      - apply Z.lt_succ_r. apply Z.div_lt_upper_bound; lia. }
    exists r. split; [|exact Hr].
    destruct (r <? 0) eqn:E1; [apply Z.ltb_lt in E1; lia|].
    destruct (r =? 0) eqn:E2.
    + apply Z.eqb_eq in E2. rewrite E2. reflexivity.
    + apply Number_to_Z_integer. exact Hr.
Qed.

(** The score is an integer between 0 and 100 whenever [m] of [n]
    keywords match, [n] being the length of an array. *)
Lemma score_of_counts_range (m n : nat) :
  (m <= n)%nat -> (0 < n)%nat -> Z.of_nat n < 2 ^ 32 ->
  exists z, Number_to_Z (score_of_counts m n) = Some z /\ 0 <= z <= 100.
Proof.
  intros Hm Hn Hb. unfold score_of_counts. apply Math_round_range.
  assert (Hb' : Z.of_nat n < 2 ^ 53)
    by (eapply Z.lt_trans; [exact Hb | reflexivity]).
  rewrite mul_spec, div_spec, !Prim2SF_Number_of_nat by lia.
  destruct (binary_normalize_integer (Z.of_nat n) ltac:(lia))
    as (my & ey & -> & Hey & Hmy & Hdy).
  destruct m as [|m'].
  - left. reflexivity.
  - destruct (binary_normalize_integer (Z.of_nat (S m')) ltac:(lia))
      as (mx & ex & -> & Hex & Hmx & Hdx).
    destruct (SFdiv_le_one (Z.of_nat (S m')) (Z.of_nat n) mx my ex ey
                ltac:(lia) Hex Hmx Hdx Hey Hmy Hdy)
      as [-> | (mq & eq & -> & Heq & Hmq)].
    + left. reflexivity.
    + apply SFmul_100_le; assumption.
Qed.

End ScoreRange.

(** C9, amended: for every response and every non-empty list of expected
    keywords, the matched and the missed keywords are the keywords that
    occur and that do not occur in the response after lower-casing both,
    in order, so together they are a rearrangement of the expected
    keywords; the score is an integer between 0 and 100 (the list being
    an array, of fewer than 2 ^ 32 elements); and for fewer than forty
    keywords the score is round(100 * m / n), n the number of keywords and
    m the number of those that occur. *)
Theorem evaluateResponse_score_and_partition
  (toLowerCase : jsstring -> jsstring) (response : jsstring)
  (expected : list jsstring) :
  expected <> [] ->
  let contained := fun k =>
    String_includes (toLowerCase response) (toLowerCase k) in
  let r := evaluateResponse toLowerCase response expected in
  let n := List.length expected in
  let m := List.length (List.filter contained expected) in
  matchedKeywords r = List.filter contained expected /\
  missedKeywords r = List.filter (fun k => negb (contained k)) expected /\
  Permutation (matchedKeywords r ++ missedKeywords r) expected /\
  ((Z.of_nat n < 2 ^ 32)%Z ->
   exists z, Number_to_Z (score r) = Some z /\ (0 <= z <= 100)%Z) /\
  (n < 40 ->
   Number_to_Z (score r) = Some (claimed_score m n) /\
   (0 <= claimed_score m n <= 100)%Z).
Proof.
  intros Hne contained r n m.
  assert (Hmissed : missedKeywords r
                    = List.filter (fun k => negb (contained k)) expected)
    by apply missed_is_complement.
  assert (Hpos : 0 < n)
    by (subst n; destruct expected; simpl; [congruence | lia]).
  split; [reflexivity|]. split; [exact Hmissed|]. split; [|split].
  - rewrite Hmissed. apply filter_complement_Permutation.
  - intros Hn. change (score r) with (score_of_counts m n).
    apply score_of_counts_range; [apply filter_length_le | exact Hpos | exact Hn].
  - intros Hn.
    pose proof (agrees_below_40 m n (filter_length_le _ _) Hpos Hn) as A.
    unfold agrees in A.
    change (score r) with (score_of_counts m n).
    destruct (Number_to_Z (score_of_counts m n)) as [z|]; [|discriminate].
    apply andb_true_iff in A. destruct A as [A Hhi].
    apply andb_true_iff in A. destruct A as [Heq Hlo].
    apply Z.eqb_eq in Heq. apply Z.leb_le in Hlo, Hhi. subst z.
    split; [reflexivity | lia].
Qed.

(** Forty-four keywords of which thirty-five occur: the score is 80, and
    three keywords of which two occur: the score is 67. *)
Lemma evaluateResponse_score_and_partition_witness :
  [js "equality"; js "law"; js "discrimination"] <> [] /\
  Number_to_Z
    (score (evaluateResponse ascii_toLowerCase
              (js "Article 14: Equality before the Law")
              [js "equality"; js "law"; js "discrimination"]))
  = Some 67%Z /\
  exists z,
    Number_to_Z
      (score (evaluateResponse ascii_toLowerCase letters_a_to_w
                forty_keywords)) = Some z /\
    (0 <= z <= 100)%Z.
Proof.
  split; [discriminate|].
  destruct (evaluateResponse_score_and_partition ascii_toLowerCase
              (js "Article 14: Equality before the Law")
              [js "equality"; js "law"; js "discrimination"]
              ltac:(discriminate)) as (_ & _ & _ & _ & Hformula).
  destruct (evaluateResponse_score_and_partition ascii_toLowerCase
              letters_a_to_w forty_keywords ltac:(discriminate))
    as (_ & _ & _ & Hrange & _).
  split.
  - exact (proj1 (Hformula ltac:(simpl; lia))).
  - exact (Hrange ltac:(vm_compute; reflexivity)).
Defined.

(** C9 as stated fails at forty keywords of which twenty-three match:
    100 * 23 / 40 is 57.5 and rounds to 58, while the double (23 / 40) * 100
    is 57.49999999999999 and [Math.round] gives 57. *)
Lemma evaluateResponse_score_forty_keywords :
  forty_keywords <> [] /\
  List.length forty_keywords = 40 /\
  matchedKeywords
    (evaluateResponse ascii_toLowerCase letters_a_to_w forty_keywords)
  = firstn 23 forty_keywords /\
  Number_to_Z
    (score (evaluateResponse ascii_toLowerCase letters_a_to_w forty_keywords))
  = Some 57%Z /\
  claimed_score 23 40 = 58%Z /\
  ~ score_as_claimed ascii_toLowerCase letters_a_to_w forty_keywords.
Proof.
  split; [discriminate|]. split; [reflexivity|].
  split; [vm_compute; reflexivity|].
  split; [vm_compute; reflexivity|].
  split; [vm_compute; reflexivity|].
  unfold score_as_claimed. vm_compute. discriminate.
Qed.

(** C10: [generateAllQuestions] takes no argument and returns one fixed
    list: the 130 entries of the bank in order, then one rephrased
    variation for every third base question (44 of them), 174 questions in
    all, fewer than 1000, with ids 1, 2, ..., 174, hence distinct. *)
Theorem generateAllQuestions_fixed_list (toLowerCase : jsstring -> jsstring) :
  generateAllQuestions toLowerCase
  = expected_base ++ List.map (expected_variation toLowerCase) (seq 0 44) /\
  List.length expected_base = 130 /\
  List.length (generateAllQuestions toLowerCase) = 174 /\
  174 < 1000 /\
  List.map id (generateAllQuestions toLowerCase) = List.map N.of_nat (seq 1 174) /\
  List.NoDup (List.map id (generateAllQuestions toLowerCase)).
Proof.
  assert (Hids : List.map id (generateAllQuestions toLowerCase)
                 = List.map N.of_nat (seq 1 174))
    by (vm_compute; reflexivity).
  split; [vm_compute; reflexivity|].
  split; [vm_compute; reflexivity|].
  split; [vm_compute; reflexivity|].
  split; [lia|].
  split; [exact Hids|].
  rewrite Hids. apply NoDup_ListNoDup, (bool_decide_unpack _).
  vm_compute. exact I.
Qed.

(** ** Further properties of [evaluateResponse] *)

(** The quality band of [m] matched keywords out of [n], over the
    rationals: 80% and more, 60% and more, 40% and more, below. *)
Definition claimed_quality (m n : nat) : jsstring :=
  let m := Z.of_nat m in
  let n := Z.of_nat n in
  if (4 * n <=? 5 * m)%Z then js "excellent"
  else if (3 * n <=? 5 * m)%Z then js "good"
  else if (2 * n <=? 5 * m)%Z then js "average"
  else js "poor".

(** The quality [evaluateResponse] computes from the two lengths. *)
Definition quality_of_counts (m n : nat) : jsstring :=
  let raw := (Number_of_nat m / Number_of_nat n * 100)%float in
  if (80 <=? raw)%float then js "excellent"
  else if (60 <=? raw)%float then js "good"
  else if (40 <=? raw)%float then js "average"
  else js "poor".

Definition quality_table_agrees (bound : nat) : bool :=
  forallb
    (fun n =>
       forallb
         (fun m => jsstring_eqb (quality_of_counts m n) (claimed_quality m n))
         (seq 0 (S n)))
    (seq 1 bound).

(** Forty-four one-letter keywords, the first thirty-five of them letters
    of [thirty_five_letters]. *)
Definition thirty_five_letters : jsstring := List.map N.of_nat (seq 48 35).

Definition forty_four_keywords : list jsstring :=
  List.map (fun c => [N.of_nat c]) (seq 48 35 ++ seq 33 9).

Lemma quality_table_agrees_200 : quality_table_agrees 200 = true.
Proof. vm_compute. reflexivity. Qed.

Lemma quality_agrees_to_200 (m n : nat) :
  m <= n -> 0 < n -> n <= 200 -> quality_of_counts m n = claimed_quality m n.
Proof.
  intros Hm Hn Hb.
  pose proof quality_table_agrees_200 as T. unfold quality_table_agrees in T.
  rewrite forallb_forall in T.
  assert (Tn : forallb
                 (fun m => jsstring_eqb (quality_of_counts m n)
                                        (claimed_quality m n))
                 (seq 0 (S n)) = true)
    by (apply T, in_seq; lia).
  rewrite forallb_forall in Tn. apply jsstring_eqb_eq, Tn, in_seq. lia.
Qed.

(** An empty list of expected keywords gives no score: the score is NaN,
    the quality 'poor', and nothing is matched or missed. *)
Theorem evaluateResponse_no_keywords
  (toLowerCase : jsstring -> jsstring) (response : jsstring) :
  let r := evaluateResponse toLowerCase response [] in
  PrimFloat.is_nan (score r) = true /\
  Number_to_Z (score r) = None /\
  quality r = js "poor" /\
  matchedKeywords r = [] /\
  missedKeywords r = [].
Proof. repeat split; vm_compute; reflexivity. Qed.

(** For up to 200 expected keywords the quality is the band of the exact
    ratio m / n: 'excellent' from 80%, 'good' from 60%, 'average' from
    40%, 'poor' below.  It is taken from the score before rounding, so a
    score shown as 80 can come with 'good'. *)
Theorem evaluateResponse_quality_bands
  (toLowerCase : jsstring -> jsstring) (response : jsstring)
  (expected : list jsstring) :
  expected <> [] -> List.length expected <= 200 ->
  let r := evaluateResponse toLowerCase response expected in
  quality r
  = claimed_quality (List.length (matchedKeywords r)) (List.length expected).
Proof.
  intros Hne Hlen r.
  assert (Hpos : 0 < List.length expected)
    by (destruct expected; simpl; [congruence | lia]).
  change (quality r)
    with (quality_of_counts (List.length (matchedKeywords r))
            (List.length expected)).
  apply quality_agrees_to_200; [apply filter_length_le | exact Hpos | exact Hlen].
Qed.

Lemma evaluateResponse_quality_bands_witness :
  forty_four_keywords <> [] /\
  List.length forty_four_keywords <= 200 /\
  List.length
    (matchedKeywords
       (evaluateResponse ascii_toLowerCase thirty_five_letters
          forty_four_keywords)) = 35 /\
  Number_to_Z
    (score (evaluateResponse ascii_toLowerCase thirty_five_letters
              forty_four_keywords)) = Some 80%Z /\
  quality (evaluateResponse ascii_toLowerCase thirty_five_letters
             forty_four_keywords) = js "good".
Proof.
  split; [discriminate|]. split; [vm_compute; lia|].
  split; [vm_compute; reflexivity|]. split; [vm_compute; reflexivity|].
  rewrite (evaluateResponse_quality_bands ascii_toLowerCase
             thirty_five_letters forty_four_keywords
             ltac:(discriminate) ltac:(vm_compute; lia)).
  vm_compute. reflexivity.
Defined.

Lemma filter_map_length {A B} (f : A -> B) (p : B -> bool) (l : list A) :
  List.length (List.filter (fun a => p (f a)) l)
  = List.length (List.filter p (List.map f l)).
Proof.
  induction l as [|a l IH]; simpl; [reflexivity|].
  destruct (p (f a)); simpl; rewrite IH; reflexivity.
Qed.

(** The evaluation is blind to case: two responses with the same
    lower-case form, and two keyword lists with the same lower-case
    forms, get the same score and quality and as many matched and missed
    keywords. *)
Theorem evaluateResponse_ignores_case
  (toLowerCase : jsstring -> jsstring) (response response' : jsstring)
  (expected expected' : list jsstring) :
  toLowerCase response = toLowerCase response' ->
  List.map toLowerCase expected = List.map toLowerCase expected' ->
  let r := evaluateResponse toLowerCase response expected in
  let r' := evaluateResponse toLowerCase response' expected' in
  score r = score r' /\
  quality r = quality r' /\
  List.length (matchedKeywords r) = List.length (matchedKeywords r') /\
  List.length (missedKeywords r) = List.length (missedKeywords r').
Proof.
  intros Hr Hk r r'.
  assert (Hlen : List.length expected = List.length expected').
  { rewrite <- (length_map toLowerCase expected), Hk. apply length_map. }
  assert (Hm : List.length (matchedKeywords r)
               = List.length (matchedKeywords r')).
  { subst r r'. cbn [evaluateResponse matchedKeywords]. rewrite Hr.
    rewrite (filter_map_length toLowerCase
               (String_includes (toLowerCase response')) expected).
    rewrite (filter_map_length toLowerCase
               (String_includes (toLowerCase response')) expected').
    rewrite Hk. reflexivity. }
  assert (Hmissed : forall resp ks,
    List.length (missedKeywords (evaluateResponse toLowerCase resp ks))
    = List.length ks
      - List.length (matchedKeywords (evaluateResponse toLowerCase resp ks))).
  { intros resp ks.
    pose proof (Permutation_length
                  (filter_complement_Permutation
                     (fun k => String_includes (toLowerCase resp)
                                 (toLowerCase k)) ks)) as P.
    rewrite length_app in P.
    cbn [evaluateResponse matchedKeywords missedKeywords].
    rewrite missed_is_complement. lia. }
  split; [|split; [|split]].
  - subst r r'. cbn [evaluateResponse score matchedKeywords] in *.
    rewrite Hm, Hlen. reflexivity.
  - subst r r'. cbn [evaluateResponse quality matchedKeywords] in *.
    rewrite Hm, Hlen. reflexivity.
  - exact Hm.
  - subst r r'. rewrite !Hmissed, Hm, Hlen. reflexivity.
Qed.

Lemma evaluateResponse_ignores_case_witness :
  ascii_toLowerCase (js "ARTICLE 21: LIFE and Liberty")
  = ascii_toLowerCase (js "article 21: life AND LIBERTY") /\
  List.map ascii_toLowerCase [js "Life"; js "liberty"; js "Procedure"]
  = List.map ascii_toLowerCase [js "LIFE"; js "Liberty"; js "procedure"] /\
  score (evaluateResponse ascii_toLowerCase (js "ARTICLE 21: LIFE and Liberty")
           [js "Life"; js "liberty"; js "Procedure"])
  = score (evaluateResponse ascii_toLowerCase
             (js "article 21: life AND LIBERTY")
             [js "LIFE"; js "Liberty"; js "procedure"]).
Proof.
  assert (Hr : ascii_toLowerCase (js "ARTICLE 21: LIFE and Liberty")
               = ascii_toLowerCase (js "article 21: life AND LIBERTY"))
    by (vm_compute; reflexivity).
  assert (Hk : List.map ascii_toLowerCase
                 [js "Life"; js "liberty"; js "Procedure"]
               = List.map ascii_toLowerCase
                   [js "LIFE"; js "Liberty"; js "procedure"])
    by (vm_compute; reflexivity).
  split; [exact Hr|]. split; [exact Hk|].
  exact (proj1 (evaluateResponse_ignores_case ascii_toLowerCase _ _ _ _ Hr Hk)).
Defined.

(** A keyword found in a response is still found when text is put before
    and after the response, for a lower-casing that works unit by unit
    (so that it goes through concatenation). *)
Theorem evaluateResponse_matches_survive_context
  (toLowerCase : jsstring -> jsstring) (before response after : jsstring)
  (expected : list jsstring) (k : jsstring) :
  (forall a b, toLowerCase (a ++ b) = toLowerCase a ++ toLowerCase b) ->
  In k (matchedKeywords (evaluateResponse toLowerCase response expected)) ->
  In k (matchedKeywords
          (evaluateResponse toLowerCase (before ++ response ++ after)
             expected)).
Proof.
  intros Hhom Hk. cbn [evaluateResponse matchedKeywords] in *.
  apply filter_In in Hk. destruct Hk as [Hin Hinc]. apply filter_In.
  split; [exact Hin|].
  apply String_includes_spec in Hinc. destruct Hinc as (pre & post & E).
  apply String_includes_spec. rewrite !Hhom, E.
  exists (toLowerCase before ++ pre), (post ++ toLowerCase after).
  rewrite <- !app_assoc. reflexivity.
Qed.

Lemma ascii_toLowerCase_app (a b : jsstring) :
  ascii_toLowerCase (a ++ b) = ascii_toLowerCase a ++ ascii_toLowerCase b.
Proof. apply map_app. Qed.

Lemma evaluateResponse_matches_survive_context_witness :
  In (js "Murder")
    (matchedKeywords
       (evaluateResponse ascii_toLowerCase (js "punishment for murder")
          [js "Murder"; js "theft"])) /\
  In (js "Murder")
    (matchedKeywords
       (evaluateResponse ascii_toLowerCase
          (js "IPC 302: " ++ js "punishment for murder" ++ js " is death.")
          [js "Murder"; js "theft"])).
Proof.
  assert (H : In (js "Murder")
                (matchedKeywords
                   (evaluateResponse ascii_toLowerCase
                      (js "punishment for murder")
                      [js "Murder"; js "theft"])))
    by (vm_compute; left; reflexivity).
  split; [exact H|].
  exact (evaluateResponse_matches_survive_context ascii_toLowerCase
           (js "IPC 302: ") (js "punishment for murder") (js " is death.")
           [js "Murder"; js "theft"] (js "Murder") ascii_toLowerCase_app H).
Defined.

(** ** [exportQuestions] *)

(** [String(n)] for an id: its decimal digits. *)
Definition Number_toString (n : N) : jsstring :=
  js (NilZero.string_of_uint (N.to_uint n)).

(** [arr.join(sep)] on an array of strings. *)
Fixpoint join (sep : jsstring) (arr : list jsstring) : jsstring :=
  match arr with
  | [] => []
  | x :: rest =>
      match rest with
      | [] => x
      | _ :: _ => x ++ sep ++ join sep rest
      end
  end.

(** What the browser is given to save: [link.download], the type of the
    Blob and its text. *)
Record download : Type := mkDownload {
  filename : jsstring;
  mime : jsstring;
  content : jsstring
}.

(** The questions of the selected category, or all of them. *)
Definition filtered (selectedCategory : jsstring) (allQuestions : list question)
  : list question :=
  if jsstring_eqb selectedCategory (js "all") then allQuestions
  else List.filter (fun x => jsstring_eqb (category x) selectedCategory)
         allQuestions.

Definition csv_headers : list jsstring :=
  [js "ID"; js "Category"; js "Question"; js "Difficulty";
   js "Expected Keywords"].

(** The double quote of the template literals. *)
Definition quote : jsstring := [34%N].

(** One element of [rows]. *)
Definition csv_row (x : question) : list jsstring :=
  [ Number_toString (id x);
    category x;
    quote ++ q (fields x) ++ quote;
    difficulty (fields x);
    quote ++ join (js ", ") (expectedKeywords (fields x)) ++ quote ].

Definition csv (questions : list question) : jsstring :=
  join [10%N]
    (List.map (join (js ",")) (csv_headers :: List.map csv_row questions)).

(** [exportQuestions(format)]; [stringify] stands for
    [JSON.stringify(_, null, 2)] of the engine.  Another format than
    'json' and 'csv' does nothing. *)
Definition exportQuestions (stringify : list question -> jsstring)
  (format selectedCategory : jsstring) (allQuestions : list question)
  : option download :=
  let chosen := filtered selectedCategory allQuestions in
  if jsstring_eqb format (js "json") then
    Some (mkDownload (js "legal_qa_test_questions.json")
            (js "application/json") (stringify chosen))
  else if jsstring_eqb format (js "csv") then
    Some (mkDownload (js "legal_qa_test_questions.csv") (js "text/csv")
            (csv chosen))
  else None.

(** The number of line feeds of a text. *)
Definition line_feeds (s : jsstring) : nat :=
  List.length (List.filter (N.eqb 10) s).

(** No text of a question has a line feed. *)
Definition single_line (x : question) : bool :=
  (line_feeds (category x) =? 0)%nat
  && (line_feeds (q (fields x)) =? 0)%nat
  && (line_feeds (difficulty (fields x)) =? 0)%nat
  && forallb (fun k => (line_feeds k =? 0)%nat) (expectedKeywords (fields x)).

Lemma line_feeds_app (a b : jsstring) :
  line_feeds (a ++ b) = line_feeds a + line_feeds b.
Proof. unfold line_feeds. rewrite List.filter_app, length_app. reflexivity. Qed.

Lemma line_feeds_digits (d : Decimal.uint) :
  line_feeds (js (NilEmpty.string_of_uint d)) = 0.
Proof. induction d; [reflexivity | exact IHd ..]. Qed.

Lemma line_feeds_Number_toString (n : N) : line_feeds (Number_toString n) = 0.
Proof.
  unfold Number_toString, NilZero.string_of_uint.
  destruct (N.to_uint n); [reflexivity | apply line_feeds_digits ..].
Qed.

(** Joining single-line texts with a single-line separator gives a single
    line. *)
Lemma line_feeds_join_none (sep : jsstring) (arr : list jsstring) :
  line_feeds sep = 0 -> (forall x, In x arr -> line_feeds x = 0) ->
  line_feeds (join sep arr) = 0.
Proof.
  intros Hsep. induction arr as [|x rest IH]; intros Hall; [reflexivity|].
  destruct rest as [|y rest].
  - apply Hall. left. reflexivity.
  - change (join sep (x :: y :: rest)) with (x ++ sep ++ join sep (y :: rest)).
    rewrite !line_feeds_app, Hsep, (Hall x (or_introl eq_refl)), IH;
      [reflexivity|].
    intros z Hz. apply Hall. right. exact Hz.
Qed.

(** Joining single-line texts with line feeds gives one line feed between
    each two. *)
Lemma line_feeds_join_lines (arr : list jsstring) :
  (forall x, In x arr -> line_feeds x = 0) ->
  line_feeds (join [10%N] arr) = List.length arr - 1.
Proof.
  induction arr as [|x rest IH]; intros Hall; [reflexivity|].
  destruct rest as [|y rest].
  - simpl. apply Hall. left. reflexivity.
  - change (join [10%N] (x :: y :: rest))
      with (x ++ [10%N] ++ join [10%N] (y :: rest)).
    rewrite !line_feeds_app, (Hall x (or_introl eq_refl)), IH.
    + simpl. lia.
    + intros z Hz. apply Hall. right. exact Hz.
Qed.

Lemma csv_row_single_line (x : question) :
  single_line x = true -> line_feeds (join (js ",") (csv_row x)) = 0.
Proof.
  unfold single_line. rewrite !andb_true_iff, !Nat.eqb_eq, forallb_forall.
  intros [[[Hc Hq] Hd] Hk].
  apply line_feeds_join_none; [reflexivity|].
  intros f [<- | [<- | [<- | [<- | [<- | []]]]]].
  - apply line_feeds_Number_toString.
  - exact Hc.
  - rewrite !line_feeds_app, Hq. reflexivity.
  - exact Hd.
  - rewrite !line_feeds_app, line_feeds_join_none; [reflexivity.. |].
    intros k Hin. apply Nat.eqb_eq, Hk, Hin.
Qed.

(** The CSV export has one line per exported question after the header
    line, provided no text of these questions has a line feed: nothing is
    escaped.  The file name and type are fixed. *)
Theorem exportQuestions_csv_lines (stringify : list question -> jsstring)
  (selectedCategory : jsstring) (allQuestions : list question) :
  forallb single_line (filtered selectedCategory allQuestions) = true ->
  exists text,
    exportQuestions stringify (js "csv") selectedCategory allQuestions
    = Some (mkDownload (js "legal_qa_test_questions.csv") (js "text/csv") text)
    /\ line_feeds text
       = List.length (filtered selectedCategory allQuestions).
Proof.
  intros Hall. rewrite forallb_forall in Hall.
  eexists. split; [reflexivity|].
  unfold csv. rewrite line_feeds_join_lines.
  - cbn [List.map List.length]. rewrite !length_map. lia.
  - intros line Hline. apply in_map_iff in Hline.
    destruct Hline as [row [<- [<- | Hrow]]]; [reflexivity|].
    apply in_map_iff in Hrow. destruct Hrow as [x [<- Hx]].
    apply csv_row_single_line, Hall, Hx.
Qed.

Lemma exportQuestions_csv_lines_witness :
  forallb single_line
    (filtered (js "crpc_sections") (generateAllQuestions ascii_toLowerCase))
  = true /\
  List.length
    (filtered (js "crpc_sections") (generateAllQuestions ascii_toLowerCase))
  = 13 /\
  exists text,
    exportQuestions (fun _ => []) (js "csv") (js "crpc_sections")
      (generateAllQuestions ascii_toLowerCase)
    = Some (mkDownload (js "legal_qa_test_questions.csv") (js "text/csv") text)
    /\ line_feeds text = 13.
Proof.
  assert (H : forallb single_line
                (filtered (js "crpc_sections")
                   (generateAllQuestions ascii_toLowerCase)) = true)
    by (vm_compute; reflexivity).
  assert (L : List.length
                (filtered (js "crpc_sections")
                   (generateAllQuestions ascii_toLowerCase)) = 13)
    by (vm_compute; reflexivity).
  split; [exact H|]. split; [exact L|].
  destruct (exportQuestions_csv_lines (fun _ => []) (js "crpc_sections")
              (generateAllQuestions ascii_toLowerCase) H) as [text [E Hn]].
  exists text. split; [exact E|]. rewrite Hn. exact L.
Defined.
End TestSuite.

(* ================================================================== *)
(** * The store: [database/setup.sql] *)
(* ================================================================== *)

Module Store.

Local Open Scope string_scope.
Local Open Scope Z_scope.

(** ** SQL values *)

(** A nullable column is an [option]; [None] is NULL. *)
Definition coalesce {A} (x : option A) (otherwise : A) : A :=
  match x with
  | Some v => v
  | None => otherwise
  end.

(** [COALESCE(a, b)] with two nullable arguments. *)
Definition coalesce2 {A} (x y : option A) : option A :=
  match x with
  | Some v => Some v
  | None => y
  end.

(** A JSONB value. *)
#[local] Set Warnings "-register-all".
Inductive json : Type :=
| JNull : json
| JBool : bool -> json
| JNumber : Q -> json
| JString : string -> json
| JArray : list json -> json
| JObject : list (string * json) -> json.

(** [ORDER BY]: a stable insertion sort; [before a b] says that [a] may
    stand before [b].  SQL leaves the order of rows with equal keys open,
    this model keeps them as they were. *)
Fixpoint insert_by {A} (before : A -> A -> bool) (x : A) (l : list A) : list A :=
  match l with
  | [] => [x]
  | h :: t => if before x h then x :: h :: t else h :: insert_by before x t
  end.

Definition order_by {A} (before : A -> A -> bool) (l : list A) : list A :=
  fold_right (insert_by before) [] l.

(** [a] may stand before [b]. *)
Definition ordered {A} (before : A -> A -> bool) (a b : A) : Prop :=
  before a b = true.

(** [LIMIT n]: a negative count is an error. *)
Definition limit {A} (n : Z) (l : list A) : option (list A) :=
  if n <? 0 then None else Some (firstn (Z.to_nat n) l).

(** Multiplication of two INTEGERs: out of the 32-bit range is an error. *)
Definition int4_mul (a b : Z) : option Z :=
  let r := a * b in
  if (- 2147483648 <=? r) && (r <=? 2147483647) then Some r else None.

(** [l FULL OUTER JOIN r ON on]: every matching pair, every left row
    without a match extended with NULLs, every right row without a match
    extended with NULLs. *)
Definition full_outer_join {A B} (on : A -> B -> bool) (l : list A) (r : list B)
  : list (option A * option B) :=
  flat_map
    (fun a =>
       match List.filter (on a) r with
       | [] => [(Some a, None)]
       | matches => List.map (fun b => (Some a, Some b)) matches
       end) l
  ++ List.map (fun b => (None, Some b))
       (List.filter (fun b => negb (existsb (fun a => on a b) l)) r).

(** ** Column types *)

(** The types of the columns and expressions of this script: INTEGER,
    REAL, FLOAT (double precision), VARCHAR and TEXT.  The declared length
    of a VARCHAR plays no part here: RETURNS TABLE declares its VARCHARs
    without one, which accepts every length. *)
Inductive sql_type : Type :=
| INTEGER : sql_type
| REAL : sql_type
| FLOAT : sql_type
| VARCHAR : sql_type
| TEXT : sql_type.

Definition sql_type_eqb (a b : sql_type) : bool :=
  match a, b with
  | INTEGER, INTEGER | REAL, REAL | FLOAT, FLOAT
  | VARCHAR, VARCHAR | TEXT, TEXT => true
  | _, _ => false
  end.

Definition numeric (t : sql_type) : bool :=
  match t with
  | INTEGER | REAL | FLOAT => true
  | VARCHAR | TEXT => false
  end.

(** The preferred type of a category. *)
Definition preferred (t : sql_type) : bool :=
  match t with
  | FLOAT | TEXT => true
  | _ => false
  end.

(** There is an implicit cast from [a] to [b]. *)
Definition implicit_cast (a b : sql_type) : bool :=
  match a, b with
  | INTEGER, REAL | INTEGER, FLOAT | REAL, FLOAT => true
  | VARCHAR, TEXT | TEXT, VARCHAR => true
  | _, _ => false
  end.

(** The type of [COALESCE(a, b)]: the type of both when they agree;
    otherwise the two must be of one category, and the second is taken
    when the first is not preferred and converts implicitly to the second
    but not the second to the first, the first when the second converts
    to it. *)
Definition common_type (a b : sql_type) : option sql_type :=
  if sql_type_eqb a b then Some a
  else if negb (Bool.eqb (numeric a) (numeric b)) then None
  else if negb (preferred a) && implicit_cast a b && negb (implicit_cast b a)
       then Some b
  else if implicit_cast b a then Some a
  else None.

(** The type of [a + b], [a - b] and [a * b]: that of the operator on two
    INTEGERs, on two REALs, or, with any other pair of numeric types, on
    two FLOATs, the preferred type. *)
Definition arithmetic_type (a b : sql_type) : option sql_type :=
  match a, b with
  | INTEGER, INTEGER => Some INTEGER
  | REAL, REAL => Some REAL
  | _, _ => if numeric a && numeric b then Some FLOAT else None
  end.

(** [a <=> b] on two vectors is a double precision, [ts_rank] returns a
    real. *)
Definition cosine_distance_type : sql_type := FLOAT.
Definition ts_rank_type : sql_type := REAL.

(** The types of the six columns of [combined], which [SELECT * FROM
    combined] returns: the three COALESCEs of the columns of the two
    sides, [COALESCE(d.score, 0)] with [d.score] the difference
    [1 - (d.embedding <=> query_embedding)], [COALESCE(f.score, 0)] with
    [f.score] the [ts_rank], and the weighted sum, the weights being
    FLOAT parameters. *)
Definition combined_types : option (list sql_type) :=
  match common_type VARCHAR VARCHAR, common_type VARCHAR VARCHAR,
        common_type TEXT TEXT,
        arithmetic_type INTEGER cosine_distance_type with
  | Some doc_id_type, Some source_type, Some content_type, Some d_score =>
      match common_type d_score INTEGER, common_type ts_rank_type INTEGER with
      | Some dense_score_type, Some fts_score_type =>
          match arithmetic_type dense_score_type FLOAT,
                arithmetic_type fts_score_type FLOAT with
          | Some dense_part, Some fts_part =>
              match arithmetic_type dense_part fts_part with
              | Some final_score_type =>
                  Some [doc_id_type; source_type; content_type;
                        dense_score_type; fts_score_type; final_score_type]
              | None => None
              end
          | _, _ => None
          end
      | _, _ => None
      end
  | _, _, _, _ => None
  end.

(** [RETURNS TABLE (doc_id VARCHAR, source VARCHAR, content TEXT,
    dense_score FLOAT, fts_score FLOAT, final_score FLOAT)] *)
Definition returns_table : list sql_type :=
  [VARCHAR; VARCHAR; TEXT; FLOAT; FLOAT; FLOAT].

Fixpoint same_types (returned expected : list sql_type) : bool :=
  match returned, expected with
  | [], [] => true
  | r :: returned', e :: expected' =>
      sql_type_eqb r e && same_types returned' expected'
  | _, _ => false
  end.

(** [RETURN QUERY] in a function that RETURNS TABLE: when it runs the
    query, PL/pgSQL compares the types of its columns with the declared
    ones, one by one, and raises "structure of query does not match
    function result type" unless they are the same; no cast is applied.
    [None] is the error. *)
Definition return_query {A} (columns : option (list sql_type))
  (declared : list sql_type) (rows : option A) : option A :=
  match columns with
  | Some returned => if same_types returned declared then rows else None
  | None => None
  end.

Section Schema.

(** [vector(n)] of pgvector and [FLOAT] (double precision) are the
    database's; so are the operators on them and the full-text machinery. *)
Variable vector : Type.
Variable score : Type.

(** A numeric literal read as a FLOAT. *)
Variable num : Q -> score.
Variables add sub mul : score -> score -> score.
(** The order [ORDER BY] sorts FLOATs by. *)
Variable leb : score -> score -> bool.
(** [a <=> b], the cosine distance. *)
Variable cosine_distance : vector -> vector -> score.
(** [to_tsvector('english', content) @@ plainto_tsquery('english', q)] *)
Variable ts_match : string -> string -> bool.
(** [ts_rank(to_tsvector('english', content), plainto_tsquery('english', q))] *)
Variable ts_rank : string -> string -> score.

(** ** Tables *)

(** A row of [legal_documents_2026]; [content_tsvector] is generated from
    [content] and is not stored apart. *)
Record legal_document : Type := mkDocument {
  id : Z;
  doc_id : string;
  source : string;
  title : option string;
  content : string;
  embedding : option vector;
  doc_type : option string;
  jurisdiction : option string;
  year : option Z;
  category : option string;
  tags : option (list string);
  created_at : option Z;
  updated_at : option Z
}.

(** A row of [document_chunks_2026]. *)
Record document_chunk : Type := mkChunk {
  chunk_pk : Z;
  chunk_id : string;
  chunk_doc_id : option string;
  chunk_text : string;
  chunk_size : option Z;
  chunk_index : option Z;
  chunk_embedding : option vector;
  colbert_embeddings : option (list vector);
  prev_chunk_id : option string;
  next_chunk_id : option string;
  parent_section : option string;
  chunk_created_at : option Z
}.

(** A row of [knowledge_graph_2026]. *)
Record graph_entity : Type := mkEntity {
  entity_pk : Z;
  entity_id : string;
  entity_type : string;
  entity_name : string;
  entity_embedding : option vector;
  relationships : option json;
  source_doc_id : option string;
  metadata : option json;
  entity_created_at : option Z
}.

(** A row of [query_history_2026]. *)
Record query_record : Type := mkQueryRecord {
  query_pk : Z;
  query_text : string;
  query_embedding : option vector;
  top_doc_ids : option (list string);
  answer : option string;
  retrieval_time_ms : option score;
  generation_time_ms : option score;
  total_time_ms : option score;
  hallucination_score : option score;
  risk_level : option string;
  is_safe : option bool;
  feedback_score : option Z;
  feedback_comment : option string;
  query_created_at : option Z
}.

(** The four tables and the sequences behind the SERIAL keys the models
    draw from. *)
Record database : Type := mkDatabase {
  legal_documents_2026 : list legal_document;
  legal_documents_2026_id_seq : Z;
  document_chunks_2026 : list document_chunk;
  knowledge_graph_2026 : list graph_entity;
  knowledge_graph_2026_id_seq : Z;
  query_history_2026 : list query_record
}.

(** The tables as the script creates them. *)
Definition created : database := mkDatabase [] 1 [] [] 1 [].

(** ** Deleting a document *)

(** [DELETE FROM legal_documents_2026 WHERE doc_id = key]: the rows go,
    and with them, by [REFERENCES legal_documents_2026(doc_id) ON DELETE
    CASCADE], the chunks that reference them.  No other column is declared
    a reference. *)
Definition delete_document (key : string) (db : database) : database :=
  mkDatabase
    (List.filter (fun d => negb (String.eqb (doc_id d) key))
       (legal_documents_2026 db))
    (legal_documents_2026_id_seq db)
    (List.filter
       (fun c =>
          match chunk_doc_id c with
          | Some ref => negb (String.eqb ref key)
          | None => true
          end)
       (document_chunks_2026 db))
    (knowledge_graph_2026 db)
    (knowledge_graph_2026_id_seq db)
    (query_history_2026 db).

(** ** [hybrid_search_2026] *)

(** A row of [dense_results] or of [fts_results]. *)
Record candidate : Type := mkCandidate {
  c_doc_id : string;
  c_source : string;
  c_content : string;
  c_score : option score
}.

(** A row the function returns. *)
Record result_row : Type := mkRow {
  row_doc_id : option string;
  row_source : option string;
  row_content : option string;
  dense_score : score;
  fts_score : score;
  final_score : score
}.

(** [d.embedding <=> query_embedding]: NULL when the embedding is. *)
Definition distance (query_embedding : vector) (d : legal_document)
  : option score :=
  option_map (fun e => cosine_distance e query_embedding) (embedding d).

(** Ascending, NULLs last. *)
Definition asc_nulls_last (a b : option score) : bool :=
  match a, b with
  | Some x, Some y => leb x y
  | Some _, None => true
  | None, Some _ => false
  | None, None => true
  end.

(** Descending. *)
Definition desc (a b : score) : bool := leb b a.

(** The row of [dense_results] a document gives. *)
Definition dense_candidate (query_embedding : vector) (d : legal_document)
  : candidate :=
  mkCandidate (doc_id d) (source d) (content d)
    (option_map (sub (num 1)) (distance query_embedding d)).

(** The row of [fts_results] a document gives. *)
Definition fts_candidate (query : string) (d : legal_document) : candidate :=
  mkCandidate (doc_id d) (source d) (content d)
    (Some (ts_rank (content d) query)).

Definition dense_results (docs : list legal_document)
  (query_embedding : vector) (k2 : Z) : option (list candidate) :=
  limit k2
    (List.map (dense_candidate query_embedding)
       (order_by
          (fun a b =>
             asc_nulls_last (distance query_embedding a)
                            (distance query_embedding b))
          docs)).

(** [ORDER BY score DESC] over the rows of [fts_results]. *)
Definition score_desc (a b : candidate) : bool :=
  match c_score a, c_score b with
  | Some x, Some y => desc x y
  | None, _ => true
  | Some _, None => false
  end.

Definition fts_results (docs : list legal_document) (query : string) (k2 : Z)
  : option (list candidate) :=
  limit k2
    (order_by score_desc
       (List.map (fts_candidate query)
          (List.filter (fun d => ts_match (content d) query) docs))).

(** A column of a side of the join: NULL when the side is missing. *)
Definition column {A} (side : option candidate) (col : candidate -> option A)
  : option A :=
  match side with
  | Some c => col c
  | None => None
  end.

Definition combined_row (dense_weight fts_weight : score)
  (p : option candidate * option candidate) : result_row :=
  let '(d, f) := p in
  let d_score := coalesce (column d c_score) (num 0) in
  let f_score := coalesce (column f c_score) (num 0) in
  mkRow
    (coalesce2 (column d (fun c => Some (c_doc_id c)))
               (column f (fun c => Some (c_doc_id c))))
    (coalesce2 (column d (fun c => Some (c_source c)))
               (column f (fun c => Some (c_source c))))
    (coalesce2 (column d (fun c => Some (c_content c)))
               (column f (fun c => Some (c_content c))))
    d_score
    f_score
    (add (mul d_score dense_weight) (mul f_score fts_weight)).

Definition combined (dense fts : list candidate)
  (dense_weight fts_weight : score) : list result_row :=
  List.map (combined_row dense_weight fts_weight)
    (full_outer_join (fun d f => String.eqb (c_doc_id d) (c_doc_id f))
       dense fts).

(** The query of the function on the rows of [legal_documents_2026], its
    arguments not NULL; [None] when the statement raises (the doubled
    count leaves INTEGER, or a count is negative). *)
Definition hybrid_search_2026_query (docs : list legal_document)
  (query_embedding : vector) (query : string)
  (top_k : Z) (dense_weight fts_weight : score) : option (list result_row) :=
  match int4_mul top_k 2 with
  | None => None
  | Some k2 =>
      match dense_results docs query_embedding k2,
            fts_results docs query k2 with
      | Some dense, Some fts =>
          limit top_k
            (order_by (fun a b => desc (final_score a) (final_score b))
               (combined dense fts dense_weight fts_weight))
      | _, _ => None
      end
  end.

(** The function: [RETURN QUERY] of that query against the columns of
    RETURNS TABLE; [None] when the call raises. *)
Definition hybrid_search_2026 (docs : list legal_document)
  (query_embedding : vector) (query : string)
  (top_k : Z) (dense_weight fts_weight : score) : option (list result_row) :=
  return_query combined_types returns_table
    (hybrid_search_2026_query docs query_embedding query top_k
       dense_weight fts_weight).

(** A call: the arguments after [query_text] may be left out and then take
    their DEFAULTs. *)
Definition hybrid_search_2026_call (docs : list legal_document)
  (query_embedding : vector) (query : string)
  (top_k : option Z) (dense_weight fts_weight : option score)
  : option (list result_row) :=
  hybrid_search_2026 docs query_embedding query
    (coalesce top_k 10)
    (coalesce dense_weight (num (6 # 10)))
    (coalesce fts_weight (num (4 # 10))).

(** ** [insert_sample_data_2026] *)

(** The columns an [INSERT INTO legal_documents_2026] of the function
    names. *)
Record sample_document : Type := mkSample {
  s_doc_id : string;
  s_source : string;
  s_title : string;
  s_content : string;
  s_doc_type : string;
  s_jurisdiction : string;
  s_year : Z;
  s_category : string
}.

(** The columns an [INSERT INTO knowledge_graph_2026] of the function
    names. *)
Record sample_entity : Type := mkSampleEntity {
  s_entity_id : string;
  s_entity_type : string;
  s_entity_name : string;
  s_relationships : json;
  s_source_doc_id : string
}.

Definition sample_article_19 : sample_document :=
  mkSample
    "constitution_article_19"
    "Constitution of India"
    "Article 19 - Protection of certain rights regarding freedom of speech etc."
    "Article 19. Protection of certain rights regarding freedom of speech etc.
        
        (1) All citizens shall have the right—
        (a) to freedom of speech and expression;
        (b) to assemble peaceably and without arms;
        (c) to form associations or unions;
        (d) to move freely throughout the territory of India;
        (e) to reside and settle in any part of the territory of India;
        (f) [Omitted]
        (g) to practise any profession, or to carry on any occupation, trade or business.
        
        (2) Nothing in sub-clause (a) of clause (1) shall affect the operation of any existing law, or prevent the State from making any law, in so far as such law imposes reasonable restrictions on the exercise of the right conferred by the said sub-clause in the interests of the sovereignty and integrity of India, the security of the State, friendly relations with foreign States, public order, decency or morality or in relation to contempt of court, defamation or incitement to an offence."
    "constitution"
    "India"
    1950
    "fundamental_rights".

Definition sample_section_66a : sample_document :=
  mkSample
    "it_act_section_66a"
    "Information Technology Act, 2000 (Amended 2008)"
    "Section 66A - Punishment for sending offensive messages"
    "Section 66A. Punishment for sending offensive messages through communication service, etc.
        
        Any person who sends, by means of a computer resource or a communication device,—
        (a) any information that is grossly offensive or has menacing character; or
        (b) any information which he knows to be false, but for the purpose of causing annoyance, inconvenience, danger, obstruction, insult, injury, criminal intimidation, enmity, hatred or ill will, persistently by making use of such computer resource or a communication device; or
        (c) any electronic mail or electronic mail message for the purpose of causing annoyance or inconvenience or to deceive or to mislead the addressee or recipient about the origin of such messages,
        
        shall be punishable with imprisonment for a term which may extend to three years and with fine.
        
        [NOTE: This section was struck down by the Supreme Court in Shreya Singhal v. Union of India (2015) as unconstitutional]"
    "act"
    "India"
    2008
    "cyber_law".

Definition relationship (type target : string) (weight : Q) : json :=
  JObject [("type", JString type); ("target", JString target);
           ("weight", JNumber weight)].

Definition sample_entity_article_19 : sample_entity :=
  mkSampleEntity "article_19" "article" "Article 19 - Freedom of Speech"
    (JArray
       [ relationship "PROTECTS" "freedom_of_speech" 1;
         relationship "ALLOWS_RESTRICTIONS" "reasonable_restrictions" (8 # 10);
         relationship "RELATED_TO" "article_21" (6 # 10) ])
    "constitution_article_19".

Definition sample_entity_freedom_of_speech : sample_entity :=
  mkSampleEntity "freedom_of_speech" "right" "Freedom of Speech and Expression"
    (JArray
       [ relationship "GUARANTEED_BY" "article_19" 1;
         relationship "RESTRICTED_BY" "section_66a" (7 # 10);
         relationship "INCLUDES" "internet_speech" (9 # 10) ])
    "constitution_article_19".

Definition sample_entity_section_66a : sample_entity :=
  mkSampleEntity "section_66a" "restriction" "Section 66A IT Act"
    (JArray
       [ relationship "RESTRICTS" "freedom_of_speech" (9 # 10);
         relationship "STRUCK_DOWN_BY" "shreya_singhal_case" 1 ])
    "it_act_section_66a".

(** The largest value a SERIAL key takes. *)
Definition int4_max : Z := 2147483647.

(** One row of [INSERT INTO legal_documents_2026 (doc_id, source, title,
    content, doc_type, jurisdiction, year, category)]: the key comes from
    the sequence, the columns left out take their defaults, and a
    duplicate key or [doc_id] raises. *)
Definition insert_document (now : Z) (v : sample_document) (db : database)
  : option database :=
  let key := legal_documents_2026_id_seq db in
  if (int4_max <? key)
     || existsb (fun d => (id d =? key) || String.eqb (doc_id d) (s_doc_id v))
          (legal_documents_2026 db)
  then None
  else
    Some (mkDatabase
            (legal_documents_2026 db ++
               [mkDocument key (s_doc_id v) (s_source v) (Some (s_title v))
                  (s_content v) None (Some (s_doc_type v))
                  (Some (s_jurisdiction v)) (Some (s_year v))
                  (Some (s_category v)) None (Some now) (Some now)])
            (key + 1)
            (document_chunks_2026 db)
            (knowledge_graph_2026 db)
            (knowledge_graph_2026_id_seq db)
            (query_history_2026 db)).

(** One row of [INSERT INTO knowledge_graph_2026 (entity_id, entity_type,
    entity_name, relationships, source_doc_id)]. *)
Definition insert_entity (now : Z) (v : sample_entity) (db : database)
  : option database :=
  let key := knowledge_graph_2026_id_seq db in
  if (int4_max <? key)
     || existsb
          (fun e => (entity_pk e =? key)
                    || String.eqb (entity_id e) (s_entity_id v))
          (knowledge_graph_2026 db)
  then None
  else
    Some (mkDatabase
            (legal_documents_2026 db)
            (legal_documents_2026_id_seq db)
            (document_chunks_2026 db)
            (knowledge_graph_2026 db ++
               [mkEntity key (s_entity_id v) (s_entity_type v)
                  (s_entity_name v) None (Some (s_relationships v))
                  (Some (s_source_doc_id v)) None (Some now)])
            (key + 1)
            (query_history_2026 db)).

(** The function at time [now]; [None] when a statement raises, which
    undoes the whole call.  The NOTICE it ends with only prints. *)
Definition insert_sample_data_2026 (now : Z) (db : database) : option database :=
  db1 ← insert_document now sample_article_19 db;
  db2 ← insert_document now sample_section_66a db1;
  db3 ← insert_entity now sample_entity_article_19 db2;
  db4 ← insert_entity now sample_entity_freedom_of_speech db3;
  insert_entity now sample_entity_section_66a db4.

(** Whether [needle] occurs in [text]. *)
Definition mentions (needle text : string) : bool :=
  match String.index 0 needle text with
  | Some _ => true
  | None => false
  end.

(** What [insert_sample_data_2026] needs of the database it runs on: the
    keys it draws and the identifiers it inserts are not taken. *)
Definition sample_absent (db : database) : Prop :=
  legal_documents_2026_id_seq db + 1 <= int4_max /\
  knowledge_graph_2026_id_seq db + 2 <= int4_max /\
  (forall d, In d (legal_documents_2026 db) ->
     id d <> legal_documents_2026_id_seq db /\
     id d <> legal_documents_2026_id_seq db + 1 /\
     doc_id d <> "constitution_article_19" /\
     doc_id d <> "it_act_section_66a") /\
  (forall e, In e (knowledge_graph_2026 db) ->
     entity_pk e <> knowledge_graph_2026_id_seq db /\
     entity_pk e <> knowledge_graph_2026_id_seq db + 1 /\
     entity_pk e <> knowledge_graph_2026_id_seq db + 2 /\
     entity_id e <> "article_19" /\
     entity_id e <> "freedom_of_speech" /\
     entity_id e <> "section_66a").


(** ** Properties of the SQL operators *)

Lemma insert_by_Permutation {A} (before : A -> A -> bool) (x : A) (l : list A) :
  Permutation (insert_by before x l) (x :: l).
Proof.
  induction l as [|h t IH]; simpl; [reflexivity|].
  destruct (before x h); [reflexivity|].
  rewrite IH. apply perm_swap.
Qed.

Lemma order_by_Permutation {A} (before : A -> A -> bool) (l : list A) :
  Permutation (order_by before l) l.
Proof.
  induction l as [|h t IH]; simpl; [reflexivity|].
  rewrite insert_by_Permutation. constructor. exact IH.
Qed.

Lemma order_by_In {A} (before : A -> A -> bool) (l : list A) (x : A) :
  In x (order_by before l) <-> In x l.
Proof.
  split; apply Permutation_in;
    [|symmetry]; apply order_by_Permutation.
Qed.

Lemma order_by_length {A} (before : A -> A -> bool) (l : list A) :
  List.length (order_by before l) = List.length l.
Proof. apply Permutation_length, order_by_Permutation. Qed.

Section Sorted.

Context {A : Type} (before : A -> A -> bool).
Hypothesis before_total : forall a b, before a b = true \/ before b a = true.
Hypothesis before_trans :
  forall a b c, before a b = true -> before b c = true -> before a c = true.

Lemma insert_by_sorted (x : A) (l : list A) :
  StronglySorted (ordered before) l ->
  StronglySorted (ordered before) (insert_by before x l).
Proof using before_total before_trans.
  induction 1 as [|h t Hs IH Hall]; simpl.
  - constructor; constructor.
  - destruct (before x h) eqn:E.
    + constructor; [constructor; assumption|].
      constructor; [exact E|].
      rewrite List.Forall_forall in Hall |- *. intros y Hy.
      exact (before_trans _ _ _ E (Hall y Hy)).
    + constructor; [exact IH|].
      rewrite List.Forall_forall in Hall |- *. intros y Hy.
      apply (Permutation_in _ (insert_by_Permutation before x t)) in Hy.
      destruct Hy as [<- | Hy]; [|exact (Hall y Hy)].
      destruct (before_total x h) as [C | C]; [congruence | exact C].
Qed.

Lemma order_by_sorted (l : list A) :
  StronglySorted (ordered before) (order_by before l).
Proof using before_total before_trans.
  induction l as [|h t IH]; simpl; [constructor|].
  apply insert_by_sorted, IH.
Qed.

End Sorted.

Lemma In_firstn {A} (n : nat) (l : list A) (x : A) :
  In x (firstn n l) -> In x l.
Proof.
  revert n. induction l as [|h t IH]; intros [|n]; simpl; try tauto.
  intros [-> | H]; [left; reflexivity | right; eauto].
Qed.

Lemma firstn_StronglySorted {A} (R : A -> A -> Prop) (n : nat) (l : list A) :
  StronglySorted R l -> StronglySorted R (firstn n l).
Proof.
  intros H. revert n. induction H as [|h t Hs IH Hall]; intros [|n]; simpl;
    try constructor.
  - apply IH.
  - rewrite List.Forall_forall in Hall |- *. intros y Hy.
    apply Hall. eapply In_firstn; eassumption.
Qed.

Lemma limit_Some {A} (n : Z) (l r : list A) :
  limit n l = Some r -> 0 <= n /\ r = firstn (Z.to_nat n) l.
Proof.
  unfold limit. destruct (n <? 0) eqn:E; [discriminate|].
  intros [= <-]. apply Z.ltb_ge in E. split; [exact E | reflexivity].
Qed.

Lemma limit_total {A} (n : Z) (l : list A) :
  0 <= n -> limit n l = Some (firstn (Z.to_nat n) l).
Proof.
  intros H. unfold limit. destruct (n <? 0) eqn:E; [|reflexivity].
  apply Z.ltb_lt in E. lia.
Qed.

Lemma limit_length {A} (n : Z) (l r : list A) :
  limit n l = Some r -> Z.of_nat (List.length r) <= n.
Proof.
  intros H. apply limit_Some in H. destruct H as [Hn ->].
  pose proof (firstn_le_length (Z.to_nat n) l).
  rewrite length_firstn. lia.
Qed.

Lemma limit_In {A} (n : Z) (l r : list A) (x : A) :
  limit n l = Some r -> In x r -> In x l.
Proof.
  intros H. apply limit_Some in H. destruct H as [_ ->]. apply In_firstn.
Qed.

(** What a row of a full outer join is made of. *)
Lemma full_outer_join_In {A B} (on : A -> B -> bool) (l : list A) (r : list B)
  (p : option A * option B) :
  In p (full_outer_join on l r) ->
  match p with
  | (Some a, Some b) => In a l /\ In b r /\ on a b = true
  | (Some a, None) => In a l /\ forall b, In b r -> on a b = false
  | (None, Some b) => In b r /\ forall a, In a l -> on a b = false
  | (None, None) => False
  end.
Proof.
  unfold full_outer_join. rewrite in_app_iff, in_flat_map, in_map_iff.
  intros [[a [Ha Hp]] | [b [<- Hb]]].
  - destruct (List.filter (on a) r) as [|m ms] eqn:E.
    + destruct Hp as [<- | []]. split; [exact Ha|].
      intros b Hb. destruct (on a b) eqn:Eb; [|reflexivity].
      assert (In b (List.filter (on a) r)) by (apply filter_In; auto).
      rewrite E in H. destruct H.
    + rewrite <- E in Hp. apply in_map_iff in Hp.
      destruct Hp as [b [<- Hb]]. apply filter_In in Hb.
      destruct Hb as [Hb Eb]. auto.
  - apply filter_In in Hb. destruct Hb as [Hb Hnone]. split; [exact Hb|].
    intros a Ha. destruct (on a b) eqn:Eb; [|reflexivity].
    apply negb_true_iff in Hnone.
    assert (existsb (fun a => on a b) l = true)
      by (apply existsb_exists; eauto).
    congruence.
Qed.

(** Every left row and every right row is in some row of the join. *)
Lemma full_outer_join_left {A B} (on : A -> B -> bool) (l : list A) (r : list B)
  (a : A) :
  In a l -> exists ob, In (Some a, ob) (full_outer_join on l r).
Proof.
  intros Ha. unfold full_outer_join.
  destruct (List.filter (on a) r) as [|m ms] eqn:E.
  - exists None. apply in_app_iff. left. apply in_flat_map.
    exists a. split; [exact Ha|]. rewrite E. left. reflexivity.
  - exists (Some m). apply in_app_iff. left. apply in_flat_map.
    exists a. split; [exact Ha|]. rewrite E. left. reflexivity.
Qed.

Lemma full_outer_join_right {A B} (on : A -> B -> bool) (l : list A) (r : list B)
  (b : B) :
  In b r -> exists oa, In (oa, Some b) (full_outer_join on l r).
Proof.
  intros Hb. unfold full_outer_join.
  destruct (existsb (fun a => on a b) l) eqn:E.
  - apply existsb_exists in E. destruct E as [a [Ha Eab]].
    exists (Some a). apply in_app_iff. left. apply in_flat_map.
    exists a. split; [exact Ha|].
    assert (Hin : In b (List.filter (on a) r)) by (apply filter_In; auto).
    destruct (List.filter (on a) r) as [|m ms] eqn:Ef; [destruct Hin|].
    rewrite <- Ef. apply in_map_iff. exists b. rewrite Ef. auto.
  - exists None. apply in_app_iff. right. apply in_map_iff.
    exists b. split; [reflexivity|]. apply filter_In.
    split; [exact Hb|]. rewrite E. reflexivity.
Qed.

(** ** Deleting a document: the cascade and its frame *)

Lemma filter_length_split {A} (f : A -> bool) (l : list A) :
  (List.length (List.filter f l)
   + List.length (List.filter (fun a => negb (f a)) l))%nat
  = List.length l.
Proof.
  induction l as [|a l IH]; simpl; [reflexivity|].
  destruct (f a); simpl; lia.
Qed.

(** C5: deleting the document [key] removes the document rows with that
    [doc_id] and exactly the chunks whose [doc_id] references it; every
    other document and every chunk of another document (or of none) stays
    as it is, and so do the knowledge graph, the query history and the
    sequences. *)
Theorem delete_document_cascades (key : string) (db : database) :
  let db' := delete_document key db in
  (forall d, In d (legal_documents_2026 db') <->
             In d (legal_documents_2026 db) /\ doc_id d <> key) /\
  (forall c, In c (document_chunks_2026 db') <->
             In c (document_chunks_2026 db) /\ chunk_doc_id c <> Some key) /\
  (List.length (legal_documents_2026 db')
   + List.length
       (List.filter (fun d => String.eqb (doc_id d) key)
          (legal_documents_2026 db)))%nat
  = List.length (legal_documents_2026 db) /\
  (List.length (document_chunks_2026 db')
   + List.length
       (List.filter
          (fun c => match chunk_doc_id c with
                    | Some ref => String.eqb ref key
                    | None => false
                    end)
          (document_chunks_2026 db)))%nat
  = List.length (document_chunks_2026 db) /\
  knowledge_graph_2026 db' = knowledge_graph_2026 db /\
  query_history_2026 db' = query_history_2026 db /\
  legal_documents_2026_id_seq db' = legal_documents_2026_id_seq db /\
  knowledge_graph_2026_id_seq db' = knowledge_graph_2026_id_seq db.
Proof.
  cbv zeta. unfold delete_document. cbn [legal_documents_2026
    document_chunks_2026 knowledge_graph_2026 query_history_2026
    legal_documents_2026_id_seq knowledge_graph_2026_id_seq].
  split; [|split; [|split; [|split]]].
  - intros d. rewrite filter_In, negb_true_iff, String.eqb_neq. reflexivity.
  - intros c. rewrite filter_In.
    destruct (chunk_doc_id c) as [ref|].
    + rewrite negb_true_iff, String.eqb_neq.
      split; intros [Hc Hk]; (split; [exact Hc | congruence]).
    + split; intros [Hc Hk]; (split; [exact Hc | congruence]).
  - rewrite Nat.add_comm.
    apply (filter_length_split (fun d => String.eqb (doc_id d) key)).
  - rewrite Nat.add_comm.
    rewrite <- (filter_length_split
                  (fun c => match chunk_doc_id c with
                            | Some ref => String.eqb ref key
                            | None => false
                            end)
                  (document_chunks_2026 db)).
    f_equal. f_equal. apply filter_ext. intros c.
    destruct (chunk_doc_id c); reflexivity.
  - auto.
Qed.

(** Under the UNIQUE constraint on [doc_id] the delete removes one row. *)
Lemma unique_key_filter (key : string) (docs : list legal_document) :
  List.NoDup (List.map doc_id docs) ->
  (exists d, In d docs /\ doc_id d = key) ->
  List.length (List.filter (fun d => String.eqb (doc_id d) key) docs) = 1%nat.
Proof.
  induction docs as [|h t IH]; intros Hnd [d [Hd Hk]]; [destruct Hd|].
  simpl in Hnd. inversion Hnd as [|? ? Hnot Hnd']; subst.
  simpl. destruct (String.eqb (doc_id h) (doc_id d)) eqn:E.
  - apply String.eqb_eq in E. simpl. f_equal.
    destruct (List.filter (fun d0 => String.eqb (doc_id d0) (doc_id d)) t)
      as [|x xs] eqn:F; [reflexivity|].
    exfalso. apply Hnot.
    assert (Hx : In x (List.filter
                         (fun d0 => String.eqb (doc_id d0) (doc_id d)) t))
      by (rewrite F; left; reflexivity).
    apply filter_In in Hx. destruct Hx as [Hx Ex].
    apply String.eqb_eq in Ex. rewrite E, <- Ex. apply in_map. exact Hx.
  - destruct Hd as [-> | Hd].
    + rewrite String.eqb_refl in E. discriminate.
    + apply IH; [exact Hnd' | eauto].
Qed.

(** Referential integrity survives the delete: a chunk that is left
    references a document that is left. *)
Lemma delete_document_keeps_references (key : string) (db : database) :
  (forall c ref, In c (document_chunks_2026 db) -> chunk_doc_id c = Some ref ->
     exists d, In d (legal_documents_2026 db) /\ doc_id d = ref) ->
  forall c ref,
    In c (document_chunks_2026 (delete_document key db)) ->
    chunk_doc_id c = Some ref ->
    exists d, In d (legal_documents_2026 (delete_document key db))
              /\ doc_id d = ref.
Proof.
  intros FK c ref Hc Href. simpl in *.
  apply filter_In in Hc. destruct Hc as [Hc Hkeep].
  rewrite Href in Hkeep.
  destruct (FK c ref Hc Href) as [d [Hd <-]].
  exists d. split; [|reflexivity]. apply filter_In. auto.
Qed.

(** ** The sample data *)

Lemma insert_document_Some (now : Z) (v : sample_document) (db : database) :
  legal_documents_2026_id_seq db <= int4_max ->
  (forall d, In d (legal_documents_2026 db) ->
     id d <> legal_documents_2026_id_seq db /\ doc_id d <> s_doc_id v) ->
  insert_document now v db
  = Some (mkDatabase
            (legal_documents_2026 db ++
               [mkDocument (legal_documents_2026_id_seq db) (s_doc_id v)
                  (s_source v) (Some (s_title v)) (s_content v) None
                  (Some (s_doc_type v)) (Some (s_jurisdiction v))
                  (Some (s_year v)) (Some (s_category v)) None
                  (Some now) (Some now)])
            (legal_documents_2026_id_seq db + 1)
            (document_chunks_2026 db)
            (knowledge_graph_2026 db)
            (knowledge_graph_2026_id_seq db)
            (query_history_2026 db)).
Proof.
  intros Hmax Hfresh. unfold insert_document.
  assert (E1 : (int4_max <? legal_documents_2026_id_seq db) = false)
    by (apply Z.ltb_ge; exact Hmax).
  assert (E2 : existsb
                 (fun d => (id d =? legal_documents_2026_id_seq db)
                           || String.eqb (doc_id d) (s_doc_id v))
                 (legal_documents_2026 db) = false).
  { destruct (existsb _ _) eqn:E; [|reflexivity].
    apply existsb_exists in E. destruct E as [d [Hd E]].
    destruct (Hfresh d Hd) as [N1 N2].
    apply orb_true_iff in E. destruct E as [E | E].
    - apply Z.eqb_eq in E. contradiction.
    - apply String.eqb_eq in E. contradiction. }
  rewrite E1, E2. reflexivity.
Qed.

Lemma insert_entity_Some (now : Z) (v : sample_entity) (db : database) :
  knowledge_graph_2026_id_seq db <= int4_max ->
  (forall e, In e (knowledge_graph_2026 db) ->
     entity_pk e <> knowledge_graph_2026_id_seq db
     /\ entity_id e <> s_entity_id v) ->
  insert_entity now v db
  = Some (mkDatabase
            (legal_documents_2026 db)
            (legal_documents_2026_id_seq db)
            (document_chunks_2026 db)
            (knowledge_graph_2026 db ++
               [mkEntity (knowledge_graph_2026_id_seq db) (s_entity_id v)
                  (s_entity_type v) (s_entity_name v) None
                  (Some (s_relationships v)) (Some (s_source_doc_id v))
                  None (Some now)])
            (knowledge_graph_2026_id_seq db + 1)
            (query_history_2026 db)).
Proof.
  intros Hmax Hfresh. unfold insert_entity.
  assert (E1 : (int4_max <? knowledge_graph_2026_id_seq db) = false)
    by (apply Z.ltb_ge; exact Hmax).
  assert (E2 : existsb
                 (fun e => (entity_pk e =? knowledge_graph_2026_id_seq db)
                           || String.eqb (entity_id e) (s_entity_id v))
                 (knowledge_graph_2026 db) = false).
  { destruct (existsb _ _) eqn:E; [|reflexivity].
    apply existsb_exists in E. destruct E as [e [He E]].
    destruct (Hfresh e He) as [N1 N2].
    apply orb_true_iff in E. destruct E as [E | E].
    - apply Z.eqb_eq in E. contradiction.
    - apply String.eqb_eq in E. contradiction. }
  rewrite E1, E2. reflexivity.
Qed.

(** C6: on a database where the keys and identifiers are free, the
    loader succeeds and inserts exactly two documents,
    [constitution_article_19] and [it_act_section_66a], neither of which
    mentions Section 302, and exactly three graph entities, the last of
    which, [section_66a], is STRUCK_DOWN_BY [shreya_singhal_case] with
    weight 1.0; chunks and query history are as before. *)
Theorem insert_sample_data_2026_inserts (now : Z) (db : database) :
  sample_absent db ->
  exists db' d1 d2 e1 e2 e3,
    insert_sample_data_2026 now db = Some db' /\
    legal_documents_2026 db' = (legal_documents_2026 db ++ [d1; d2])%list /\
    doc_id d1 = "constitution_article_19" /\
    doc_id d2 = "it_act_section_66a" /\
    (forall d, In d [d1; d2] ->
       mentions "302" (doc_id d) = false /\
       mentions "302" (source d) = false /\
       option_map (mentions "302") (title d) = Some false /\
       mentions "302" (content d) = false) /\
    knowledge_graph_2026 db'
    = (knowledge_graph_2026 db ++ [e1; e2; e3])%list /\
    entity_id e1 = "article_19" /\
    entity_id e2 = "freedom_of_speech" /\
    entity_id e3 = "section_66a" /\
    (exists others,
       relationships e3
       = Some (JArray
                 (others ++
                  [JObject [("type", JString "STRUCK_DOWN_BY");
                            ("target", JString "shreya_singhal_case");
                            ("weight", JNumber 1)]])%list)) /\
    document_chunks_2026 db' = document_chunks_2026 db /\
    query_history_2026 db' = query_history_2026 db.
Proof.
  intros (Hdmax & Hemax & Hdocs & Hents). unfold int4_max in *.
  unfold insert_sample_data_2026.
  rewrite insert_document_Some; cycle 1.
  { unfold int4_max. lia. }
  { intros d Hd. destruct (Hdocs d Hd) as (A & _ & B & _). auto. }
  cbn [mbind option_bind].
  rewrite insert_document_Some; cycle 1.
  { cbn. unfold int4_max. lia. }
  { cbn. intros d Hd. apply in_app_iff in Hd.
    destruct Hd as [Hd | [<- | []]].
    - destruct (Hdocs d Hd) as (_ & A & _ & B). auto.
    - cbn. split; [lia | discriminate]. }
  cbn [mbind option_bind].
  rewrite insert_entity_Some; cycle 1.
  { cbn. unfold int4_max. lia. }
  { cbn. intros e He. destruct (Hents e He) as (A & _ & _ & B & _). auto. }
  cbn [mbind option_bind].
  rewrite insert_entity_Some; cycle 1.
  { cbn. unfold int4_max. lia. }
  { cbn. intros e He. apply in_app_iff in He.
    destruct He as [He | [<- | []]].
    - destruct (Hents e He) as (_ & A & _ & _ & B & _). auto.
    - cbn. split; [lia | discriminate]. }
  cbn [mbind option_bind].
  rewrite insert_entity_Some; cycle 1.
  { cbn. unfold int4_max. lia. }
  { cbn. intros e He. rewrite <- app_assoc in He. apply in_app_iff in He.
    destruct He as [He | [<- | [<- | []]]].
    - destruct (Hents e He) as (_ & _ & A & _ & _ & B).
      split; [lia | exact B].
    - cbn. split; [lia | discriminate].
    - cbn. split; [lia | discriminate]. }
  cbn [legal_documents_2026 legal_documents_2026_id_seq document_chunks_2026
       knowledge_graph_2026 knowledge_graph_2026_id_seq query_history_2026].
  do 6 eexists.
  split; [reflexivity|].
  split; [rewrite <- app_assoc; reflexivity|].
  split; [reflexivity|]. split; [reflexivity|].
  split.
  { intros d [<- | [<- | []]]; cbn [doc_id source title content option_map];
      repeat split; vm_compute; reflexivity. }
  split; [rewrite <- !app_assoc; reflexivity|].
  split; [reflexivity|]. split; [reflexivity|]. split; [reflexivity|].
  split.
  { eexists [_]. reflexivity. }
  split; reflexivity.
Qed.

(** ** Properties of [hybrid_search_2026] *)

(** The types of the columns the query returns: the fifth,
    [COALESCE(f.score, 0)], is a REAL as [ts_rank] is. *)
Lemma combined_types_value :
  combined_types = Some [VARCHAR; VARCHAR; TEXT; FLOAT; REAL; FLOAT].
Proof. reflexivity. Qed.

(** [RETURN QUERY] raises whatever the query yields. *)
Lemma return_query_raises {A} (rows : option A) :
  return_query combined_types returns_table rows = None.
Proof. reflexivity. Qed.

(** What the query yields is cut from [combined]. *)
Lemma hybrid_search_2026_query_Some (docs : list legal_document) (qe : vector)
  (q : string) (top_k : Z) (dw fw : score) (rows : list result_row) :
  hybrid_search_2026_query docs qe q top_k dw fw = Some rows ->
  exists dense fts,
    dense_results docs qe (top_k * 2) = Some dense /\
    fts_results docs q (top_k * 2) = Some fts /\
    limit top_k
      (order_by (fun a b => desc (final_score a) (final_score b))
         (combined dense fts dw fw)) = Some rows.
Proof.
  unfold hybrid_search_2026_query, int4_mul.
  destruct (_ && _); [|discriminate].
  destruct (dense_results docs qe (top_k * 2)) as [dense|]; [|discriminate].
  destruct (fts_results docs q (top_k * 2)) as [fts|]; [|discriminate].
  intros H. exists dense, fts. auto.
Qed.

(** The query does yield rows when [top_k] and its double are counts. *)
Lemma hybrid_search_2026_query_total (docs : list legal_document) (qe : vector)
  (q : string) (top_k : Z) (dw fw : score) :
  0 <= top_k <= 1073741823 ->
  exists rows, hybrid_search_2026_query docs qe q top_k dw fw = Some rows.
Proof.
  intros Hk. unfold hybrid_search_2026_query, int4_mul.
  assert (E : (- 2147483648 <=? top_k * 2) && (top_k * 2 <=? 2147483647)
              = true)
    by (apply andb_true_iff; split; apply Z.leb_le; lia).
  rewrite E. unfold dense_results, fts_results.
  rewrite !limit_total by lia. eauto.
Qed.

Lemma hybrid_search_2026_In_combined (dense fts : list candidate)
  (top_k : Z) (dw fw : score) (rows : list result_row) (r : result_row) :
  limit top_k
    (order_by (fun a b => desc (final_score a) (final_score b))
       (combined dense fts dw fw)) = Some rows ->
  In r rows ->
  exists p,
    In p (full_outer_join (fun d f => String.eqb (c_doc_id d) (c_doc_id f))
            dense fts)
    /\ r = combined_row dw fw p.
Proof.
  intros H Hr. apply (limit_In _ _ _ _ H), order_by_In in Hr.
  unfold combined in Hr. apply in_map_iff in Hr.
  destruct Hr as [p [<- Hp]]. exists p. auto.
Qed.

(** The weighting of every row of [combined]. *)
Lemma combined_row_final (dw fw : score)
  (p : option candidate * option candidate) :
  final_score (combined_row dw fw p)
  = add (mul (dense_score (combined_row dw fw p)) dw)
        (mul (fts_score (combined_row dw fw p)) fw).
Proof. destruct p as [d f]. reflexivity. Qed.

(** The rows the query yields weight their two scores. *)
Lemma hybrid_search_2026_query_weights (docs : list legal_document)
  (qe : vector) (q : string) (top_k : Z) (dw fw : score)
  (rows : list result_row) (r : result_row) :
  hybrid_search_2026_query docs qe q top_k dw fw = Some rows -> In r rows ->
  final_score r = add (mul (dense_score r) dw) (mul (fts_score r) fw).
Proof.
  intros H Hr.
  destruct (hybrid_search_2026_query_Some _ _ _ _ _ _ _ H)
    as (dense & fts & _ & _ & Hrows).
  destruct (hybrid_search_2026_In_combined _ _ _ _ _ _ _ Hrows Hr)
    as (p & _ & ->).
  apply combined_row_final.
Qed.

(** The order of FLOATs is total and transitive. *)
Hypothesis leb_total : forall a b, leb a b = true \/ leb b a = true.
Hypothesis leb_trans :
  forall a b c, leb a b = true -> leb b c = true -> leb a c = true.

(** The rows the query yields are at most [top_k], best first. *)
Lemma hybrid_search_2026_query_sorted (docs : list legal_document)
  (qe : vector) (q : string) (top_k : Z) (dw fw : score)
  (rows : list result_row) :
  hybrid_search_2026_query docs qe q top_k dw fw = Some rows ->
  Z.of_nat (List.length rows) <= top_k /\
  StronglySorted (fun a b => leb (final_score b) (final_score a) = true) rows.
Proof using leb_total leb_trans.
  intros H.
  destruct (hybrid_search_2026_query_Some _ _ _ _ _ _ _ H)
    as (dense & fts & _ & _ & Hrows).
  split; [eapply limit_length; eassumption|].
  apply limit_Some in Hrows. destruct Hrows as [_ ->].
  apply firstn_StronglySorted.
  apply (order_by_sorted
           (fun a b => desc (final_score a) (final_score b))).
  - intros a b. unfold desc. apply leb_total.
  - intros a b c Hab Hbc. unfold desc in *. eapply leb_trans; eassumption.
Qed.

(** C1, a defect of the code: no call returns a row.  The query of the
    function does yield rows (whenever top_k and its double are counts)
    and weights the two scores of each of them, but its fifth column,
    [COALESCE(f.score, 0)], is a REAL, as [ts_rank] is, where RETURNS
    TABLE declares [fts_score FLOAT]; so RETURN QUERY raises for every
    table and for all arguments, and the rows are never returned. *)
Theorem hybrid_search_2026_raises_on_every_call (docs : list legal_document)
  (qe : vector) (q : string) (top_k : Z) (dw fw : score) :
  hybrid_search_2026 docs qe q top_k dw fw = None /\
  nth_error returns_table 4 = Some FLOAT /\
  option_map (fun returned => nth_error returned 4) combined_types
  = Some (Some REAL) /\
  (0 <= top_k <= 1073741823 ->
   exists rows, hybrid_search_2026_query docs qe q top_k dw fw = Some rows) /\
  forall rows r,
    hybrid_search_2026_query docs qe q top_k dw fw = Some rows -> In r rows ->
    final_score r = add (mul (dense_score r) dw) (mul (fts_score r) fw).
Proof.
  split; [apply return_query_raises|].
  split; [reflexivity|]. split; [reflexivity|].
  split; [apply hybrid_search_2026_query_total|].
  intros rows r. apply hybrid_search_2026_query_weights.
Qed.

(** C3, a defect of the code: a call with top_k > 0 raises, so it returns
    no list of at most top_k rows; this although the query of the
    function, when top_k * 2 is an INTEGER, yields at most top_k rows in
    descending order of final_score. *)
Theorem hybrid_search_2026_top_k_raises (docs : list legal_document)
  (qe : vector) (q : string) (top_k : Z) (dw fw : score) :
  0 < top_k ->
  hybrid_search_2026 docs qe q top_k dw fw = None /\
  (top_k <= 1073741823 ->
   exists rows,
     hybrid_search_2026_query docs qe q top_k dw fw = Some rows /\
     Z.of_nat (List.length rows) <= top_k /\
     StronglySorted
       (fun a b => leb (final_score b) (final_score a) = true) rows).
Proof using leb_total leb_trans.
  intros Hpos. split; [apply return_query_raises|].
  intros Hmax.
  destruct (hybrid_search_2026_query_total docs qe q top_k dw fw
              ltac:(lia)) as [rows E].
  exists rows. split; [exact E|].
  exact (hybrid_search_2026_query_sorted _ _ _ _ _ _ _ E).
Qed.

(** C7, a defect of the code: the weights left out take the DEFAULTs 0.6
    and 0.4 (and top_k left out takes 10); the query such a call runs
    yields rows and weights the two scores of each with 0.6 and 0.4; but
    the call raises as every call does, so nothing is combined for the
    caller. *)
Theorem hybrid_search_2026_default_weights_raise (docs : list legal_document)
  (qe : vector) (q : string) (top_k : option Z) :
  hybrid_search_2026_call docs qe q top_k None None = None /\
  hybrid_search_2026_call docs qe q top_k None None
  = return_query combined_types returns_table
      (hybrid_search_2026_query docs qe q (coalesce top_k 10)
         (num (6 # 10)) (num (4 # 10))) /\
  (exists rows,
     hybrid_search_2026_query docs qe q (coalesce None 10)
       (num (6 # 10)) (num (4 # 10)) = Some rows) /\
  forall rows r,
    hybrid_search_2026_query docs qe q (coalesce top_k 10)
      (num (6 # 10)) (num (4 # 10)) = Some rows ->
    In r rows ->
    final_score r
    = add (mul (dense_score r) (num (6 # 10)))
          (mul (fts_score r) (num (4 # 10))).
Proof.
  split; [apply return_query_raises|]. split; [reflexivity|].
  split; [apply hybrid_search_2026_query_total; cbn; lia|].
  intros rows r. apply hybrid_search_2026_query_weights.
Qed.
(** ** The constraints of the schema, and what deleting and loading do to
    them *)

(** PRIMARY KEY and UNIQUE of [legal_documents_2026] and
    [knowledge_graph_2026]. *)
Definition keys_unique (db : database) : Prop :=
  List.NoDup (List.map doc_id (legal_documents_2026 db)) /\
  List.NoDup (List.map id (legal_documents_2026 db)) /\
  List.NoDup (List.map entity_id (knowledge_graph_2026 db)) /\
  List.NoDup (List.map entity_pk (knowledge_graph_2026 db)).

(** [document_chunks_2026.doc_id REFERENCES legal_documents_2026(doc_id)]:
    a chunk that names a document names one that exists. *)
Definition references_hold (db : database) : Prop :=
  forall c ref,
    In c (document_chunks_2026 db) -> chunk_doc_id c = Some ref ->
    exists d, In d (legal_documents_2026 db) /\ doc_id d = ref.

Lemma NoDup_map_filter {A B} (k : A -> B) (p : A -> bool) (l : list A) :
  List.NoDup (List.map k l) -> List.NoDup (List.map k (List.filter p l)).
Proof.
  induction l as [|a l IH]; simpl; intros H; [constructor|].
  inversion H as [|? ? Hnot Hl]; subst.
  destruct (p a); simpl; [|exact (IH Hl)].
  constructor; [|exact (IH Hl)].
  intros Hin. apply Hnot. apply in_map_iff in Hin.
  destruct Hin as [x [E Hx]]. apply filter_In in Hx. destruct Hx as [Hx _].
  rewrite <- E. apply in_map. exact Hx.
Qed.

Lemma filter_filter_comm {A} (f g : A -> bool) (l : list A) :
  List.filter f (List.filter g l) = List.filter g (List.filter f l).
Proof.
  induction l as [|a l IH]; simpl; [reflexivity|].
  destruct (f a) eqn:Ef, (g a) eqn:Eg; simpl; rewrite ?Ef, ?Eg, IH;
    reflexivity.
Qed.

Lemma filter_filter_same {A} (f : A -> bool) (l : list A) :
  List.filter f (List.filter f l) = List.filter f l.
Proof.
  induction l as [|a l IH]; simpl; [reflexivity|].
  destruct (f a) eqn:Ef; simpl; rewrite ?Ef, IH; reflexivity.
Qed.

Lemma filter_all {A} (p : A -> bool) (l : list A) :
  (forall x, In x l -> p x = true) -> List.filter p l = l.
Proof.
  induction l as [|a l IH]; intros H; simpl; [reflexivity|].
  rewrite (H a (or_introl eq_refl)). f_equal. apply IH.
  intros x Hx. apply H. right. exact Hx.
Qed.

Lemma existsb_false {A} (p : A -> bool) (l : list A) (x : A) :
  existsb p l = false -> In x l -> p x = false.
Proof.
  intros H Hx. destruct (p x) eqn:E; [|reflexivity].
  assert (existsb p l = true) by (apply existsb_exists; eauto).
  congruence.
Qed.

(** Deleting twice is deleting once, and two deletes commute. *)
Theorem delete_document_idempotent_commutes (a b : string) (db : database) :
  delete_document a (delete_document a db) = delete_document a db /\
  delete_document a (delete_document b db)
  = delete_document b (delete_document a db).
Proof.
  unfold delete_document.
  cbn [legal_documents_2026 document_chunks_2026 knowledge_graph_2026
       query_history_2026 legal_documents_2026_id_seq
       knowledge_graph_2026_id_seq].
  split.
  - rewrite !filter_filter_same. reflexivity.
  - f_equal; apply filter_filter_comm.
Qed.

(** A delete keeps the keys unique and leaves no chunk without its
    document. *)
Theorem delete_document_keeps_constraints (key : string) (db : database) :
  keys_unique db -> references_hold db ->
  keys_unique (delete_document key db)
  /\ references_hold (delete_document key db).
Proof.
  intros (U1 & U2 & U3 & U4) FK. split.
  - unfold keys_unique, delete_document.
    cbn [legal_documents_2026 knowledge_graph_2026].
    split; [apply NoDup_map_filter; exact U1|].
    split; [apply NoDup_map_filter; exact U2|].
    split; assumption.
  - unfold references_hold. intros c ref Hc Href.
    exact (delete_document_keeps_references key db FK c ref Hc Href).
Qed.

(** What a successful insert says of the table it ran on. *)
Lemma insert_document_inv (now : Z) (v : sample_document) (db db' : database) :
  insert_document now v db = Some db' ->
  legal_documents_2026_id_seq db <= int4_max /\
  (forall d, In d (legal_documents_2026 db) ->
     id d <> legal_documents_2026_id_seq db /\ doc_id d <> s_doc_id v) /\
  insert_document now v db
  = Some (mkDatabase
            (legal_documents_2026 db ++
               [mkDocument (legal_documents_2026_id_seq db) (s_doc_id v)
                  (s_source v) (Some (s_title v)) (s_content v) None
                  (Some (s_doc_type v)) (Some (s_jurisdiction v))
                  (Some (s_year v)) (Some (s_category v)) None
                  (Some now) (Some now)])
            (legal_documents_2026_id_seq db + 1)
            (document_chunks_2026 db)
            (knowledge_graph_2026 db)
            (knowledge_graph_2026_id_seq db)
            (query_history_2026 db)).
Proof.
  intros H.
  assert (Hmax : legal_documents_2026_id_seq db <= int4_max).
  { unfold insert_document in H.
    destruct (int4_max <? legal_documents_2026_id_seq db) eqn:E;
      [discriminate|]. apply Z.ltb_ge in E. exact E. }
  assert (Hfresh : forall d, In d (legal_documents_2026 db) ->
            id d <> legal_documents_2026_id_seq db /\ doc_id d <> s_doc_id v).
  { intros d Hd. unfold insert_document in H.
    destruct (int4_max <? legal_documents_2026_id_seq db); [discriminate|].
    cbn [orb] in H.
    destruct (existsb _ (legal_documents_2026 db)) eqn:E; [discriminate|].
    pose proof (existsb_false _ _ d E Hd) as F. cbn beta in F.
    apply orb_false_iff in F. destruct F as [F1 F2].
    apply Z.eqb_neq in F1. apply String.eqb_neq in F2. split; assumption. }
  split; [exact Hmax|]. split; [exact Hfresh|].
  apply insert_document_Some; assumption.
Qed.

Lemma insert_entity_inv (now : Z) (v : sample_entity) (db db' : database) :
  insert_entity now v db = Some db' ->
  knowledge_graph_2026_id_seq db <= int4_max /\
  (forall e, In e (knowledge_graph_2026 db) ->
     entity_pk e <> knowledge_graph_2026_id_seq db
     /\ entity_id e <> s_entity_id v) /\
  insert_entity now v db
  = Some (mkDatabase
            (legal_documents_2026 db)
            (legal_documents_2026_id_seq db)
            (document_chunks_2026 db)
            (knowledge_graph_2026 db ++
               [mkEntity (knowledge_graph_2026_id_seq db) (s_entity_id v)
                  (s_entity_type v) (s_entity_name v) None
                  (Some (s_relationships v)) (Some (s_source_doc_id v))
                  None (Some now)])
            (knowledge_graph_2026_id_seq db + 1)
            (query_history_2026 db)).
Proof.
  intros H.
  assert (Hmax : knowledge_graph_2026_id_seq db <= int4_max).
  { unfold insert_entity in H.
    destruct (int4_max <? knowledge_graph_2026_id_seq db) eqn:E;
      [discriminate|]. apply Z.ltb_ge in E. exact E. }
  assert (Hfresh : forall e, In e (knowledge_graph_2026 db) ->
            entity_pk e <> knowledge_graph_2026_id_seq db
            /\ entity_id e <> s_entity_id v).
  { intros e He. unfold insert_entity in H.
    destruct (int4_max <? knowledge_graph_2026_id_seq db); [discriminate|].
    cbn [orb] in H.
    destruct (existsb _ (knowledge_graph_2026 db)) eqn:E; [discriminate|].
    pose proof (existsb_false _ _ e E He) as F. cbn beta in F.
    apply orb_false_iff in F. destruct F as [F1 F2].
    apply Z.eqb_neq in F1. apply String.eqb_neq in F2. split; assumption. }
  split; [exact Hmax|]. split; [exact Hfresh|].
  apply insert_entity_Some; assumption.
Qed.

(** The database the loader leaves, when it succeeds. *)
Definition loaded (now : Z) (db : database) : database :=
  let k := legal_documents_2026_id_seq db in
  let g := knowledge_graph_2026_id_seq db in
  let doc key v :=
    mkDocument key (s_doc_id v) (s_source v) (Some (s_title v)) (s_content v)
      None (Some (s_doc_type v)) (Some (s_jurisdiction v)) (Some (s_year v))
      (Some (s_category v)) None (Some now) (Some now) in
  let entity key v :=
    mkEntity key (s_entity_id v) (s_entity_type v) (s_entity_name v) None
      (Some (s_relationships v)) (Some (s_source_doc_id v)) None (Some now) in
  mkDatabase
    (legal_documents_2026 db
     ++ [doc k sample_article_19; doc (k + 1) sample_section_66a])%list
    (k + 2)
    (document_chunks_2026 db)
    (knowledge_graph_2026 db
     ++ [entity g sample_entity_article_19;
         entity (g + 1) sample_entity_freedom_of_speech;
         entity (g + 2) sample_entity_section_66a])%list
    (g + 3)
    (query_history_2026 db).

(** The loader succeeds only where its keys and identifiers are free, and
    then leaves [loaded]. *)
Lemma insert_sample_data_2026_inv (now : Z) (db db' : database) :
  insert_sample_data_2026 now db = Some db' ->
  sample_absent db /\ db' = loaded now db.
Proof.
  unfold insert_sample_data_2026. intros H.
  destruct (insert_document now sample_article_19 db) as [db1|] eqn:E1;
    [|discriminate].
  cbn [mbind option_bind] in H.
  destruct (insert_document_inv _ _ _ _ E1) as (M1 & F1 & R1).
  rewrite R1 in E1. injection E1 as <-.
  destruct (insert_document now sample_section_66a _) as [db2|] eqn:E2;
    [|discriminate].
  cbn [mbind option_bind] in H.
  destruct (insert_document_inv _ _ _ _ E2) as (M2 & F2 & R2).
  rewrite R2 in E2. injection E2 as <-.
  cbn [legal_documents_2026 legal_documents_2026_id_seq document_chunks_2026
       knowledge_graph_2026 knowledge_graph_2026_id_seq query_history_2026]
    in *.
  destruct (insert_entity now sample_entity_article_19 _) as [db3|] eqn:E3;
    [|discriminate].
  cbn [mbind option_bind] in H.
  destruct (insert_entity_inv _ _ _ _ E3) as (M3 & F3 & R3).
  rewrite R3 in E3. injection E3 as <-.
  cbn [legal_documents_2026 legal_documents_2026_id_seq document_chunks_2026
       knowledge_graph_2026 knowledge_graph_2026_id_seq query_history_2026]
    in *.
  destruct (insert_entity now sample_entity_freedom_of_speech _)
    as [db4|] eqn:E4; [|discriminate].
  cbn [mbind option_bind] in H.
  destruct (insert_entity_inv _ _ _ _ E4) as (M4 & F4 & R4).
  rewrite R4 in E4. injection E4 as <-.
  cbn [legal_documents_2026 legal_documents_2026_id_seq document_chunks_2026
       knowledge_graph_2026 knowledge_graph_2026_id_seq query_history_2026]
    in *.
  destruct (insert_entity_inv _ _ _ _ H) as (M5 & F5 & R5).
  rewrite R5 in H. injection H as <-.
  cbn [legal_documents_2026 legal_documents_2026_id_seq document_chunks_2026
       knowledge_graph_2026 knowledge_graph_2026_id_seq query_history_2026]
    in *.
  split.
  - unfold sample_absent. unfold int4_max in *.
    split; [lia|]. split; [lia|]. split.
    + intros d Hd.
      destruct (F1 d Hd) as [A1 B1].
      destruct (F2 d (proj2 (in_app_iff _ _ _) (or_introl Hd))) as [A2 B2].
      auto.
    + intros e He.
      destruct (F3 e He) as [A3 B3].
      destruct (F4 e (proj2 (in_app_iff _ _ _) (or_introl He))) as [A4 B4].
      destruct (F5 e (proj2 (in_app_iff _ _ _)
                        (or_introl (proj2 (in_app_iff _ _ _) (or_introl He)))))
        as [A5 B5].
      repeat split; try assumption. lia.
  - unfold loaded. f_equal.
    + rewrite <- app_assoc. reflexivity.
    + lia.
    + rewrite <- !app_assoc. cbn [app].
      replace (knowledge_graph_2026_id_seq db + 1 + 1)
        with (knowledge_graph_2026_id_seq db + 2) by lia.
      reflexivity.
    + lia.
Qed.

(** One of the identifiers the loader inserts is in the database. *)
Definition sample_taken (db : database) : Prop :=
  (exists d, In d (legal_documents_2026 db) /\
     (doc_id d = "constitution_article_19" \/ doc_id d = "it_act_section_66a"))
  \/
  (exists e, In e (knowledge_graph_2026 db) /\
     (entity_id e = "article_19" \/ entity_id e = "freedom_of_speech"
      \/ entity_id e = "section_66a")).

Lemma NoDup_map_app_fresh {A B} (k : A -> B) (l fresh : list A) :
  List.NoDup (List.map k l) -> List.NoDup (List.map k fresh) ->
  (forall x y, In x l -> In y fresh -> k x <> k y) ->
  List.NoDup (List.map k (l ++ fresh)).
Proof.
  intros Hl Hf Hdis. rewrite map_app. apply List.NoDup_app; try assumption.
  intros key Hin Hin'. apply in_map_iff in Hin, Hin'.
  destruct Hin as [x [Ex Hx]], Hin' as [y [Ey Hy]].
  apply (Hdis x y Hx Hy). congruence.
Qed.

(** The loader raises when an identifier it inserts is taken, and so it
    raises when it is run again on what it left. *)
Theorem insert_sample_data_2026_raises_when_taken (now : Z) (db : database) :
  (sample_taken db -> insert_sample_data_2026 now db = None) /\
  (forall db',
     insert_sample_data_2026 now db = Some db' ->
     forall later, insert_sample_data_2026 later db' = None).
Proof.
  assert (Htaken : forall t d, sample_taken d ->
            insert_sample_data_2026 t d = None).
  { intros t d Ht.
    destruct (insert_sample_data_2026 t d) as [d'|] eqn:E; [|reflexivity].
    exfalso. apply insert_sample_data_2026_inv in E.
    destruct E as [(_ & _ & Hdocs & Hents) _].
    destruct Ht as [[x [Hx Hid]] | [e [He Hid]]].
    - destruct (Hdocs x Hx) as (_ & _ & A & B). destruct Hid; contradiction.
    - destruct (Hents e He) as (_ & _ & _ & A & B & C).
      destruct Hid as [|[|]]; contradiction. }
  split; [apply Htaken|].
  intros db' H later. apply Htaken.
  apply insert_sample_data_2026_inv in H. destruct H as [_ ->].
  left. eexists. split.
  - unfold loaded. cbn [legal_documents_2026]. apply in_app_iff. right.
    left. reflexivity.
  - left. reflexivity.
Qed.

(** The loader keeps the keys unique, and every entity it adds names a
    document that is in the table. *)
Theorem insert_sample_data_2026_keeps_keys (now : Z) (db db' : database) :
  keys_unique db ->
  insert_sample_data_2026 now db = Some db' ->
  keys_unique db' /\
  forall e, In e (knowledge_graph_2026 db') ->
    In e (knowledge_graph_2026 db)
    \/ exists d, In d (legal_documents_2026 db')
                 /\ source_doc_id e = Some (doc_id d).
Proof.
  intros (U1 & U2 & U3 & U4) H.
  apply insert_sample_data_2026_inv in H.
  destruct H as [(_ & _ & Hdocs & Hents) ->].
  unfold loaded.
  cbn [legal_documents_2026 knowledge_graph_2026]. split.
  - unfold keys_unique. cbn [legal_documents_2026 knowledge_graph_2026].
    split; [|split; [|split]].
    + apply NoDup_map_app_fresh; [exact U1 | |].
      * cbn. constructor; [intros [E | []]; discriminate E|].
        constructor; [intros [] | constructor].
      * intros x y Hx [<- | [<- | []]]; cbn;
          destruct (Hdocs x Hx) as (_ & _ & A & B); assumption.
    + apply NoDup_map_app_fresh; [exact U2 | |].
      * cbn. constructor; [intros [E | []]; lia|].
        constructor; [intros [] | constructor].
      * intros x y Hx [<- | [<- | []]]; cbn;
          destruct (Hdocs x Hx) as (A & B & _); assumption.
    + apply NoDup_map_app_fresh; [exact U3 | |].
      * cbn. constructor; [intros [E | [E | []]]; discriminate E|].
        constructor; [intros [E | []]; discriminate E|].
        constructor; [intros [] | constructor].
      * intros x y Hx [<- | [<- | [<- | []]]]; cbn;
          destruct (Hents x Hx) as (_ & _ & _ & A & B & C); assumption.
    + apply NoDup_map_app_fresh; [exact U4 | |].
      * cbn. constructor; [intros [E | [E | []]]; lia|].
        constructor; [intros [E | []]; lia|].
        constructor; [intros [] | constructor].
      * intros x y Hx [<- | [<- | [<- | []]]]; cbn;
          destruct (Hents x Hx) as (A & B & C & _); assumption.
  - intros e He. apply in_app_iff in He.
    destruct He as [He | [<- | [<- | [<- | []]]]]; [left; exact He | | |];
      right; eexists; (split; [apply in_app_iff; right|]).
    + left. reflexivity.
    + reflexivity.
    + left. reflexivity.
    + reflexivity.
    + right. left. reflexivity.
    + reflexivity.
Qed.

(** Deleting the two sample documents after the loader ran gives the
    documents and chunks there were before it; the three entities it
    added stay, each naming a document that is no longer there. *)
Theorem insert_then_delete_sample_documents (now : Z) (db db' : database) :
  references_hold db ->
  insert_sample_data_2026 now db = Some db' ->
  let after :=
    delete_document "it_act_section_66a"
      (delete_document "constitution_article_19" db') in
  legal_documents_2026 after = legal_documents_2026 db /\
  document_chunks_2026 after = document_chunks_2026 db /\
  knowledge_graph_2026 after = knowledge_graph_2026 db' /\
  List.length (knowledge_graph_2026 after)
  = (List.length (knowledge_graph_2026 db) + 3)%nat /\
  forall e, In e (knowledge_graph_2026 after) ->
    In e (knowledge_graph_2026 db)
    \/ exists ref, source_doc_id e = Some ref
                   /\ forall d, In d (legal_documents_2026 after) ->
                                doc_id d <> ref.
Proof.
  intros FK H. apply insert_sample_data_2026_inv in H.
  destruct H as [(_ & _ & Hdocs & _) ->].
  assert (Edocs :
    List.filter (fun d => negb (String.eqb (doc_id d) "it_act_section_66a"))
      (List.filter
         (fun d => negb (String.eqb (doc_id d) "constitution_article_19"))
         (legal_documents_2026 (loaded now db)))
    = legal_documents_2026 db).
  { unfold loaded. cbn [legal_documents_2026].
    rewrite !List.filter_app. cbn. rewrite app_nil_r.
    rewrite (filter_all _ (legal_documents_2026 db)).
    - apply filter_all. intros d Hd.
      destruct (Hdocs d Hd) as (_ & _ & _ & B).
      apply negb_true_iff, String.eqb_neq. exact B.
    - intros d Hd. destruct (Hdocs d Hd) as (_ & _ & A & _).
      apply negb_true_iff, String.eqb_neq. exact A. }
  assert (Echunks : forall key,
    (forall d, In d (legal_documents_2026 db) -> doc_id d <> key) ->
    List.filter
      (fun c => match chunk_doc_id c with
                | Some ref => negb (String.eqb ref key)
                | None => true
                end)
      (document_chunks_2026 db)
    = document_chunks_2026 db).
  { intros key Hkey. apply filter_all. intros c Hc.
    destruct (chunk_doc_id c) as [ref|] eqn:E; [|reflexivity].
    destruct (FK c ref Hc E) as [d [Hd <-]].
    apply negb_true_iff, String.eqb_neq. exact (Hkey d Hd). }
  cbv zeta. unfold delete_document at 1 2.
  cbn [legal_documents_2026 document_chunks_2026 knowledge_graph_2026].
  split; [exact Edocs|]. split.
  { unfold delete_document. cbn [document_chunks_2026].
    change (document_chunks_2026 (loaded now db))
      with (document_chunks_2026 db).
    rewrite (Echunks "constitution_article_19").
    - apply Echunks. intros d Hd. destruct (Hdocs d Hd) as (_ & _ & _ & B).
      exact B.
    - intros d Hd. destruct (Hdocs d Hd) as (_ & _ & A & _). exact A. }
  split; [reflexivity|]. split.
  { unfold delete_document, loaded. cbn [knowledge_graph_2026].
    rewrite length_app. reflexivity. }
  intros e He.
  change (legal_documents_2026
            (delete_document "it_act_section_66a"
               (delete_document "constitution_article_19" (loaded now db))))
    with (List.filter
            (fun d => negb (String.eqb (doc_id d) "it_act_section_66a"))
            (List.filter
               (fun d =>
                  negb (String.eqb (doc_id d) "constitution_article_19"))
               (legal_documents_2026 (loaded now db)))).
  rewrite Edocs.
  change (knowledge_graph_2026
            (delete_document "it_act_section_66a"
               (delete_document "constitution_article_19" (loaded now db))))
    with (knowledge_graph_2026 (loaded now db)) in He.
  unfold loaded in He.
  cbn [knowledge_graph_2026] in He. apply in_app_iff in He.
  destruct He as [He | [<- | [<- | [<- | []]]]]; [left; exact He | | |];
    right; eexists; (split; [reflexivity|]); intros d Hd;
    destruct (Hdocs d Hd) as (_ & _ & A & B); assumption.
Qed.
End Schema.

(** ** The store over rational scores *)

(** Scores as rationals, embeddings as lists of rationals: an instance to
    run the models on.  The distance is 1 minus the dot product (the
    cosine distance of unit vectors), a text matches a query that occurs
    in it, and every match ranks 1/10. *)
Definition dot (a b : list Q) : Q :=
  fold_right Qplus (0 # 1)%Q (List.map (fun p => Qmult (fst p) (snd p)) (combine a b)).

Definition unit_distance (a b : list Q) : Q := Qminus (1 # 1) (dot a b).

Definition occurs (content query : string) : bool := mentions query content.

Definition flat_rank (content query : string) : Q := (1 # 10)%Q.

Definition search_Q :=
  hybrid_search_2026 (list Q) Q (fun x => x) Qplus Qminus Qmult Qle_bool
    unit_distance occurs flat_rank.

Definition query_Q :=
  hybrid_search_2026_query (list Q) Q (fun x => x) Qplus Qminus Qmult Qle_bool
    unit_distance occurs flat_rank.

(** The documents the set-up script leaves in the store. *)
Definition sample_documents : list (legal_document (list Q)) :=
  match insert_sample_data_2026 (list Q) Q 0 (created (list Q) Q) with
  | Some db => legal_documents_2026 _ _ db
  | None => []
  end.

(** Three short documents, the last without an embedding. *)
Definition short_documents : list (legal_document (list Q)) :=
  [ mkDocument _ 1 "doc_a" "Act A" None "freedom of speech"
      (Some [1 # 1; 0 # 1]%Q) None None None None None None None;
    mkDocument _ 2 "doc_b" "Act B" None "freedom of assembly"
      (Some [0 # 1; 1 # 1]%Q) None None None None None None None;
    mkDocument _ 3 "doc_c" "Act C" None "punishment for theft"
      None None None None None None None None ].

Lemma Qle_bool_total (a b : Q) : Qle_bool a b = true \/ Qle_bool b a = true.
Proof.
  rewrite !Qle_bool_iff.
  destruct (Qlt_le_dec a b) as [H | H]; [left; apply Qlt_le_weak, H | right; exact H].
Qed.

Lemma Qle_bool_trans (a b c : Q) :
  Qle_bool a b = true -> Qle_bool b c = true -> Qle_bool a c = true.
Proof. rewrite !Qle_bool_iff. apply Qle_trans. Qed.

(** The call of C3 on the three short documents with top_k = 2: the
    query yields two of the three rows, best first, and the call raises. *)
Lemma hybrid_search_2026_top_k_raises_witness :
  0 < 2 /\
  search_Q short_documents [1 # 1; 0 # 1]%Q "freedom" 2 (6 # 10)%Q (4 # 10)%Q
  = None /\
  option_map (List.map (fun r => (row_doc_id Q r, final_score Q r)))
    (query_Q short_documents [1 # 1; 0 # 1]%Q "freedom" 2 (6 # 10)%Q
       (4 # 10)%Q)
  = Some [(Some "doc_a", 640 # 1000); (Some "doc_b", 40 # 1000)]%Q.
Proof.
  split; [lia|]. split.
  - exact (proj1 (hybrid_search_2026_top_k_raises (list Q) Q (fun x => x)
                    Qplus Qminus Qmult Qle_bool unit_distance occurs
                    flat_rank Qle_bool_total Qle_bool_trans
                    short_documents [1 # 1; 0 # 1]%Q "freedom" 2 (6 # 10)%Q
                    (4 # 10)%Q ltac:(lia))).
  - vm_compute. reflexivity.
Defined.

Lemma insert_sample_data_2026_inserts_witness :
  sample_absent (list Q) Q (created (list Q) Q) /\
  List.map (doc_id (list Q)) sample_documents
  = ["constitution_article_19"; "it_act_section_66a"].
Proof.
  assert (Habsent : sample_absent (list Q) Q (created (list Q) Q)).
  { unfold sample_absent, int4_max. cbn.
    split; [lia|]. split; [lia|]. split; intros ? []. }
  split; [exact Habsent|].
  destruct (insert_sample_data_2026_inserts (list Q) Q 0 (created (list Q) Q)
              Habsent)
    as (db' & d1 & d2 & e1 & e2 & e3 & E & Hdocs & Hd1 & Hd2 & _).
  unfold sample_documents. rewrite E, Hdocs. cbn. rewrite Hd1, Hd2.
  reflexivity.
Defined.


(** A database with one document of its own and a chunk of it. *)
Definition penal_code_database : database (list Q) Q :=
  mkDatabase _ _
    [ mkDocument _ 1 "ipc_section_302" "Indian Penal Code" None
        "Section 302. Punishment for murder." None None None None None None
        None None ]
    2
    [ mkChunk _ 1 "ipc_section_302_chunk_0" (Some "ipc_section_302")
        "Section 302. Punishment for murder." None (Some 0) None None None
        None None None ]
    [] 1 [].

Lemma penal_code_database_constraints :
  keys_unique _ _ penal_code_database /\ references_hold _ _ penal_code_database.
Proof.
  split.
  - repeat split; cbn; repeat constructor; intros [].
  - intros c ref [<- | []] [= <-]. eexists. split; [left|]; reflexivity.
Qed.

Lemma delete_document_keeps_constraints_witness :
  keys_unique _ _ penal_code_database /\
  references_hold _ _ penal_code_database /\
  keys_unique _ _ (delete_document _ _ "ipc_section_302" penal_code_database) /\
  references_hold _ _
    (delete_document _ _ "ipc_section_302" penal_code_database).
Proof.
  destruct penal_code_database_constraints as [U FK].
  split; [exact U|]. split; [exact FK|].
  exact (delete_document_keeps_constraints _ _ "ipc_section_302"
           penal_code_database U FK).
Defined.

Lemma insert_sample_data_2026_keeps_keys_witness :
  keys_unique _ _ penal_code_database /\
  insert_sample_data_2026 _ _ 0 penal_code_database
  = Some (loaded _ _ 0 penal_code_database) /\
  keys_unique _ _ (loaded _ _ 0 penal_code_database).
Proof.
  destruct penal_code_database_constraints as [U _].
  assert (E : insert_sample_data_2026 _ _ 0 penal_code_database
              = Some (loaded _ _ 0 penal_code_database))
    by (vm_compute; reflexivity).
  split; [exact U|]. split; [exact E|].
  exact (proj1 (insert_sample_data_2026_keeps_keys _ _ 0 penal_code_database
                  _ U E)).
Defined.

Lemma insert_then_delete_sample_documents_witness :
  references_hold _ _ penal_code_database /\
  insert_sample_data_2026 _ _ 0 penal_code_database
  = Some (loaded _ _ 0 penal_code_database) /\
  legal_documents_2026 _ _
    (delete_document _ _ "it_act_section_66a"
       (delete_document _ _ "constitution_article_19"
          (loaded _ _ 0 penal_code_database)))
  = legal_documents_2026 _ _ penal_code_database.
Proof.
  destruct penal_code_database_constraints as [_ FK].
  assert (E : insert_sample_data_2026 _ _ 0 penal_code_database
              = Some (loaded _ _ 0 penal_code_database))
    by (vm_compute; reflexivity).
  split; [exact FK|]. split; [exact E|].
  exact (proj1 (insert_then_delete_sample_documents _ _ 0 penal_code_database
                  _ FK E)).
Defined.
End Store.

(* ================================================================== *)
(** * Reciprocal Rank Fusion *)
(* ================================================================== *)

Module RRF.

Local Open Scope Q_scope.

Section Fusion.

Context {item : Type} `{EqDecision item}.

(** Modelled from the spec: the fusion code is in the Python pipeline,
    which is not among the sources.  "rank_in_list": the position of an
    item in a ranked list, the first position being 1; an item that is not
    in the list has no rank. *)
Fixpoint rank_in_list (x : item) (l : list item) : option nat :=
  match l with
  | [] => None
  | y :: l' =>
      if decide (x = y) then Some 1%nat
      else option_map S (rank_in_list x l')
  end.

(** Modelled from the spec: what one list adds to the score of an item,
    "1 / (rank_in_list + c)", and "items absent from a list contribute 0
    for that list". *)
Definition contribution (c : Q) (x : item) (l : list item) : Q :=
  match rank_in_list x l with
  | Some r => 1 / (inject_Z (Z.of_nat r) + c)
  | None => 0
  end.

Definition total (qs : list Q) : Q := fold_right Qplus 0 qs.

(** Modelled from the spec: "fused_score = sum over lists containing it of
    1 / (rank_in_list + c)". *)
Definition fused_score (c : Q) (lists : list (list item)) (x : item) : Q :=
  total (List.map (contribution c x) lists).

(** [x] is in every list of [lists]; [y] is in list [j] of [lists'] only,
    at the rank [x] has in list [j] of [lists]. *)
Definition covers_all (lists : list (list item)) (x : item) : Prop :=
  forall l, In l lists -> rank_in_list x l <> None.

Definition same_in_one_only (lists lists' : list (list item)) (x y : item)
  : Prop :=
  List.length lists' = List.length lists /\
  exists j,
    (j < List.length lists)%nat /\
    rank_in_list y (nth j lists' []) = rank_in_list x (nth j lists []) /\
    forall i, i <> j -> rank_in_list y (nth i lists' []) = None.

(** C2 as the specification words it. *)
Definition coverage_claim (c : Q) (lists lists' : list (list item))
  (x y : item) : Prop :=
  covers_all lists x -> same_in_one_only lists lists' x y ->
  fused_score c lists' y < fused_score c lists x.

(** ** Sums of contributions *)

Lemma total_nonneg (qs : list Q) :
  (forall q, In q qs -> 0 < q) -> 0 <= total qs.
Proof.
  induction qs as [|q qs IH]; intros Hpos; simpl; [apply Qle_refl|].
  assert (0 < q) by (apply Hpos; left; reflexivity).
  assert (0 <= total qs) by (apply IH; intros; apply Hpos; right; assumption).
  lra.
Qed.

Lemma total_pos (qs : list Q) :
  qs <> [] -> (forall q, In q qs -> 0 < q) -> 0 < total qs.
Proof.
  destruct qs as [|q qs]; [congruence|]. intros _ Hpos. simpl.
  assert (0 < q) by (apply Hpos; left; reflexivity).
  assert (0 <= total qs)
    by (apply total_nonneg; intros; apply Hpos; right; assumption).
  lra.
Qed.

Lemma nth_le_total (qs : list Q) (j : nat) :
  (forall q, In q qs -> 0 < q) -> nth j qs 0 <= total qs.
Proof.
  revert j. induction qs as [|q qs IH]; intros j Hpos.
  - destruct j; simpl; apply Qle_refl.
  - assert (0 < q) by (apply Hpos; left; reflexivity).
    assert (Hpos' : forall q', In q' qs -> 0 < q')
      by (intros; apply Hpos; right; assumption).
    destruct j as [|j]; simpl.
    + pose proof (total_nonneg qs Hpos'). lra.
    + pose proof (IH j Hpos'). lra.
Qed.

(** Among at least two positive terms, each is less than the sum. *)
Lemma nth_lt_total (qs : list Q) (j : nat) :
  (forall q, In q qs -> 0 < q) -> (2 <= List.length qs)%nat ->
  nth j qs 0 < total qs.
Proof.
  intros Hpos Hlen. destruct qs as [|q qs]; [simpl in Hlen; lia|].
  assert (0 < q) by (apply Hpos; left; reflexivity).
  assert (Hpos' : forall q', In q' qs -> 0 < q')
    by (intros; apply Hpos; right; assumption).
  destruct j as [|j]; simpl.
  - assert (0 < total qs).
    { apply total_pos; [|exact Hpos'].
      destruct qs; [simpl in Hlen; lia | congruence]. }
    lra.
  - pose proof (nth_le_total qs j Hpos'). lra.
Qed.

(** A sum whose terms are 0 except the [j]-th. *)
Lemma total_single (qs : list Q) (j : nat) :
  (forall i, i <> j -> nth i qs 0 == 0) -> total qs == nth j qs 0.
Proof.
  revert j. induction qs as [|q qs IH]; intros j Hz.
  - destruct j; reflexivity.
  - destruct j as [|j]; simpl.
    + assert (E : total qs == 0).
      { clear IH. induction qs as [|q' qs IH']; [reflexivity|]. simpl.
        pose proof (Hz 1%nat ltac:(lia)) as H1. simpl in H1.
        rewrite H1, IH'; [reflexivity|].
        intros [|i] Hi; [congruence|]. destruct i as [|i].
        - exact (Hz 2%nat ltac:(lia)).
        - exact (Hz (S (S (S i))) ltac:(lia)). }
      rewrite E. lra.
    + pose proof (Hz 0%nat ltac:(lia)) as H0. simpl in H0.
      rewrite H0, (IH j); [lra|].
      intros i Hi. exact (Hz (S i) ltac:(lia)).
Qed.

Lemma rank_in_list_pos (x : item) (l : list item) (r : nat) :
  rank_in_list x l = Some r -> (1 <= r)%nat.
Proof.
  revert r. induction l as [|y l IH]; intros r; simpl; [discriminate|].
  destruct (decide (x = y)); [intros [= <-]; lia|].
  destruct (rank_in_list x l) as [r'|]; [|discriminate].
  intros [= <-]. lia.
Qed.

Lemma contribution_pos (c : Q) (x : item) (l : list item) :
  0 <= c -> rank_in_list x l <> None -> 0 < contribution c x l.
Proof.
  intros Hc Hin. unfold contribution.
  destruct (rank_in_list x l) as [r|] eqn:E; [|congruence].
  apply rank_in_list_pos in E.
  assert (0 < inject_Z (Z.of_nat r)).
  { change 0 with (inject_Z 0). rewrite <- Zlt_Qlt. lia. }
  unfold Qdiv. rewrite Qmult_1_l. apply Qinv_lt_0_compat. lra.
Qed.

Lemma nth_contribution (c : Q) (x : item) (lists : list (list item)) (i : nat) :
  nth i (List.map (contribution c x) lists) 0 = contribution c x (nth i lists []).
Proof.
  revert i. induction lists as [|l lists IH]; intros [|i]; simpl;
    try reflexivity.
  apply IH.
Qed.

(** C2, amended: for every collection of at least two ranked lists and
    every constant c >= 0, an item present in every list has a
    fused_score strictly greater than an item that has the same rank in
    one of the lists and is absent from all the others. *)
Theorem fused_score_coverage (c : Q) (lists lists' : list (list item))
  (x y : item) :
  0 <= c -> (2 <= List.length lists)%nat ->
  covers_all lists x -> same_in_one_only lists lists' x y ->
  fused_score c lists' y < fused_score c lists x.
Proof.
  intros Hc Hlen Hall (Hsame & j & Hj & Hrank & Hothers).
  unfold fused_score.
  assert (E : total (List.map (contribution c y) lists')
              == nth j (List.map (contribution c x) lists) 0).
  { rewrite (total_single _ j).
    - rewrite !nth_contribution. unfold contribution. rewrite Hrank.
      reflexivity.
    - intros i Hi. rewrite nth_contribution. unfold contribution.
      rewrite (Hothers i Hi). reflexivity. }
  rewrite E. apply nth_lt_total.
  - intros q Hq. apply in_map_iff in Hq. destruct Hq as [l [<- Hl]].
    apply contribution_pos; [exact Hc | exact (Hall l Hl)].
  - rewrite length_map. exact Hlen.
Qed.

End Fusion.

(** Ranked lists of document numbers to run the model on. *)
Definition three_lists : list (list nat) := [[7; 8]; [9; 7]; [7]]%nat.
Definition three_lists_one_only : list (list nat) := [[8]; [9; 7]; []]%nat.
Definition one_list : list (list nat) := [[7]]%nat.
Definition two_lists : list (list nat) := [[7]; [8; 7]]%nat.
Definition two_lists_one_only : list (list nat) := [[7]; []]%nat.

Lemma fused_score_coverage_witness :
  0 <= 60 /\
  (2 <= List.length three_lists)%nat /\
  fused_score 60 three_lists_one_only 7%nat < fused_score 60 three_lists 7%nat.
Proof.
  split; [discriminate|]. split; [simpl; lia|].
  apply fused_score_coverage.
  - discriminate.
  - simpl. lia.
  - intros l [<- | [<- | [<- | []]]]; discriminate.
  - split; [reflexivity|]. exists 1%nat.
    split; [simpl; lia|]. split; [reflexivity|].
    intros [|[|[|i]]] Hi; try reflexivity; try congruence.
    cbn. destruct i; reflexivity.
Defined.

(** C2 as stated fails for a single list, where the item in every list
    and the item in only one list score the same, and for a negative
    constant, where a further list lowers the score. *)
Lemma fused_score_coverage_single_list :
  ~ coverage_claim 60 one_list one_list 7%nat 7%nat /\
  ~ coverage_claim (- (3)) two_lists two_lists_one_only 7%nat 7%nat.
Proof.
  split; intros H.
  - assert (L : fused_score 60 one_list 7%nat < fused_score 60 one_list 7%nat).
    { apply H.
      - intros l [<- | []]. discriminate.
      - split; [reflexivity|]. exists 0%nat.
        split; [simpl; lia|]. split; [reflexivity|].
        intros [|[|i]] Hi; [congruence | reflexivity | reflexivity]. }
    exact (Qlt_irrefl _ L).
  - assert (L : fused_score (- (3)) two_lists_one_only 7%nat
                < fused_score (- (3)) two_lists 7%nat).
    { apply H.
      - intros l [<- | [<- | []]]; discriminate.
      - split; [reflexivity|]. exists 0%nat.
        split; [simpl; lia|]. split; [reflexivity|].
        intros [|[|[|i]]] Hi;
          [congruence | reflexivity | reflexivity | reflexivity]. }
    vm_compute in L. discriminate L.
Qed.

End RRF.

(* ================================================================== *)
(** * What a page handler does to the browser *)
(* ================================================================== *)

Module Browser.
Import JS.

(** The values the handlers put into a JSON body. *)
Inductive value : Type :=
| VString : jsstring -> value
| VBoolean : bool -> value.

(** [fetch(url, { method, headers, body: JSON.stringify(object) })]; the
    body is kept as the object that is serialised, fields in order. *)
Record request : Type := mkRequest {
  url : jsstring;
  method : jsstring;
  headers : list (jsstring * jsstring);
  body : list (jsstring * value)
}.

(** The effects of a handler other than its React state and
    [localStorage], in the order they happen. *)
Inductive effect : Type :=
| Fetch : request -> effect
| Toast : jsstring -> jsstring -> effect   (* toast.<kind>(message) *)
| Navigate : jsstring -> effect
| Sleep : N -> effect                      (* a timer awaited, in ms *)
| Uncaught : jsstring -> effect.           (* an error no handler catches *)

Definition is_fetch (e : effect) : bool :=
  match e with
  | Fetch _ => true
  | _ => false
  end.

(** [localStorage]. *)
Abbreviation storage := (gmap jsstring jsstring) (only parsing).

(** Whether an item is stored is the user agent's decision:
    [localStorage.setItem] throws a QuotaExceededError when the new value
    cannot be set, because the quota would be exceeded or because storage
    is disabled for the site.  [admits s key item] says that the user
    agent stores [item] under [key] in [s]. *)
Definition quota : Type :=
  gmap jsstring jsstring -> jsstring -> jsstring -> bool.

(** [localStorage.setItem(key, item)]; [None] when it throws. *)
Definition setItem (admits : quota) (key item : jsstring) (s : storage)
  : option storage :=
  if admits s key item then Some (<[key := item]> s) else None.

Definition getItem (key : jsstring) (s : storage) : option jsstring :=
  s !! key.

(** Three user agents: one that stores every item, one with storage
    disabled, and one that stores as long as the keys and values held
    stay within [limit] code units. *)
Definition unlimited : quota := fun _ _ _ => true.

Definition disabled : quota := fun _ _ _ => false.

Definition used (s : storage) : nat :=
  map_fold (fun key item n => (str_length key + str_length item + n)%nat) 0%nat s.

Definition up_to (limit : nat) : quota :=
  fun s key item => (used (<[key := item]> s) <=? limit)%nat.

End Browser.

(* ================================================================== *)
(** * The chat page: [frontend/src/pages/Chat.jsx] *)
(* ================================================================== *)

Module Chat.
Import JS Browser.

Local Open Scope string_scope.

(** [import.meta.env.VITE_API_URL || 'http://127.0.0.1:8002']: an unset
    or empty variable gives the default. *)
Definition API_BASE (VITE_API_URL : option jsstring) : jsstring :=
  match VITE_API_URL with
  | Some (c :: rest) => c :: rest
  | _ => js "http://127.0.0.1:8002"
  end.

Definition API_URL (VITE_API_URL : option jsstring) : jsstring :=
  concat (API_BASE VITE_API_URL) (js "/api/v1/query/legal").

(** A JSON value, as [response.json()] gives it; the members of an object
    stand in the order of the text. *)
#[local] Set Warnings "-register-all".
Inductive json : Type :=
| JNull : json
| JBoolean : bool -> json
| JNumber : float -> json
| JString : jsstring -> json
| JArray : list json -> json
| JObject : list (jsstring * json) -> json.

(** The member of an object a name stands for: the last one with that
    name. *)
Fixpoint member (name : jsstring) (members : list (jsstring * json))
  : option json :=
  match members with
  | [] => None
  | (key, v) :: rest =>
      match member name rest with
      | Some w => Some w
      | None => if jsstring_eqb key name then Some v else None
      end
  end.

(** [data.name], for a name that no prototype defines, as are the three
    names read here: [Some None] is undefined, which every value but an
    object with that member gives; on [null] the read throws a TypeError,
    which is [None]. *)
Definition get (name : jsstring) (data : json) : option (option json) :=
  match data with
  | JNull => None
  | JObject members => Some (member name members)
  | _ => Some None
  end.

(** An entry of [messages]; the three fields of the assistant's are
    undefined or a JSON value. *)
Inductive message : Type :=
| User : jsstring -> message
| Assistant : option json -> option json -> option json -> message
| Error : jsstring -> message.

Record state : Type := mkState {
  query : jsstring;
  messages : list message;
  isLoading : bool
}.

(** What the awaited [fetch] comes back with: it throws, or there is a
    response with its [ok] and with what [response.json()] gives, [None]
    when that throws (the body is no JSON). *)
Inductive outcome : Type :=
| Failed : outcome
| Response : bool -> option json -> outcome.

(** [handleSubmit] up to the [fetch]: nothing when the trimmed query is
    empty or a request is under way; otherwise the query is cleared, the
    user's message appended, [isLoading] set and the request sent.
    [e.preventDefault()] and the height of the textarea are no state of
    the model. *)
Definition handleSubmit (VITE_API_URL : option jsstring) (st : state)
  : option (state * request) :=
  match trim (query st) with
  | [] => None
  | c :: rest =>
      if isLoading st then None
      else
        let userMessage := c :: rest in
        Some (mkState [] (messages st ++ [User userMessage])%list true,
              mkRequest (API_URL VITE_API_URL) (js "POST")
                [(js "Content-Type", js "application/json")]
                [(js "query", VString userMessage)])
  end.

(** [handleSubmit] from the [fetch] on.  The [catch] branch is taken when
    the [fetch] or [response.json()] throws and when the response is not
    ok.  The assistant's message is built inside the updater that is
    handed to [setMessages], which React calls after the [try] block has
    been left: on a body that is [null] the read of [data.answer] throws a
    TypeError there, which the [catch] of the handler does not see; no
    message is added, no toast is shown and the error is left to React.
    [finally] clears [isLoading] in every case. *)
Definition handleResponse (st : state) (o : outcome) : state * list effect :=
  match o with
  | Response true (Some data) =>
      match get (js "answer") data, get (js "confidence") data,
            get (js "processing_time_ms") data with
      | Some answer, Some confidence, Some processing_time_ms =>
          (mkState (query st)
             (messages st ++
                [Assistant answer confidence processing_time_ms])%list
             false,
           [])
      | _, _, _ =>
          (mkState (query st) (messages st) false, [Uncaught (js "TypeError")])
      end
  | _ =>
      (mkState (query st)
         (messages st ++
            [Error (js "Unable to connect. Please ensure the server is running on port 8002.")])%list
         false,
       [Toast (js "error") (js "Failed to get response. Please try again.")])
  end.

(** The request the Query API of the specification describes, for a
    client configured with [VITE_API_URL]: a POST to [/query] whose body
    has the string [query] and at most the three optional booleans. *)
Definition optional_flag (field : jsstring * value) : Prop :=
  (fst field = js "use_corrective_rag"
   \/ fst field = js "use_self_reflection"
   \/ fst field = js "detect_hallucinations")
  /\ exists b, snd field = VBoolean b.

Definition body_conforms (r : request) : Prop :=
  exists text flags,
    body r = (js "query", VString text) :: flags
    /\ Forall optional_flag flags.

Definition conforms_to_query_api (VITE_API_URL : option jsstring) (r : request)
  : Prop :=
  method r = js "POST"
  /\ url r = concat (API_BASE VITE_API_URL) (js "/query")
  /\ body_conforms r.

(** C4, amended: every request the chat client sends is a POST with a JSON
    body whose only field is the string [query], the trimmed, non-empty
    text of the input, so with none of the optional booleans; the
    endpoint is [/api/v1/query/legal] under the configured base, not
    [/query]. *)
Theorem handleSubmit_request (VITE_API_URL : option jsstring)
  (st st' : state) (r : request) :
  handleSubmit VITE_API_URL st = Some (st', r) ->
  method r = js "POST" /\
  url r = concat (API_BASE VITE_API_URL) (js "/api/v1/query/legal") /\
  url r <> concat (API_BASE VITE_API_URL) (js "/query") /\
  headers r = [(js "Content-Type", js "application/json")] /\
  body r = [(js "query", VString (trim (query st)))] /\
  body_conforms r /\
  trim (query st) <> [] /\
  isLoading st = false.
Proof.
  unfold handleSubmit.
  destruct (trim (query st)) as [|c rest] eqn:E; [discriminate|].
  destruct (isLoading st); [discriminate|].
  intros [= <- <-]. cbn [method url headers body].
  split; [reflexivity|]. split; [reflexivity|].
  split.
  { unfold API_URL, concat. intros H. apply app_inv_head in H.
    vm_compute in H. discriminate H. }
  split; [reflexivity|]. split; [reflexivity|].
  split; [exists (c :: rest), []; split; [reflexivity | constructor]|].
  split; [discriminate | reflexivity].
Qed.

Lemma handleSubmit_request_witness :
  handleSubmit None (mkState (js "  What is IPC Section 420? ") [] false)
  = Some (mkState [] [User (js "What is IPC Section 420?")] true,
          mkRequest (js "http://127.0.0.1:8002/api/v1/query/legal") (js "POST")
            [(js "Content-Type", js "application/json")]
            [(js "query", VString (js "What is IPC Section 420?"))])
  /\ url (mkRequest (js "http://127.0.0.1:8002/api/v1/query/legal") (js "POST")
            [(js "Content-Type", js "application/json")]
            [(js "query", VString (js "What is IPC Section 420?"))])
     = concat (API_BASE None) (js "/api/v1/query/legal").
Proof.
  assert (E : handleSubmit None
                (mkState (js "  What is IPC Section 420? ") [] false)
              = Some (mkState [] [User (js "What is IPC Section 420?")] true,
                      mkRequest (js "http://127.0.0.1:8002/api/v1/query/legal")
                        (js "POST")
                        [(js "Content-Type", js "application/json")]
                        [(js "query", VString (js "What is IPC Section 420?"))]))
    by (vm_compute; reflexivity).
  split; [exact E|].
  exact (proj1 (proj2 (handleSubmit_request None _ _ _ E))).
Defined.

(** C4 as stated fails on the default configuration: the request goes to
    [http://127.0.0.1:8002/api/v1/query/legal]. *)
Lemma handleSubmit_request_not_query_endpoint :
  option_map (fun p => url (snd p))
    (handleSubmit None (mkState (js "What is IPC Section 420?") [] false))
  = Some (js "http://127.0.0.1:8002/api/v1/query/legal")
  /\ ~ (forall st' r,
          handleSubmit None (mkState (js "What is IPC Section 420?") [] false)
          = Some (st', r) ->
          conforms_to_query_api None r).
Proof.
  split; [vm_compute; reflexivity|].
  intros H.
  destruct (handleSubmit None (mkState (js "What is IPC Section 420?") [] false))
    as [[st' r]|] eqn:E; [|vm_compute in E; discriminate E].
  destruct (H st' r eq_refl) as (_ & Hurl & _).
  vm_compute in E. injection E as _ <-.
  vm_compute in Hurl. discriminate Hurl.
Qed.

End Chat.

(* ================================================================== *)
(** * The login page: [frontend/src/pages/Login.jsx] *)
(* ================================================================== *)

Module Login.
Import JS Browser.

Local Open Scope string_scope.

(** [[^\s@]] *)
Definition not_space_or_at (c : N) : bool :=
  negb (isWhiteSpace c || (c =? 64)%N).

(** [/^[^\s@]+@[^\s@]+\.[^\s@]+$/] *)
Definition emailRegex : regex :=
  Cat (Plus (Class not_space_or_at))
    (Cat (Class (N.eqb 64))
       (Cat (Plus (Class not_space_or_at))
          (Cat (Class (N.eqb 46))
             (Plus (Class not_space_or_at))))).

Definition validateEmail (email : jsstring) : jsstring :=
  match email with
  | [] => js "Email is required"
  | _ :: _ =>
      if negb (test_anchored emailRegex email)
      then js "Please enter a valid email"
      else []
  end.

Definition validatePassword (password : jsstring) : jsstring :=
  match password with
  | [] => js "Password is required"
  | _ :: _ =>
      if (str_length password <? 6)%nat
      then js "Password must be at least 6 characters"
      else []
  end.

(** A string is truthy when it is not empty. *)
Definition truthy (s : jsstring) : bool :=
  match s with
  | [] => false
  | _ :: _ => true
  end.

(** The component's state. *)
Record state : Type := mkState {
  email : jsstring;
  password : jsstring;
  errors : jsstring * jsstring;       (* { email, password } *)
  touched : bool * bool;              (* { email, password } *)
  loading : bool
}.

(** [handleSubmit]: the new state, the new [localStorage] and the effects
    in order.  In the [try] block the two calls of [setItem] may throw;
    the [catch] branch then shows the failure and clears [loading], and
    what was stored before the throw stays stored. *)
Definition handleSubmit (admits : quota) (st : state) (ls : storage)
  : state * storage * list effect :=
  let emailError := validateEmail (email st) in
  let passwordError := validatePassword (password st) in
  let st1 :=
    mkState (email st) (password st) (emailError, passwordError)
      (true, true) (loading st) in
  if truthy emailError || truthy passwordError then
    (st1, ls, [Toast (js "error") (js "Please fix the errors below")])
  else
    let caught (ls' : storage) :=
      (mkState (email st1) (password st1) (errors st1) (touched st1) false,
       ls',
       [Sleep 1000;
        Toast (js "error") (js "Login failed. Please try again.")]) in
    match setItem admits (js "isAuthenticated") (js "true") ls with
    | None => caught ls
    | Some ls1 =>
        match setItem admits (js "userEmail") (email st) ls1 with
        | None => caught ls1
        | Some ls2 =>
            (mkState (email st1) (password st1) (errors st1) (touched st1)
               true,
             ls2,
             [Sleep 1000;
              Toast (js "success") (js "Login successful!");
              Navigate (js "/chat")])
        end
    end.

(** A submission passes the local validation. *)
Definition passes_validation (st : state) : Prop :=
  test_anchored emailRegex (email st) = true
  /\ (6 <= str_length (password st))%nat.

Example emailRegex_on_samples :
  List.map (test_anchored emailRegex)
    [js "a@b.co"; js "first.last@mail.example.org"; js "a@b"; js "@b.co";
     js "a b@c.de"; js "a@@b.co"; js "a@b."; js ""]
  = [true; true; false; false; false; false; false; false].
Proof. vm_compute. reflexivity. Qed.

Lemma validateEmail_accepts (e : jsstring) :
  test_anchored emailRegex e = true -> validateEmail e = [].
Proof.
  intros H. destruct e as [|c e]; [vm_compute in H; discriminate H|].
  unfold validateEmail. rewrite H. reflexivity.
Qed.

Lemma validatePassword_accepts (p : jsstring) :
  (6 <= str_length p)%nat -> validatePassword p = [].
Proof.
  intros H. destruct p as [|c p]; [simpl in H; lia|].
  unfold validatePassword.
  destruct (str_length (c :: p) <? 6)%nat eqn:E; [|reflexivity].
  apply Nat.ltb_lt in E. lia.
Qed.

(** The user agent stores the two items of a login. *)
Definition stores (admits : quota) (st : state) (ls : storage) : bool :=
  admits ls (js "isAuthenticated") (js "true")
  && admits (<[js "isAuthenticated" := js "true"]> ls) (js "userEmail")
       (email st).

(** The outcome C8 states for a submission. *)
Definition accepted_as_claimed (admits : quota) (st : state) (ls : storage)
  : Prop :=
  let '(st', ls', effects) := handleSubmit admits st ls in
  getItem (js "isAuthenticated") ls' = Some (js "true") /\
  getItem (js "userEmail") ls' = Some (email st) /\
  In (Navigate (js "/chat")) effects.

Definition short_email : state :=
  mkState (js "a@b.co") (js "123456") ([], []) (false, false) false.

Definition long_email : state :=
  mkState (js "nobody@example.invalid") (js "not my password") ([], [])
    (false, false) false.

(** What a submission that passes the validation leads to, by what the
    user agent stores. *)
Lemma handleSubmit_valid (admits : quota) (st : state) (ls : storage) :
  passes_validation st ->
  handleSubmit admits st ls
  = if admits ls (js "isAuthenticated") (js "true") then
      if admits (<[js "isAuthenticated" := js "true"]> ls) (js "userEmail")
           (email st)
      then
        (mkState (email st) (password st) ([], []) (true, true) true,
         <[js "userEmail" := email st]>
           (<[js "isAuthenticated" := js "true"]> ls),
         [Sleep 1000;
          Toast (js "success") (js "Login successful!");
          Navigate (js "/chat")])
      else
        (mkState (email st) (password st) ([], []) (true, true) false,
         <[js "isAuthenticated" := js "true"]> ls,
         [Sleep 1000;
          Toast (js "error") (js "Login failed. Please try again.")])
    else
      (mkState (email st) (password st) ([], []) (true, true) false,
       ls,
       [Sleep 1000;
        Toast (js "error") (js "Login failed. Please try again.")]).
Proof.
  intros [He Hp]. unfold handleSubmit, setItem.
  rewrite (validateEmail_accepts _ He), (validatePassword_accepts _ Hp).
  cbn [truthy orb errors loading email password touched].
  destruct (admits ls _ _); [|reflexivity].
  destruct (admits _ _ _); reflexivity.
Qed.

(** C8, amended: a submission that passes the local validation issues no
    network request, and its outcome does not depend on the password.  If
    [localStorage] takes the two items, [isAuthenticated] is set to
    ['true'], the email is stored and the page moves to [/chat], the same
    effects for any two such submissions.  If [localStorage] refuses an
    item ([setItem] throws), the submission is rejected: the failure is
    shown, [loading] is cleared, the page does not move, and
    [isAuthenticated] is left stored when only the email was refused. *)
Theorem handleSubmit_accepts_what_is_stored (admits : quota)
  (st1 st2 : state) (ls : storage) :
  passes_validation st1 -> passes_validation st2 ->
  let '(st1', ls1, effects1) := handleSubmit admits st1 ls in
  let '(st2', ls2, effects2) := handleSubmit admits st2 ls in
  existsb is_fetch effects1 = false /\
  (email st1 = email st2 -> ls1 = ls2 /\ effects1 = effects2) /\
  (stores admits st1 ls = true ->
   effects1 = [Sleep 1000;
               Toast (js "success") (js "Login successful!");
               Navigate (js "/chat")] /\
   ls1 = <[js "userEmail" := email st1]>
           (<[js "isAuthenticated" := js "true"]> ls) /\
   getItem (js "isAuthenticated") ls1 = Some (js "true") /\
   getItem (js "userEmail") ls1 = Some (email st1) /\
   errors st1' = ([], []) /\
   loading st1' = true /\
   (stores admits st2 ls = true -> effects2 = effects1)) /\
  (stores admits st1 ls = false ->
   effects1 = [Sleep 1000;
               Toast (js "error") (js "Login failed. Please try again.")] /\
   loading st1' = false /\
   (ls1 = ls \/ ls1 = <[js "isAuthenticated" := js "true"]> ls) /\
   getItem (js "userEmail") ls1 = getItem (js "userEmail") ls).
Proof.
  intros P1 P2.
  rewrite (handleSubmit_valid admits st1 ls P1),
    (handleSubmit_valid admits st2 ls P2).
  unfold stores, getItem.
  assert (Hne : js "userEmail" <> js "isAuthenticated")
    by (vm_compute; discriminate).
  destruct (admits ls (js "isAuthenticated") (js "true")) eqn:E0;
    cbn [andb].
  - destruct (admits (<[js "isAuthenticated" := js "true"]> ls)
                (js "userEmail") (email st1)) eqn:E1;
    destruct (admits (<[js "isAuthenticated" := js "true"]> ls)
                (js "userEmail") (email st2)) eqn:E2;
      cbn [errors loading].
    + split; [reflexivity|].
      split; [intros E; rewrite E; split; reflexivity|].
      split; [intros _ | intros H; discriminate H].
      rewrite lookup_insert_ne by (first [exact Hne | apply not_eq_sym; exact Hne]). rewrite !lookup_insert_eq.
      repeat split; reflexivity.
    + split; [reflexivity|].
      split; [intros E; rewrite E in E1; congruence|].
      split; [intros _ | intros H; discriminate H].
      rewrite lookup_insert_ne by (first [exact Hne | apply not_eq_sym; exact Hne]). rewrite !lookup_insert_eq.
      repeat split; try reflexivity. intros H. discriminate H.
    + split; [reflexivity|].
      split; [intros E; rewrite E in E1; congruence|].
      split; [intros H; discriminate H | intros _].
      rewrite lookup_insert_ne by (first [exact Hne | apply not_eq_sym; exact Hne]).
      repeat split; try reflexivity. right. reflexivity.
    + split; [reflexivity|].
      split; [intros _; split; reflexivity|].
      split; [intros H; discriminate H | intros _].
      rewrite lookup_insert_ne by (first [exact Hne | apply not_eq_sym; exact Hne]).
      repeat split; try reflexivity. right. reflexivity.
  - cbn [loading].
    split; [reflexivity|]. split; [intros _; split; reflexivity|].
    split; [intros H; discriminate H | intros _].
    repeat split; try reflexivity. left. reflexivity.
Qed.

Lemma handleSubmit_accepts_what_is_stored_witness :
  passes_validation short_email /\
  passes_validation long_email /\
  snd (handleSubmit unlimited short_email ∅)
  = snd (handleSubmit unlimited long_email ∅).
Proof.
  assert (P1 : passes_validation short_email)
    by (split; [vm_compute; reflexivity | vm_compute; lia]).
  assert (P2 : passes_validation long_email)
    by (split; [vm_compute; reflexivity | vm_compute; lia]).
  split; [exact P1|]. split; [exact P2|].
  pose proof (handleSubmit_accepts_what_is_stored unlimited _ _ ∅ P1 P2) as H.
  destruct (handleSubmit unlimited short_email ∅) as [[s1 l1] e1].
  destruct (handleSubmit unlimited long_email ∅) as [[s2 l2] e2].
  destruct H as (_ & _ & Hok & _).
  destruct (Hok eq_refl) as (_ & _ & _ & _ & _ & _ & Hsame).
  symmetry. exact (Hsame eq_refl).
Defined.

(** C8 as stated fails where [localStorage] is nearly full: with room for
    40 code units the two submissions pass the validation, the one with
    the short email is accepted and the one with the long email is
    rejected, after [isAuthenticated] has been stored. *)
Lemma handleSubmit_rejects_valid_credentials :
  passes_validation short_email /\
  passes_validation long_email /\
  handleSubmit (up_to 40) short_email ∅
  = (mkState (js "a@b.co") (js "123456") ([], []) (true, true) true,
     <[js "userEmail" := js "a@b.co"]>
       (<[js "isAuthenticated" := js "true"]> ∅),
     [Sleep 1000;
      Toast (js "success") (js "Login successful!");
      Navigate (js "/chat")]) /\
  handleSubmit (up_to 40) long_email ∅
  = (mkState (js "nobody@example.invalid") (js "not my password") ([], [])
       (true, true) false,
     <[js "isAuthenticated" := js "true"]> ∅,
     [Sleep 1000;
      Toast (js "error") (js "Login failed. Please try again.")]) /\
  ~ accepted_as_claimed (up_to 40) long_email ∅.
Proof.
  assert (P1 : passes_validation short_email)
    by (split; [vm_compute; reflexivity | vm_compute; lia]).
  assert (P2 : passes_validation long_email)
    by (split; [vm_compute; reflexivity | vm_compute; lia]).
  assert (E2 : handleSubmit (up_to 40) long_email ∅
               = (mkState (js "nobody@example.invalid") (js "not my password")
                    ([], []) (true, true) false,
                  <[js "isAuthenticated" := js "true"]> ∅,
                  [Sleep 1000;
                   Toast (js "error") (js "Login failed. Please try again.")])).
  { rewrite (handleSubmit_valid _ _ _ P2). vm_compute. reflexivity. }
  split; [exact P1|]. split; [exact P2|].
  split; [rewrite (handleSubmit_valid _ _ _ P1); vm_compute; reflexivity|].
  split; [exact E2|].
  unfold accepted_as_claimed. rewrite E2. intros (_ & _ & [H | [H | []]]);
    discriminate H.
Qed.

End Login.

(* ================================================================== *)
(** * What the regular expressions of the pages accept *)
(* ================================================================== *)

Module Regex.
Import JS.

(** The strings a regular expression matches from end to end. *)
Inductive matches : regex -> jsstring -> Prop :=
| matches_eps : matches Eps []
| matches_class p c : p c = true -> matches (Class p) [c]
| matches_cat a b s t :
    matches a s -> matches b t -> matches (Cat a b) (s ++ t)
| matches_alt_l a b s : matches a s -> matches (Alt a b) s
| matches_alt_r a b s : matches b s -> matches (Alt a b) s
| matches_star_nil a : matches (Star a) []
| matches_star_more a s t :
    matches a s -> matches (Star a) t -> matches (Star a) (s ++ t).

Lemma matches_class_inv (p : N -> bool) (s : jsstring) :
  matches (Class p) s -> exists c, s = [c] /\ p c = true.
Proof. inversion 1; subst. eauto. Qed.

Lemma matches_cat_inv (a b : regex) (s : jsstring) :
  matches (Cat a b) s ->
  exists u t, s = u ++ t /\ matches a u /\ matches b t.
Proof. inversion 1; subst. eauto. Qed.

Lemma nullable_matches (r : regex) : nullable r = true <-> matches r [].
Proof.
  induction r as [| |p|a IHa b IHb|a IHa b IHb|a IHa]; simpl.
  - split; [discriminate | inversion 1].
  - split; [constructor | reflexivity].
  - split; [discriminate | inversion 1].
  - rewrite andb_true_iff, IHa, IHb. split.
    + intros [Ha Hb]. exact (matches_cat a b [] [] Ha Hb).
    + intros H. destruct (matches_cat_inv _ _ _ H) as (u & t & E & Hu & Ht).
      symmetry in E. apply app_eq_nil in E. destruct E as [-> ->]. auto.
  - rewrite orb_true_iff, IHa, IHb. split.
    + intros [H | H]; [apply matches_alt_l | apply matches_alt_r]; exact H.
    + inversion 1; subst; auto.
  - split; [constructor | reflexivity].
Qed.

(** A match of [Star a] that starts with [c] starts with a match of [a]
    that starts with [c]. *)
Lemma matches_star_cons (a : regex) (c : N) (s : jsstring) :
  matches (Star a) (c :: s) ->
  exists s1 s2, s = s1 ++ s2 /\ matches a (c :: s1) /\ matches (Star a) s2.
Proof.
  intros H. remember (Star a) as r eqn:Er. remember (c :: s) as w eqn:Ew.
  revert s Ew.
  induction H as [| | | | | |a' u t Hu _ Ht IHt]; intros rest Erest;
    try discriminate.
  injection Er as ->. destruct u as [|d u].
  - simpl in Erest. exact (IHt eq_refl rest Erest).
  - simpl in Erest. injection Erest as -> <-. exists u, t. auto.
Qed.

Lemma deriv_matches (r : regex) (c : N) (s : jsstring) :
  matches (deriv c r) s <-> matches r (c :: s).
Proof.
  revert s. induction r as [| |p|a IHa b IHb|a IHa b IHb|a IHa]; intros s;
    simpl.
  - split; inversion 1.
  - split; inversion 1.
  - destruct (p c) eqn:E; split.
    + inversion 1; subst. constructor. exact E.
    + inversion 1; subst. constructor.
    + inversion 1.
    + inversion 1; subst. congruence.
  - assert (Hcat : matches (Cat (deriv c a) b) s ->
                   matches (Cat a b) (c :: s)).
    { intros H. destruct (matches_cat_inv _ _ _ H) as (u & t & -> & Hu & Ht).
      apply IHa in Hu. exact (matches_cat a b (c :: u) t Hu Ht). }
    assert (Hsplit : matches (Cat a b) (c :: s) ->
                     matches (Cat (deriv c a) b) s
                     \/ (matches a [] /\ matches b (c :: s))).
    { intros H. destruct (matches_cat_inv _ _ _ H) as (u & t & E & Hu & Ht).
      destruct u as [|d u]; simpl in E.
      - subst t. right. auto.
      - injection E as <- ->. left. apply IHa in Hu.
        exact (matches_cat _ _ _ _ Hu Ht). }
    destruct (nullable a) eqn:En; split.
    + inversion 1; subst; [auto|].
      apply nullable_matches in En.
      match goal with H : matches (deriv c b) s |- _ => apply IHb in H;
        exact (matches_cat a b [] (c :: s) En H) end.
    + intros H. destruct (Hsplit H) as [H1 | [_ H2]].
      * apply matches_alt_l. exact H1.
      * apply matches_alt_r, IHb. exact H2.
    + exact Hcat.
    + intros H. destruct (Hsplit H) as [H1 | [H2 _]]; [exact H1|].
      apply nullable_matches in H2. congruence.
  - split.
    + inversion 1; subst;
        [apply matches_alt_l, IHa | apply matches_alt_r, IHb]; assumption.
    + inversion 1; subst;
        [apply matches_alt_l, IHa | apply matches_alt_r, IHb]; assumption.
  - split.
    + intros H. destruct (matches_cat_inv _ _ _ H) as (u & t & -> & Hu & Ht).
      apply IHa in Hu. exact (matches_star_more a (c :: u) t Hu Ht).
    + intros H. destruct (matches_star_cons _ _ _ H) as (u & t & -> & Hu & Ht).
      apply matches_cat; [apply IHa; exact Hu | exact Ht].
Qed.

(** The derivative matcher decides [matches]. *)
Lemma test_anchored_matches (r : regex) (s : jsstring) :
  test_anchored r s = true <-> matches r s.
Proof.
  unfold test_anchored. revert r. induction s as [|c s IH]; intros r; simpl.
  - apply nullable_matches.
  - rewrite IH. apply deriv_matches.
Qed.

(** [[class]+] matches the non-empty strings of the class. *)
Lemma matches_plus_class (p : N -> bool) (s : jsstring) :
  matches (Plus (Class p)) s <-> s <> [] /\ forallb p s = true.
Proof.
  assert (Hstar : forall t, matches (Star (Class p)) t -> forallb p t = true).
  { intros t H. remember (Star (Class p)) as r eqn:Er.
    induction H as [| | | | | |a u v Hu _ Hv IHv]; try discriminate.
    - reflexivity.
    - injection Er as ->.
      destruct (matches_class_inv _ _ Hu) as (c & -> & Hc). simpl.
      rewrite (IHv eq_refl), Hc. reflexivity. }
  assert (Hall : forall t, forallb p t = true -> matches (Star (Class p)) t).
  { induction t as [|c t IH]; simpl; intros H; [constructor|].
    apply andb_true_iff in H. destruct H as [Hc Ht].
    exact (matches_star_more (Class p) [c] t (matches_class p c Hc) (IH Ht)). }
  unfold Plus. split.
  - intros H. destruct (matches_cat_inv _ _ _ H) as (u & t & -> & Hu & Ht).
    destruct (matches_class_inv _ _ Hu) as (c & -> & Hc). simpl.
    split; [discriminate|]. apply andb_true_iff. auto.
  - intros [Hne H]. destruct s as [|c s]; [congruence|]. simpl in H.
    apply andb_true_iff in H. destruct H as [Hc Hs].
    exact (matches_cat (Class p) (Star (Class p)) [c] s
             (matches_class p c Hc) (Hall s Hs)).
Qed.

(** [r] matches a prefix of [s]. *)
Fixpoint prefix_matches (r : regex) (s : jsstring) : bool :=
  nullable r ||
  match s with
  | [] => false
  | c :: s' => prefix_matches (deriv c r) s'
  end.

(** [/r/.test(s)] without anchors: [r] matches somewhere in [s]. *)
Fixpoint test_search (r : regex) (s : jsstring) : bool :=
  prefix_matches r s ||
  match s with
  | [] => false
  | _ :: s' => test_search r s'
  end.

Lemma prefix_matches_Empty (s : jsstring) : prefix_matches Empty s = false.
Proof. induction s as [|c s IH]; simpl; [reflexivity | exact IH]. Qed.

(** A class matches somewhere in [s] when a unit of [s] is in it. *)
Lemma test_search_class (p : N -> bool) (s : jsstring) :
  test_search (Class p) s = existsb p s.
Proof.
  induction s as [|c s IH]; [reflexivity|].
  cbn [test_search prefix_matches nullable deriv existsb orb]. rewrite IH.
  destruct (p c).
  - destruct s; reflexivity.
  - rewrite prefix_matches_Empty. reflexivity.
Qed.

End Regex.

(* ================================================================== *)
(** * More of the login page *)
(* ================================================================== *)

Module LoginChecks.
Import JS Browser Regex Login.

(** [local@domain.tld]: three non-empty parts without white space or
    [@], the first two separated by [@], the last two by a dot. *)
Definition email_shape (e : jsstring) : Prop :=
  exists a b c,
    e = a ++ [64%N] ++ b ++ [46%N] ++ c /\
    a <> [] /\ b <> [] /\ c <> [] /\
    forallb not_space_or_at a = true /\
    forallb not_space_or_at b = true /\
    forallb not_space_or_at c = true.

(** [s.split('@')[0]] *)
Fixpoint before_at (s : jsstring) : jsstring :=
  match s with
  | [] => []
  | c :: s' => if (c =? 64)%N then [] else c :: before_at s'
  end.

Lemma validateEmail_empty_iff (e : jsstring) :
  validateEmail e = [] <-> test_anchored emailRegex e = true.
Proof.
  split; [|apply validateEmail_accepts].
  destruct e as [|c e]; [discriminate|]. unfold validateEmail.
  destruct (test_anchored emailRegex (c :: e)); [reflexivity | discriminate].
Qed.

Lemma validatePassword_empty_iff (p : jsstring) :
  validatePassword p = [] <-> (6 <= str_length p)%nat.
Proof.
  split; [|apply validatePassword_accepts].
  destruct p as [|c p]; [discriminate|]. unfold validatePassword.
  destruct (str_length (c :: p) <? 6)%nat eqn:E; [discriminate|].
  intros _. apply Nat.ltb_ge in E. exact E.
Qed.

Lemma emailRegex_shape (e : jsstring) : matches emailRegex e <-> email_shape e.
Proof.
  unfold emailRegex, email_shape. split.
  - intros H.
    destruct (matches_cat_inv _ _ _ H) as (a & r1 & -> & Ha & H1).
    destruct (matches_cat_inv _ _ _ H1) as (at' & r2 & -> & Hat & H2).
    destruct (matches_cat_inv _ _ _ H2) as (b & r3 & -> & Hb & H3).
    destruct (matches_cat_inv _ _ _ H3) as (dot & c & -> & Hdot & Hc).
    destruct (matches_class_inv _ _ Hat) as (x & -> & Hx).
    destruct (matches_class_inv _ _ Hdot) as (y & -> & Hy).
    apply N.eqb_eq in Hx, Hy. subst x y.
    apply matches_plus_class in Ha, Hb, Hc.
    exists a, b, c. tauto.
  - intros (a & b & c & -> & Ha & Hb & Hc & Pa & Pb & Pc).
    apply matches_cat; [apply matches_plus_class; auto|].
    apply matches_cat; [constructor; reflexivity|].
    apply matches_cat; [apply matches_plus_class; auto|].
    apply matches_cat; [constructor; reflexivity|].
    apply matches_plus_class; auto.
Qed.

Lemma before_at_app (a rest : jsstring) :
  forallb not_space_or_at a = true ->
  before_at (a ++ 64%N :: rest) = a.
Proof.
  induction a as [|c a IH]; simpl; intros H; [reflexivity|].
  apply andb_true_iff in H. destruct H as [Hc Ha].
  unfold not_space_or_at in Hc. apply negb_true_iff, orb_false_iff in Hc.
  destruct Hc as [_ Hc]. rewrite Hc, (IH Ha). reflexivity.
Qed.

(** [validateEmail] reports no error exactly for the strings of the shape
    [local@domain.tld]. *)
Theorem validateEmail_accepts_iff_shape (e : jsstring) :
  validateEmail e = [] <-> email_shape e.
Proof.
  rewrite validateEmail_empty_iff, test_anchored_matches.
  apply emailRegex_shape.
Qed.

(** What a submission that fails the validation leads to. *)
Lemma handleSubmit_invalid (admits : quota) (st : state) (ls : storage) :
  ~ passes_validation st ->
  (validateEmail (email st) <> [] \/ validatePassword (password st) <> []) /\
  handleSubmit admits st ls
  = (mkState (email st) (password st)
       (validateEmail (email st), validatePassword (password st))
       (true, true) (loading st),
     ls,
     [Toast (js "error") (js "Please fix the errors below")]).
Proof.
  intros Hnot. unfold handleSubmit.
  assert (Herr : validateEmail (email st) <> []
                 \/ validatePassword (password st) <> []).
  { destruct (validateEmail (email st)) as [|c m] eqn:Ee;
      [|left; discriminate].
    destruct (validatePassword (password st)) as [|d m] eqn:Ep;
      [|right; discriminate].
    exfalso. apply Hnot. split.
    - apply validateEmail_empty_iff. exact Ee.
    - apply validatePassword_empty_iff. exact Ep. }
  assert (Htruthy : truthy (validateEmail (email st))
                    || truthy (validatePassword (password st)) = true).
  { destruct Herr as [H | H];
      [destruct (validateEmail (email st)) | 
       destruct (validatePassword (password st))];
      try congruence; cbn; rewrite ?orb_true_r; reflexivity. }
  rewrite Htruthy. split; [exact Herr | reflexivity].
Qed.

(** Whether a submission passes the validation can be told. *)
Lemma passes_validation_dec (st : state) :
  passes_validation st \/ ~ passes_validation st.
Proof.
  unfold passes_validation.
  destruct (test_anchored emailRegex (email st));
    [|right; intros [H _]; discriminate H].
  destruct (le_dec 6 (str_length (password st))) as [H | H].
  - left. split; [reflexivity | exact H].
  - right. intros [_ H']. exact (H H').
Qed.

(** A submission that fails the validation changes nothing outside the
    form: [localStorage] is as before, the only effect is the error toast,
    and at least one field carries an error message. *)
Theorem handleSubmit_rejects (admits : quota) (st : state) (ls : storage) :
  ~ passes_validation st ->
  let '(st', ls', effects) := handleSubmit admits st ls in
  ls' = ls /\
  effects = [Toast (js "error") (js "Please fix the errors below")] /\
  existsb is_fetch effects = false /\
  ~ In (Navigate (js "/chat")) effects /\
  loading st' = loading st /\
  touched st' = (true, true) /\
  errors st' = (validateEmail (email st), validatePassword (password st)) /\
  (validateEmail (email st) <> [] \/ validatePassword (password st) <> []).
Proof.
  intros Hnot.
  destruct (handleSubmit_invalid admits st ls Hnot) as [Herr ->].
  cbn [loading touched errors].
  repeat (split; [reflexivity|]).
  split; [intros [E | []]; discriminate E|].
  repeat (split; [reflexivity|]). exact Herr.
Qed.

Lemma handleSubmit_rejects_witness :
  ~ passes_validation
      (mkState (js "not an email") (js "123456") ([], []) (false, false)
         false) /\
  snd (fst (handleSubmit unlimited
              (mkState (js "not an email") (js "123456") ([], [])
                 (false, false) false) ∅)) = ∅.
Proof.
  assert (N : ~ passes_validation
                  (mkState (js "not an email") (js "123456") ([], [])
                     (false, false) false)).
  { intros [H _]. vm_compute in H. discriminate H. }
  split; [exact N|].
  pose proof (handleSubmit_rejects unlimited
                (mkState (js "not an email") (js "123456") ([], [])
                   (false, false) false) ∅ N) as H.
  destruct (handleSubmit _ _ ∅) as [[st' ls'] effects]. exact (proj1 H).
Defined.

End LoginChecks.

(* ================================================================== *)
(** * The sign-up page: [frontend/src/pages/Signup.jsx] *)
(* ================================================================== *)

Module Signup.
Import JS Browser Regex.

Local Open Scope string_scope.

(** [[A-Z]], [[a-z]], [[0-9]] and [[^A-Za-z0-9]] *)
Definition upper_case (c : N) : bool := ((65 <=? c) && (c <=? 90))%N.
Definition lower_case (c : N) : bool := ((97 <=? c) && (c <=? 122))%N.
Definition digit (c : N) : bool := ((48 <=? c) && (c <=? 57))%N.
Definition not_alphanumeric (c : N) : bool :=
  negb (upper_case c || lower_case c || digit c).

Definition validateName (name : jsstring) : jsstring :=
  match name with
  | [] => js "Name is required"
  | _ :: _ =>
      if (str_length name <? 2)%nat
      then js "Name must be at least 2 characters"
      else []
  end.

(** The same expression as on the login page. *)
Definition validateEmail (email : jsstring) : jsstring :=
  match email with
  | [] => js "Email is required"
  | _ :: _ =>
      if negb (test_anchored Login.emailRegex email)
      then js "Please enter a valid email"
      else []
  end.

Definition validatePassword (password : jsstring) : jsstring :=
  match password with
  | [] => js "Password is required"
  | _ :: _ =>
      if (str_length password <? 6)%nat
      then js "Password must be at least 6 characters"
      else if negb (test_search (Class upper_case) password)
      then js "Password should include an uppercase letter"
      else if negb (test_search (Class digit) password)
      then js "Password should include a number"
      else []
  end.

(** [validateConfirmPassword], with the [password] of the state it reads. *)
Definition validateConfirmPassword (password confirmPassword : jsstring)
  : jsstring :=
  match confirmPassword with
  | [] => js "Please confirm your password"
  | _ :: _ =>
      if negb (jsstring_eqb confirmPassword password)
      then js "Passwords do not match"
      else []
  end.

Definition labels : list jsstring :=
  [[]; js "Weak"; js "Fair"; js "Good"; js "Strong"; js "Very Strong"].

Definition increment (b : bool) : nat := if b then 1 else 0.

(** [getPasswordStrength()]: the strength and [labels[strength]], which is
    [None] where JavaScript has [undefined]. *)
Definition getPasswordStrength (password : jsstring) : nat * option jsstring :=
  match password with
  | [] => (0, Some [])
  | _ :: _ =>
      let strength :=
        increment (6 <=? str_length password)%nat
        + increment (10 <=? str_length password)%nat
        + increment (test_search (Class upper_case) password)
        + increment (test_search (Class digit) password)
        + increment (test_search (Class not_alphanumeric) password) in
      (strength, nth_error labels strength)
  end.

(** [errors] and [touched], one entry per field. *)
Record field_errors : Type := mkErrors {
  name_error : jsstring;
  email_error : jsstring;
  password_error : jsstring;
  confirmPassword_error : jsstring
}.

Record state : Type := mkState {
  name : jsstring;
  email : jsstring;
  password : jsstring;
  confirmPassword : jsstring;
  errors : field_errors;
  touched : bool * bool * bool * bool;
  loading : bool
}.

Definition truthy (s : jsstring) : bool :=
  match s with
  | [] => false
  | _ :: _ => true
  end.

(** [handleSubmit]: the new state, the new [localStorage] and the effects
    in order; as on the login page a [setItem] that throws leads to the
    [catch] branch, and what was stored before stays stored. *)
Definition handleSubmit (admits : quota) (st : state) (ls : storage)
  : state * storage * list effect :=
  let allErrors :=
    mkErrors (validateName (name st)) (validateEmail (email st))
      (validatePassword (password st))
      (validateConfirmPassword (password st) (confirmPassword st)) in
  let st1 :=
    mkState (name st) (email st) (password st) (confirmPassword st) allErrors
      (true, true, true, true) (loading st) in
  let hasErrors :=
    existsb truthy
      [name_error allErrors; email_error allErrors; password_error allErrors;
       confirmPassword_error allErrors] in
  if hasErrors then
    (st1, ls, [Toast (js "error") (js "Please fix the errors below")])
  else
    let caught (ls' : storage) :=
      (mkState (name st) (email st) (password st) (confirmPassword st)
         allErrors (true, true, true, true) false,
       ls',
       [Sleep 1000;
        Toast (js "error") (js "Registration failed. Please try again.")]) in
    match setItem admits (js "isAuthenticated") (js "true") ls with
    | None => caught ls
    | Some ls1 =>
        match setItem admits (js "userEmail") (email st) ls1 with
        | None => caught ls1
        | Some ls2 =>
            match setItem admits (js "userName") (name st) ls2 with
            | None => caught ls2
            | Some ls3 =>
                (mkState (name st) (email st) (password st)
                   (confirmPassword st) allErrors (true, true, true, true)
                   true,
                 ls3,
                 [Sleep 1000;
                  Toast (js "success") (js "Account created successfully!");
                  Navigate (js "/chat")])
            end
        end
    end.

(** The user agent stores the three items of a sign-up. *)
Definition stores (admits : quota) (st : state) (ls : storage) : bool :=
  admits ls (js "isAuthenticated") (js "true")
  && admits (<[js "isAuthenticated" := js "true"]> ls) (js "userEmail")
       (email st)
  && admits (<[js "userEmail" := email st]>
               (<[js "isAuthenticated" := js "true"]> ls))
       (js "userName") (name st).

(** What the form must hold for the account to be created. *)
Definition acceptable (st : state) : Prop :=
  (2 <= str_length (name st))%nat /\
  LoginChecks.email_shape (email st) /\
  (6 <= str_length (password st))%nat /\
  existsb upper_case (password st) = true /\
  existsb digit (password st) = true /\
  confirmPassword st = password st.

Lemma validateName_empty_iff (n : jsstring) :
  validateName n = [] <-> (2 <= str_length n)%nat.
Proof.
  destruct n as [|c n]; [split; [discriminate | simpl; lia]|].
  unfold validateName.
  destruct (str_length (c :: n) <? 2)%nat eqn:E.
  - apply Nat.ltb_lt in E. split; [discriminate | lia].
  - apply Nat.ltb_ge in E. split; [intros _; exact E | reflexivity].
Qed.

Lemma signup_validateEmail_empty_iff (e : jsstring) :
  validateEmail e = [] <-> LoginChecks.email_shape e.
Proof.
  rewrite <- LoginChecks.emailRegex_shape, <- test_anchored_matches.
  destruct e as [|c e]; [split; [discriminate | intros H; vm_compute in H; discriminate H]|].
  unfold validateEmail.
  destruct (test_anchored Login.emailRegex (c :: e));
    split; try reflexivity; discriminate.
Qed.

Lemma signup_validatePassword_empty_iff (p : jsstring) :
  validatePassword p = [] <->
  (6 <= str_length p)%nat /\ existsb upper_case p = true
  /\ existsb digit p = true.
Proof.
  destruct p as [|c p]; [split; [discriminate | simpl; lia]|].
  unfold validatePassword. rewrite !test_search_class.
  destruct (str_length (c :: p) <? 6)%nat eqn:E.
  - apply Nat.ltb_lt in E. split; [discriminate | lia].
  - apply Nat.ltb_ge in E.
    destruct (existsb upper_case (c :: p)); cbn [negb];
      [|split; [discriminate | intros (_ & H & _); discriminate H]].
    destruct (existsb digit (c :: p)); cbn [negb];
      [|split; [discriminate | intros (_ & _ & H); discriminate H]].
    split; [auto | reflexivity].
Qed.

Lemma validateConfirmPassword_empty_iff (p confirm : jsstring) :
  validateConfirmPassword p confirm = [] <-> confirm <> [] /\ confirm = p.
Proof.
  destruct confirm as [|c confirm];
    [split; [discriminate | intros [H _]; congruence]|].
  unfold validateConfirmPassword.
  destruct (jsstring_eqb (c :: confirm) p) eqn:E; cbn [negb].
  - apply jsstring_eqb_eq in E. split; [intros _; split; [discriminate | exact E] | reflexivity].
  - split; [discriminate|]. intros [_ H]. apply jsstring_eqb_eq in H.
    congruence.
Qed.

Lemma truthy_false_iff (s : jsstring) : truthy s = false <-> s = [].
Proof. destruct s; split; try reflexivity; discriminate. Qed.

(** A password the sign-up page accepts has six units or more, an
    upper-case letter and a digit, and only such a password is accepted;
    the login page accepts it too. *)
Theorem validatePassword_stricter_than_login (p : jsstring) :
  (validatePassword p = [] <->
   (6 <= str_length p)%nat /\ existsb upper_case p = true
   /\ existsb digit p = true) /\
  (validatePassword p = [] -> Login.validatePassword p = []).
Proof.
  split; [apply signup_validatePassword_empty_iff|].
  intros H. apply signup_validatePassword_empty_iff in H.
  apply Login.validatePassword_accepts. tauto.
Qed.

Lemma validatePassword_stricter_than_login_witness :
  validatePassword (js "Secret12") = [] /\
  Login.validatePassword (js "Secret12") = [] /\
  Login.validatePassword (js "secret") = [] /\
  validatePassword (js "secret")
  = js "Password should include an uppercase letter".
Proof.
  assert (H : validatePassword (js "Secret12") = [])
    by (vm_compute; reflexivity).
  split; [exact H|].
  split; [exact (proj2 (validatePassword_stricter_than_login _) H)|].
  split; vm_compute; reflexivity.
Defined.

(** The strength is between 0 and 5 and always has a label; an empty
    password has strength 0 and the empty label, and a password the page
    accepts has strength 3 or more. *)
Theorem getPasswordStrength_range (p : jsstring) :
  (fst (getPasswordStrength p) <= 5)%nat /\
  snd (getPasswordStrength p)
  = Some (nth (fst (getPasswordStrength p)) labels []) /\
  (p = [] -> getPasswordStrength p = (0%nat, Some [])) /\
  (validatePassword p = [] -> (3 <= fst (getPasswordStrength p))%nat).
Proof.
  destruct p as [|c p].
  - repeat split; try reflexivity; [simpl; lia | discriminate].
  - unfold getPasswordStrength. cbn [fst snd].
    rewrite !test_search_class.
    set (s := str_length (c :: p)).
    split; [|split; [|split]].
    + destruct (6 <=? s)%nat, (10 <=? s)%nat, (existsb upper_case (c :: p)),
        (existsb digit (c :: p)), (existsb not_alphanumeric (c :: p));
        cbn; lia.
    + destruct (6 <=? s)%nat, (10 <=? s)%nat, (existsb upper_case (c :: p)),
        (existsb digit (c :: p)), (existsb not_alphanumeric (c :: p));
        reflexivity.
    + discriminate.
    + intros H. apply signup_validatePassword_empty_iff in H.
      destruct H as (H6 & Hu & Hd). fold s in H6.
      apply Nat.leb_le in H6. rewrite H6, Hu, Hd.
      destruct (10 <=? s)%nat, (existsb not_alphanumeric (c :: p)); cbn; lia.
Qed.

(** The validation of the form fails exactly when the form is not
    acceptable. *)
Lemma hasErrors_iff (st : state) :
  existsb truthy
    [validateName (name st); validateEmail (email st);
     validatePassword (password st);
     validateConfirmPassword (password st) (confirmPassword st)] = false
  <-> acceptable st.
Proof.
  cbn [existsb].
  rewrite !orb_false_iff, !truthy_false_iff.
  rewrite validateName_empty_iff, signup_validateEmail_empty_iff,
    signup_validatePassword_empty_iff, validateConfirmPassword_empty_iff.
  unfold acceptable. split.
  - intros (Hn & He & (H6 & Hu & Hd) & (_ & Hc) & _). auto 10.
  - intros (Hn & He & H6 & Hu & Hd & Hc).
    repeat split; try assumption.
    rewrite Hc. intros E. rewrite E in H6. simpl in H6. lia.
Qed.

Lemma acceptable_dec (st : state) : acceptable st \/ ~ acceptable st.
Proof.
  destruct (existsb truthy
              [validateName (name st); validateEmail (email st);
               validatePassword (password st);
               validateConfirmPassword (password st) (confirmPassword st)])
    eqn:E.
  - right. intros A. apply hasErrors_iff in A. congruence.
  - left. apply hasErrors_iff. exact E.
Qed.

(** What an acceptable form leads to, by what the user agent stores. *)
Lemma handleSubmit_acceptable (admits : quota) (st : state) (ls : storage) :
  acceptable st ->
  let filled (busy : bool) :=
    mkState (name st) (email st) (password st) (confirmPassword st)
      (mkErrors [] [] [] []) (true, true, true, true) busy in
  let failure :=
    [Sleep 1000;
     Toast (js "error") (js "Registration failed. Please try again.")] in
  handleSubmit admits st ls
  = if admits ls (js "isAuthenticated") (js "true") then
      if admits (<[js "isAuthenticated" := js "true"]> ls) (js "userEmail")
           (email st)
      then
        if admits (<[js "userEmail" := email st]>
                     (<[js "isAuthenticated" := js "true"]> ls))
             (js "userName") (name st)
        then
          (filled true,
           <[js "userName" := name st]>
             (<[js "userEmail" := email st]>
                (<[js "isAuthenticated" := js "true"]> ls)),
           [Sleep 1000;
            Toast (js "success") (js "Account created successfully!");
            Navigate (js "/chat")])
        else
          (filled false,
           <[js "userEmail" := email st]>
             (<[js "isAuthenticated" := js "true"]> ls),
           failure)
      else (filled false, <[js "isAuthenticated" := js "true"]> ls, failure)
    else (filled false, ls, failure).
Proof.
  intros A filled failure. subst filled failure.
  pose proof (proj2 (hasErrors_iff st) A) as E.
  pose proof E as E'. cbn [existsb] in E'.
  rewrite !orb_false_iff, !truthy_false_iff in E'.
  destruct E' as (En & Ee & Ep & Ec & _).
  unfold handleSubmit, setItem.
  cbn [name_error email_error password_error confirmPassword_error].
  rewrite E, En, Ee, Ep, Ec.
  destruct (admits ls _ _); [|reflexivity].
  destruct (admits (<[js "isAuthenticated" := js "true"]> ls) _ _);
    [|reflexivity].
  destruct (admits _ _ _); reflexivity.
Qed.

(** What a form that is not acceptable leads to. *)
Lemma handleSubmit_unacceptable (admits : quota) (st : state) (ls : storage) :
  ~ acceptable st ->
  handleSubmit admits st ls
  = (mkState (name st) (email st) (password st) (confirmPassword st)
       (mkErrors (validateName (name st)) (validateEmail (email st))
          (validatePassword (password st))
          (validateConfirmPassword (password st) (confirmPassword st)))
       (true, true, true, true) (loading st),
     ls,
     [Toast (js "error") (js "Please fix the errors below")]).
Proof.
  intros Hnot. unfold handleSubmit.
  cbn [name_error email_error password_error confirmPassword_error].
  destruct (existsb truthy _) eqn:E; [reflexivity|].
  exfalso. apply Hnot, hasErrors_iff. exact E.
Qed.

(** The account is created exactly when the form is acceptable and
    [localStorage] takes the three items: then they are stored and the
    page moves to [/chat].  When the form is acceptable and an item is
    refused, the failure is shown, [loading] is cleared, the name is not
    stored and the page does not move; when the form is not acceptable,
    [localStorage] is as before and the only effect is the error toast. *)
Theorem handleSubmit_registers_iff (admits : quota) (st : state)
  (ls : storage) :
  let '(st', ls', effects) := handleSubmit admits st ls in
  (acceptable st -> stores admits st ls = true ->
   ls' = <[js "userName" := name st]>
           (<[js "userEmail" := email st]>
              (<[js "isAuthenticated" := js "true"]> ls))
   /\ effects = [Sleep 1000;
                 Toast (js "success") (js "Account created successfully!");
                 Navigate (js "/chat")]
   /\ loading st' = true) /\
  (acceptable st -> stores admits st ls = false ->
   effects = [Sleep 1000;
              Toast (js "error") (js "Registration failed. Please try again.")]
   /\ loading st' = false
   /\ getItem (js "userName") ls' = getItem (js "userName") ls
   /\ (ls' = ls
       \/ ls' = <[js "isAuthenticated" := js "true"]> ls
       \/ ls' = <[js "userEmail" := email st]>
                  (<[js "isAuthenticated" := js "true"]> ls))) /\
  (~ acceptable st ->
   ls' = ls
   /\ effects = [Toast (js "error") (js "Please fix the errors below")]
   /\ loading st' = loading st) /\
  (In (Navigate (js "/chat")) effects
   <-> acceptable st /\ stores admits st ls = true).
Proof.
  assert (K1 : js "isAuthenticated" <> js "userName")
    by (vm_compute; discriminate).
  assert (K2 : js "userEmail" <> js "userName")
    by (vm_compute; discriminate).
  destruct (acceptable_dec st) as [A | N].
  - rewrite (handleSubmit_acceptable admits st ls A). unfold stores, getItem.
    destruct (admits ls (js "isAuthenticated") (js "true")); cbn [andb].
    + destruct (admits (<[js "isAuthenticated" := js "true"]> ls)
                  (js "userEmail") (email st)); cbn [andb].
      * destruct (admits _ (js "userName") (name st)); cbn [loading].
        -- split; [intros _ _; repeat split; reflexivity|].
           split; [intros _ H; discriminate H|].
           split; [intros H; contradiction|].
           split; [intros _; split; [exact A | reflexivity]|].
           intros _. right. right. left. reflexivity.
        -- split; [intros _ H; discriminate H|].
           split.
           { intros _ _. rewrite !lookup_insert_ne by assumption.
             repeat split; try reflexivity. right. right. reflexivity. }
           split; [intros H; contradiction|].
           split; [intros [H | [H | []]]; discriminate H|].
           intros [_ H]. discriminate H.
      * cbn [loading].
        split; [intros _ H; discriminate H|].
        split.
        { intros _ _. rewrite !lookup_insert_ne by assumption.
          repeat split; try reflexivity. right. left. reflexivity. }
        split; [intros H; contradiction|].
        split; [intros [H | [H | []]]; discriminate H|].
        intros [_ H]. discriminate H.
    + cbn [loading].
      split; [intros _ H; discriminate H|].
      split.
      { intros _ _. repeat split; try reflexivity. left. reflexivity. }
      split; [intros H; contradiction|].
      split; [intros [H | [H | []]]; discriminate H|].
      intros [_ H]. discriminate H.
  - rewrite (handleSubmit_unacceptable admits st ls N). cbn [loading].
    split; [intros A; contradiction|]. split; [intros A; contradiction|].
    split; [intros _; repeat split; reflexivity|].
    split; [intros [H | []]; discriminate H|].
    intros [A _]. contradiction.
Qed.

Definition asha : state :=
  mkState (js "Asha") (js "asha@example.org") (js "Secret12") (js "Secret12")
    (mkErrors [] [] [] []) (false, false, false, false) false.

Lemma asha_acceptable : acceptable asha.
Proof.
  unfold acceptable, asha. cbn [name email password confirmPassword].
  split; [vm_compute; lia|].
  split; [apply LoginChecks.emailRegex_shape, test_anchored_matches;
          vm_compute; reflexivity|].
  split; [vm_compute; lia|].
  repeat split; vm_compute; reflexivity.
Qed.

(** With room for 60 code units the account of Asha is created; with room
    for 40 the email is refused after [isAuthenticated] has been
    stored. *)
Lemma handleSubmit_registers_iff_witness :
  acceptable asha /\
  stores (up_to 60) asha ∅ = true /\
  stores (up_to 40) asha ∅ = false /\
  snd (handleSubmit (up_to 60) asha ∅)
  = [Sleep 1000;
     Toast (js "success") (js "Account created successfully!");
     Navigate (js "/chat")] /\
  snd (handleSubmit (up_to 40) asha ∅)
  = [Sleep 1000;
     Toast (js "error") (js "Registration failed. Please try again.")].
Proof.
  pose proof asha_acceptable as A.
  assert (S60 : stores (up_to 60) asha ∅ = true) by (vm_compute; reflexivity).
  assert (S40 : stores (up_to 40) asha ∅ = false) by (vm_compute; reflexivity).
  split; [exact A|]. split; [exact S60|]. split; [exact S40|]. split.
  - pose proof (handleSubmit_registers_iff (up_to 60) asha ∅) as H.
    destruct (handleSubmit (up_to 60) asha ∅) as [[st' ls'] effects].
    exact (proj1 (proj2 (proj1 H A S60))).
  - pose proof (handleSubmit_registers_iff (up_to 40) asha ∅) as H.
    destruct (handleSubmit (up_to 40) asha ∅) as [[st' ls'] effects].
    exact (proj1 (proj1 (proj2 H) A S40)).
Defined.

End Signup.

(* ================================================================== *)
(** * The session the pages share through [localStorage] *)
(* ================================================================== *)

Module Session.
Import JS Browser LoginChecks.

Local Open Scope string_scope.

(** [fetch(`${API_BASE}/health`)] *)
Definition health_request (VITE_API_URL : option jsstring) : request :=
  mkRequest (concat (Chat.API_BASE VITE_API_URL) (js "/health")) (js "GET")
    [] [].

(** The first effect of the chat page ([Chat.jsx]): without a truthy
    [isAuthenticated] it redirects to [/login], otherwise it goes on to
    [checkConnection]. *)
Definition authGuard (VITE_API_URL : option jsstring) (ls : storage)
  : list effect :=
  match getItem (js "isAuthenticated") ls with
  | Some (_ :: _) => [Fetch (health_request VITE_API_URL)]
  | _ => [Navigate (js "/login")]
  end.

(** [checkConnection] from the response on: [isConnected] and the toast;
    [None] when the [fetch] threw. *)
Definition checkConnection (ok : option bool) : bool * effect :=
  match ok with
  | Some true => (true, Toast (js "success") (js "Connected to Legal AI server"))
  | Some false =>
      (false, Toast (js "warning") (js "Server is not responding properly"))
  | None =>
      (false,
       Toast (js "error")
         (js "Could not connect to server. Please ensure the backend is running."))
  end.

(** [handleLogout] of the chat page. *)
Definition handleLogout (ls : storage) : storage * list effect :=
  (delete (js "userName")
     (delete (js "userEmail") (delete (js "isAuthenticated") ls)),
   [Toast (js "success") (js "Logged out successfully");
    Navigate (js "/")]).

(** [localStorage.getItem('userName')
     || localStorage.getItem('userEmail')?.split('@')[0] || 'User'] *)
Definition userName (ls : storage) : jsstring :=
  match getItem (js "userName") ls with
  | Some (c :: rest) => c :: rest
  | _ =>
      match getItem (js "userEmail") ls with
      | Some e =>
          match before_at e with
          | c :: rest => c :: rest
          | [] => js "User"
          end
      | None => js "User"
      end
  end.

(** None of the three keys of the session is in the storage. *)
Definition signed_out (ls : storage) : Prop :=
  getItem (js "isAuthenticated") ls = None /\
  getItem (js "userEmail") ls = None /\
  getItem (js "userName") ls = None.

Lemma keys_differ :
  js "isAuthenticated" <> js "userEmail" /\
  js "isAuthenticated" <> js "userName" /\
  js "userEmail" <> js "userName".
Proof. repeat split; vm_compute; discriminate. Qed.

(** The local part of an accepted email is what stands before its [@],
    and is not empty. *)
Lemma before_at_accepted (e : jsstring) :
  test_anchored Login.emailRegex e = true ->
  exists local rest,
    e = (local ++ 64%N :: rest)%list /\ before_at e = local /\ local <> [].
Proof.
  intros H. apply Regex.test_anchored_matches, emailRegex_shape in H.
  destruct H as (a & b & c & -> & Ha & _ & _ & Pa & _ & _).
  exists a, (b ++ [46%N] ++ c)%list. split; [reflexivity|].
  split; [apply before_at_app; exact Pa | exact Ha].
Qed.

(** After a login that moved the page to [/chat], the chat page lets the
    visitor in, and greets with the name a sign-up left in the storage if
    there is one, otherwise with the part of the email before the [@],
    never with the fallback.  The page is moved only when the submission
    passed the validation and both items were stored. *)
Theorem login_then_chat (VITE_API_URL : option jsstring) (admits : quota)
  (st : Login.state) (ls : storage) :
  In (Navigate (js "/chat")) (snd (Login.handleSubmit admits st ls)) ->
  let ls' := snd (fst (Login.handleSubmit admits st ls)) in
  Login.passes_validation st /\
  Login.stores admits st ls = true /\
  authGuard VITE_API_URL ls' = [Fetch (health_request VITE_API_URL)] /\
  before_at (Login.email st) <> [] /\
  userName ls'
  = match getItem (js "userName") ls with
    | Some (c :: rest) => c :: rest
    | _ => before_at (Login.email st)
    end.
Proof.
  destruct keys_differ as (K1 & K2 & K3).
  destruct (passes_validation_dec st) as [P | N].
  - rewrite (Login.handleSubmit_valid admits st ls P). unfold Login.stores.
    destruct (admits ls (js "isAuthenticated") (js "true"));
      [|intros [H | [H | []]]; discriminate H].
    destruct (admits _ (js "userEmail") (Login.email st));
      [|intros [H | [H | []]]; discriminate H].
    intros _. cbn [fst snd andb].
    destruct P as [He Hp].
    destruct (before_at_accepted _ He) as (local & rest & E & Hb & Hne).
    unfold authGuard, userName, getItem.
    rewrite lookup_insert_ne by (apply not_eq_sym; exact K1).
    rewrite lookup_insert_eq.
    rewrite !(lookup_insert_ne _ _ (js "userName")) by auto.
    rewrite lookup_insert_eq.
    split; [split; assumption|]. split; [reflexivity|].
    split; [reflexivity|]. split; [rewrite Hb; exact Hne|].
    destruct (ls !! js "userName") as [[|c r]|]; try reflexivity;
      rewrite Hb; destruct local; congruence.
  - rewrite (proj2 (handleSubmit_invalid admits st ls N)).
    intros [H | []]. discriminate H.
Qed.

Lemma login_then_chat_witness :
  In (Navigate (js "/chat"))
    (snd (Login.handleSubmit unlimited
            (Login.mkState (js "asha@example.org") (js "123456") ([], [])
               (false, false) false) ∅)) /\
  userName
    (snd (fst (Login.handleSubmit unlimited
                 (Login.mkState (js "asha@example.org") (js "123456") ([], [])
                    (false, false) false) ∅)))
  = js "asha".
Proof.
  assert (H : In (Navigate (js "/chat"))
                (snd (Login.handleSubmit unlimited
                        (Login.mkState (js "asha@example.org") (js "123456")
                           ([], []) (false, false) false) ∅)))
    by (vm_compute; auto).
  split; [exact H|].
  rewrite (proj2 (proj2 (proj2 (proj2 (login_then_chat None _ _ ∅ H))))).
  vm_compute. reflexivity.
Defined.

(** After a sign-up that moved the page to [/chat], the chat page lets
    the visitor in and greets with the name typed.  The page is moved
    only when the form was acceptable and the three items were stored. *)
Theorem signup_then_chat (VITE_API_URL : option jsstring) (admits : quota)
  (st : Signup.state) (ls : storage) :
  In (Navigate (js "/chat")) (snd (Signup.handleSubmit admits st ls)) ->
  let ls' := snd (fst (Signup.handleSubmit admits st ls)) in
  Signup.acceptable st /\
  Signup.stores admits st ls = true /\
  authGuard VITE_API_URL ls' = [Fetch (health_request VITE_API_URL)] /\
  userName ls' = Signup.name st.
Proof.
  destruct keys_differ as (K1 & K2 & K3).
  destruct (Signup.acceptable_dec st) as [A | N].
  - rewrite (Signup.handleSubmit_acceptable admits st ls A).
    unfold Signup.stores.
    destruct (admits ls (js "isAuthenticated") (js "true"));
      [|intros [H | [H | []]]; discriminate H].
    destruct (admits _ (js "userEmail") (Signup.email st));
      [|intros [H | [H | []]]; discriminate H].
    destruct (admits _ (js "userName") (Signup.name st));
      [|intros [H | [H | []]]; discriminate H].
    intros _. cbn [fst snd andb].
    assert (Hname : (2 <= str_length (Signup.name st))%nat) by apply A.
    unfold authGuard, userName, getItem.
    rewrite !(lookup_insert_ne _ _ (js "isAuthenticated"))
      by (apply not_eq_sym; assumption).
    rewrite !lookup_insert_eq.
    split; [exact A|]. split; [reflexivity|]. split; [reflexivity|].
    destruct (Signup.name st) as [|c r]; [simpl in Hname; lia | reflexivity].
  - rewrite (Signup.handleSubmit_unacceptable admits st ls N).
    intros [H | []]. discriminate H.
Qed.

Lemma signup_then_chat_witness :
  In (Navigate (js "/chat")) (snd (Signup.handleSubmit unlimited Signup.asha ∅))
  /\ userName (snd (fst (Signup.handleSubmit unlimited Signup.asha ∅)))
     = js "Asha".
Proof.
  assert (H : In (Navigate (js "/chat"))
                (snd (Signup.handleSubmit unlimited Signup.asha ∅))).
  { rewrite (Signup.handleSubmit_acceptable _ _ _ Signup.asha_acceptable).
    vm_compute. auto. }
  split; [exact H|].
  exact (proj2 (proj2 (proj2 (signup_then_chat None _ _ ∅ H)))).
Defined.

(** A login that fails because the email is refused has stored
    [isAuthenticated] before: the failure is shown and the page does not
    move, but the chat page, once opened, lets the visitor in. *)
Theorem failed_login_opens_chat (VITE_API_URL : option jsstring)
  (admits : quota) (st : Login.state) (ls : storage) :
  Login.passes_validation st ->
  admits ls (js "isAuthenticated") (js "true") = true ->
  admits (<[js "isAuthenticated" := js "true"]> ls) (js "userEmail")
    (Login.email st) = false ->
  let '(st', ls', effects) := Login.handleSubmit admits st ls in
  effects = [Sleep 1000;
             Toast (js "error") (js "Login failed. Please try again.")] /\
  Login.loading st' = false /\
  getItem (js "userEmail") ls' = getItem (js "userEmail") ls /\
  authGuard VITE_API_URL ls' = [Fetch (health_request VITE_API_URL)].
Proof.
  intros P E0 E1. destruct keys_differ as (K1 & _).
  rewrite (Login.handleSubmit_valid admits st ls P), E0, E1.
  unfold authGuard, getItem.
  rewrite lookup_insert_ne by exact K1. rewrite lookup_insert_eq.
  repeat split; reflexivity.
Qed.

Lemma failed_login_opens_chat_witness :
  Login.passes_validation Login.long_email /\
  snd (Login.handleSubmit (up_to 40) Login.long_email ∅)
  = [Sleep 1000; Toast (js "error") (js "Login failed. Please try again.")] /\
  authGuard None (snd (fst (Login.handleSubmit (up_to 40) Login.long_email ∅)))
  = [Fetch (health_request None)].
Proof.
  assert (P : Login.passes_validation Login.long_email)
    by (split; [vm_compute; reflexivity | vm_compute; lia]).
  split; [exact P|].
  assert (E0 : up_to 40 ∅ (js "isAuthenticated") (js "true") = true)
    by (vm_compute; reflexivity).
  assert (E1 : up_to 40 (<[js "isAuthenticated" := js "true"]> ∅)
                 (js "userEmail") (Login.email Login.long_email) = false)
    by (vm_compute; reflexivity).
  pose proof (failed_login_opens_chat None (up_to 40) Login.long_email ∅ P
                E0 E1) as H.
  destruct (Login.handleSubmit (up_to 40) Login.long_email ∅)
    as [[st' ls'] effects].
  destruct H as (He & _ & _ & Hg). split; [exact He | exact Hg].
Defined.

(** What a login or a sign-up leaves in the storage: the items taken
    before the first that was refused. *)
Lemma login_storage (admits : quota) (st : Login.state) (ls : storage) :
  let ls' := snd (fst (Login.handleSubmit admits st ls)) in
  ls' = ls
  \/ ls' = <[js "isAuthenticated" := js "true"]> ls
  \/ ls' = <[js "userEmail" := Login.email st]>
             (<[js "isAuthenticated" := js "true"]> ls).
Proof.
  destruct (passes_validation_dec st) as [P | N].
  - rewrite (Login.handleSubmit_valid admits st ls P).
    destruct (admits ls _ _); [|left; reflexivity].
    destruct (admits _ _ _); [right; right | right; left]; reflexivity.
  - rewrite (proj2 (handleSubmit_invalid admits st ls N)). left. reflexivity.
Qed.

Lemma signup_storage (admits : quota) (st : Signup.state) (ls : storage) :
  let ls' := snd (fst (Signup.handleSubmit admits st ls)) in
  ls' = ls
  \/ ls' = <[js "isAuthenticated" := js "true"]> ls
  \/ ls' = <[js "userEmail" := Signup.email st]>
             (<[js "isAuthenticated" := js "true"]> ls)
  \/ ls' = <[js "userName" := Signup.name st]>
             (<[js "userEmail" := Signup.email st]>
                (<[js "isAuthenticated" := js "true"]> ls)).
Proof.
  destruct (Signup.acceptable_dec st) as [A | N].
  - rewrite (Signup.handleSubmit_acceptable admits st ls A).
    destruct (admits ls _ _); [|left; reflexivity].
    destruct (admits _ _ _); [|right; left; reflexivity].
    destruct (admits _ _ _); [right; right; right | right; right; left];
      reflexivity.
  - rewrite (Signup.handleSubmit_unacceptable admits st ls N).
    left. reflexivity.
Qed.

(** A logout removes what a login or a sign-up added to a storage that
    held none of the three keys. *)
Lemma logout_removes (ls : storage) (e n : jsstring) :
  signed_out ls ->
  fst (handleLogout ls) = ls /\
  fst (handleLogout (<[js "isAuthenticated" := js "true"]> ls)) = ls /\
  fst (handleLogout
         (<[js "userEmail" := e]>
            (<[js "isAuthenticated" := js "true"]> ls))) = ls /\
  fst (handleLogout
         (<[js "userName" := n]>
            (<[js "userEmail" := e]>
               (<[js "isAuthenticated" := js "true"]> ls)))) = ls.
Proof.
  destruct keys_differ as (K1 & K2 & K3).
  intros (S1 & S2 & S3). unfold handleLogout, getItem in *. cbn [fst].
  assert (H0 : delete (js "userName")
                 (delete (js "userEmail") (delete (js "isAuthenticated") ls))
               = ls)
    by (rewrite (delete_id ls (js "isAuthenticated")) by exact S1;
        rewrite (delete_id ls (js "userEmail")) by exact S2;
        apply delete_id; exact S3).
  assert (H1 : delete (js "userName")
                 (delete (js "userEmail")
                    (delete (js "isAuthenticated")
                       (<[js "isAuthenticated" := js "true"]> ls))) = ls).
  { rewrite (delete_insert_id ls (js "isAuthenticated")) by exact S1.
    rewrite (delete_id ls (js "userEmail")) by exact S2.
    apply delete_id. exact S3. }
  assert (H2 : delete (js "userName")
                 (delete (js "userEmail")
                    (delete (js "isAuthenticated")
                       (<[js "userEmail" := e]>
                          (<[js "isAuthenticated" := js "true"]> ls)))) = ls).
  { rewrite delete_insert_ne by exact K1.
    rewrite (delete_insert_id ls (js "isAuthenticated")) by exact S1.
    rewrite (delete_insert_id ls (js "userEmail")) by exact S2.
    apply delete_id. exact S3. }
  split; [exact H0|]. split; [exact H1|]. split; [exact H2|].
  rewrite (delete_insert_ne _ (js "isAuthenticated") (js "userName"))
    by exact K2.
  rewrite (delete_insert_ne _ (js "userEmail") (js "userName")) by exact K3.
  rewrite delete_insert_eq. exact H2.
Qed.

(** After a logout the chat page redirects to [/login] and knows no name;
    and a logout undoes a login or a sign-up made on a storage that held
    none of the three keys, whether the user agent took all the items or
    refused one. *)
Theorem logout_ends_session (VITE_API_URL : option jsstring) (ls : storage) :
  authGuard VITE_API_URL (fst (handleLogout ls)) = [Navigate (js "/login")] /\
  userName (fst (handleLogout ls)) = js "User" /\
  signed_out (fst (handleLogout ls)) /\
  (signed_out ls ->
   (forall e n,
      fst (handleLogout
             (<[js "userEmail" := e]>
                (<[js "isAuthenticated" := js "true"]> ls))) = ls
      /\ fst (handleLogout
                (<[js "userName" := n]>
                   (<[js "userEmail" := e]>
                      (<[js "isAuthenticated" := js "true"]> ls)))) = ls) /\
   (forall admits st,
      fst (handleLogout (snd (fst (Login.handleSubmit admits st ls)))) = ls) /\
   (forall admits st,
      fst (handleLogout (snd (fst (Signup.handleSubmit admits st ls)))) = ls)).
Proof.
  destruct keys_differ as (K1 & K2 & K3).
  assert (Hout : signed_out (fst (handleLogout ls))).
  { unfold signed_out, handleLogout, getItem. cbn [fst].
    split; [|split].
    - rewrite !lookup_delete_ne by (apply not_eq_sym; assumption).
      apply lookup_delete_eq.
    - rewrite lookup_delete_ne by (apply not_eq_sym; assumption).
      apply lookup_delete_eq.
    - apply lookup_delete_eq. }
  destruct Hout as (O1 & O2 & O3).
  split; [unfold authGuard; rewrite O1; reflexivity|].
  split; [unfold userName; rewrite O3, O2; reflexivity|].
  split; [repeat split; assumption|].
  intros Hs. split; [|split].
  - intros e n.
    destruct (logout_removes ls e n Hs) as (_ & _ & H2 & H3). auto.
  - intros admits st.
    destruct (logout_removes ls (Login.email st) [] Hs) as (H0 & H1 & H2 & _).
    destruct (login_storage admits st ls) as [-> | [-> | ->]]; assumption.
  - intros admits st.
    destruct (logout_removes ls (Signup.email st) (Signup.name st) Hs)
      as (H0 & H1 & H2 & H3).
    destruct (signup_storage admits st ls) as [-> | [-> | [-> | ->]]];
      assumption.
Qed.

End Session.

(* ================================================================== *)
(** * A round of the chat: [handleSubmit] of [Chat.jsx] from the click to
      the answer *)
(* ================================================================== *)

Module Conversation.
Import JS Browser Chat.

(** The responses by what the handler makes of them: answered (ok, with a
    JSON body that is not [null]), failed (no response, a response that is
    not ok, or a body that is no JSON), and an ok response whose body is
    [null]. *)
Definition answered (o : outcome) : option message :=
  match o with
  | Response true (Some (JObject members)) =>
      Some (Assistant (member (js "answer") members)
              (member (js "confidence") members)
              (member (js "processing_time_ms") members))
  | Response true (Some JNull) => None
  | Response true (Some _) => Some (Assistant None None None)
  | _ => None
  end.

Definition failed (o : outcome) : bool :=
  match o with
  | Failed | Response false _ | Response true None => true
  | Response true (Some _) => false
  end.

Definition null_body (o : outcome) : bool :=
  match o with
  | Response true (Some JNull) => true
  | _ => false
  end.

Lemma trimStart_spec (s : jsstring) :
  exists spaces,
    s = spaces ++ trimStart s /\ forallb isWhiteSpace spaces = true /\
    match trimStart s with
    | [] => True
    | c :: _ => isWhiteSpace c = false
    end.
Proof.
  induction s as [|c s IH]; [exists []; repeat split|].
  destruct IH as (spaces & E & Hs & Hhead).
  simpl. destruct (isWhiteSpace c) eqn:Ec.
  - exists (c :: spaces). simpl. rewrite Ec, Hs, <- E. repeat split.
    exact Hhead.
  - exists []. repeat split. exact Ec.
Qed.

Lemma trimStart_keeps_end (s : jsstring) (c : N) :
  isWhiteSpace c = false -> trimStart (s ++ [c]) = trimStart s ++ [c].
Proof.
  intros Hc. induction s as [|d s IH]; simpl; [rewrite Hc; reflexivity|].
  destruct (isWhiteSpace d); [exact IH | reflexivity].
Qed.

Lemma forallb_rev {A} (p : A -> bool) (l : list A) :
  forallb p l = true -> forallb p (rev l) = true.
Proof.
  rewrite !forallb_forall. intros H x Hx. apply H, in_rev. exact Hx.
Qed.

(** [trim] cuts white space off both ends and nothing else. *)
Lemma trim_spec (s : jsstring) :
  exists before after,
    s = before ++ trim s ++ after /\
    forallb isWhiteSpace before = true /\
    forallb isWhiteSpace after = true /\
    match trim s with
    | [] => True
    | c :: _ => isWhiteSpace c = false
    end /\
    match rev (trim s) with
    | [] => True
    | c :: _ => isWhiteSpace c = false
    end.
Proof.
  destruct (trimStart_spec s) as (before & E & Hb & Hhead).
  destruct (trimStart_spec (rev (trimStart s))) as (after & E' & Ha & Hlast).
  exists before, (rev after). unfold trim, trimEnd.
  assert (Esplit : trimStart s
                   = rev (trimStart (rev (trimStart s))) ++ rev after).
  { rewrite <- rev_app_distr, <- E', rev_involutive. reflexivity. }
  split; [rewrite <- Esplit; exact E|].
  split; [exact Hb|]. split; [apply forallb_rev; exact Ha|].
  split; [|rewrite rev_involutive; exact Hlast].
  destruct (trimStart s) as [|c t] eqn:Et; [reflexivity|].
  simpl rev. rewrite (trimStart_keeps_end _ _ Hhead), rev_app_distr.
  simpl. exact Hhead.
Qed.

(** While a request is under way nothing more is sent, whatever is typed;
    a request sets [isLoading] and the response clears it. *)
Theorem one_request_at_a_time (VITE_API_URL : option jsstring)
  (st st' : state) (r : request) :
  handleSubmit VITE_API_URL st = Some (st', r) ->
  isLoading st = false /\
  isLoading st' = true /\
  query st' = [] /\
  (forall typed,
     handleSubmit VITE_API_URL (mkState typed (messages st') (isLoading st'))
     = None) /\
  (forall typed o,
     isLoading
       (fst (handleResponse (mkState typed (messages st') (isLoading st')) o))
     = false).
Proof.
  unfold handleSubmit.
  destruct (trim (query st)) as [|c rest]; [discriminate|].
  destruct (isLoading st) eqn:El; [discriminate|].
  intros [= <- <-]. cbn [isLoading query messages].
  repeat split; try reflexivity.
  - intros typed. cbn [query isLoading]. destruct (trim typed); reflexivity.
  - intros typed [|[|] [[]|]]; reflexivity.
Qed.

Lemma one_request_at_a_time_witness :
  handleSubmit None (mkState (js "What is Article 21?") [] false)
  = Some (mkState [] [User (js "What is Article 21?")] true,
          mkRequest (API_URL None) (js "POST")
            [(js "Content-Type", js "application/json")]
            [(js "query", VString (js "What is Article 21?"))])
  /\ handleSubmit None
       (mkState (js "What is Article 14?") [User (js "What is Article 21?")]
          true) = None.
Proof.
  assert (E : handleSubmit None (mkState (js "What is Article 21?") [] false)
              = Some (mkState [] [User (js "What is Article 21?")] true,
                      mkRequest (API_URL None) (js "POST")
                        [(js "Content-Type", js "application/json")]
                        [(js "query", VString (js "What is Article 21?"))]))
    by (vm_compute; reflexivity).
  split; [exact E|].
  exact (proj1 (proj2 (proj2 (proj2 (one_request_at_a_time None _ _ _ E))))
           (js "What is Article 14?")).
Defined.

(** A round adds the trimmed query as the user's message and then at most
    one message more: the assistant's, with the three members read off
    the body, and no toast, when the response is ok and its body is JSON
    other than [null]; the error message, with an error toast, when there
    is no response, the response is not ok or its body is no JSON; and
    nothing when the response is ok and its body is [null], where the
    TypeError of the updater is left to React.  Every response is of
    exactly one of the three kinds. *)
Theorem round_appends_messages (VITE_API_URL : option jsstring)
  (st st' : state) (r : request) (o : outcome) :
  handleSubmit VITE_API_URL st = Some (st', r) ->
  (forall m, answered o = Some m ->
     messages (fst (handleResponse st' o))
     = (messages st ++ [User (trim (query st)); m])%list /\
     snd (handleResponse st' o) = []) /\
  (failed o = true ->
     messages (fst (handleResponse st' o))
     = (messages st ++
          [User (trim (query st));
           Error (js "Unable to connect. Please ensure the server is running on port 8002.")])%list /\
     snd (handleResponse st' o)
     = [Toast (js "error") (js "Failed to get response. Please try again.")]) /\
  (null_body o = true ->
     messages (fst (handleResponse st' o))
     = (messages st ++ [User (trim (query st))])%list /\
     snd (handleResponse st' o) = [Uncaught (js "TypeError")]) /\
  (answered o <> None /\ failed o = false /\ null_body o = false
   \/ answered o = None /\ failed o = true /\ null_body o = false
   \/ answered o = None /\ failed o = false /\ null_body o = true).
Proof.
  unfold handleSubmit.
  destruct (trim (query st)) as [|c rest]; [discriminate|].
  destruct (isLoading st); [discriminate|].
  intros [= <- <-]. cbn [messages].
  destruct o as [|[|] [[]|]]; cbn;
    rewrite <- ?app_assoc;
    (split; [intros m' [= <-] || intros m' H; try discriminate H;
             split; reflexivity|]);
    (split; [intros H; try discriminate H; split; reflexivity|]);
    (split; [intros H; try discriminate H; split; reflexivity|]);
    first [ left; repeat split; discriminate
          | right; left; repeat split; reflexivity
          | right; right; repeat split; reflexivity ].
Qed.

Lemma round_appends_messages_witness :
  handleSubmit None (mkState (js " What is Article 21? ") [] false)
  = Some (mkState [] [User (js "What is Article 21?")] true,
          mkRequest (API_URL None) (js "POST")
            [(js "Content-Type", js "application/json")]
            [(js "query", VString (js "What is Article 21?"))])
  /\ messages
       (fst (handleResponse
               (mkState [] [User (js "What is Article 21?")] true)
               (Response true
                  (Some (JObject [(js "answer", JString (js "Article 21 protects life and personal liberty."));
                                  (js "confidence", JNumber 0.5%float)])))))
     = [User (js "What is Article 21?");
        Assistant (Some (JString (js "Article 21 protects life and personal liberty.")))
          (Some (JNumber 0.5%float)) None]
  /\ messages
       (fst (handleResponse
               (mkState [] [User (js "What is Article 21?")] true)
               (Response true (Some JNull))))
     = [User (js "What is Article 21?")].
Proof.
  assert (E : handleSubmit None (mkState (js " What is Article 21? ") [] false)
              = Some (mkState [] [User (js "What is Article 21?")] true,
                      mkRequest (API_URL None) (js "POST")
                        [(js "Content-Type", js "application/json")]
                        [(js "query", VString (js "What is Article 21?"))]))
    by (vm_compute; reflexivity).
  split; [exact E|]. split.
  - exact (proj1 (proj1 (round_appends_messages None _ _ _
                           (Response true
                              (Some (JObject [(js "answer", JString (js "Article 21 protects life and personal liberty."));
                                              (js "confidence", JNumber 0.5%float)])))
                           E) _ eq_refl)).
  - exact (proj1 (proj1 (proj2 (proj2 (round_appends_messages None _ _ _
                                          (Response true (Some JNull)) E)))
                    eq_refl)).
Defined.

(** The query a request carries is the text typed without the white space
    around it: it is not empty, neither starts nor ends with white space,
    and the text typed is it between two runs of white space. *)
Theorem handleSubmit_sends_trimmed_query (VITE_API_URL : option jsstring)
  (st st' : state) (r : request) :
  handleSubmit VITE_API_URL st = Some (st', r) ->
  exists text before after,
    body r = [(js "query", VString text)] /\
    text <> [] /\
    query st = before ++ text ++ after /\
    forallb isWhiteSpace before = true /\
    forallb isWhiteSpace after = true /\
    (forall c rest, text = c :: rest -> isWhiteSpace c = false) /\
    (forall c rest, text = rest ++ [c] -> isWhiteSpace c = false).
Proof.
  intros H.
  destruct (trim_spec (query st)) as (before & after & E & Hb & Ha & Hf & Hl).
  exists (trim (query st)), before, after.
  unfold handleSubmit in H.
  destruct (trim (query st)) as [|c rest] eqn:Et; [discriminate|].
  destruct (isLoading st); [discriminate|].
  injection H as <- <-. cbn [body].
  split; [reflexivity|]. split; [discriminate|].
  split; [exact E|]. split; [exact Hb|]. split; [exact Ha|]. split.
  - intros c' rest' [= <- <-]. exact Hf.
  - intros c' rest' E'. rewrite E', rev_app_distr in Hl. exact Hl.
Qed.

Lemma handleSubmit_sends_trimmed_query_witness :
  handleSubmit None (mkState (js "  What is IPC Section 420? ") [] false)
  = Some (mkState [] [User (js "What is IPC Section 420?")] true,
          mkRequest (API_URL None) (js "POST")
            [(js "Content-Type", js "application/json")]
            [(js "query", VString (js "What is IPC Section 420?"))])
  /\ exists text before after,
       js "  What is IPC Section 420? " = before ++ text ++ after
       /\ text <> [].
Proof.
  assert (E : handleSubmit None
                (mkState (js "  What is IPC Section 420? ") [] false)
              = Some (mkState [] [User (js "What is IPC Section 420?")] true,
                      mkRequest (API_URL None) (js "POST")
                        [(js "Content-Type", js "application/json")]
                        [(js "query", VString (js "What is IPC Section 420?"))]))
    by (vm_compute; reflexivity).
  split; [exact E|].
  destruct (handleSubmit_sends_trimmed_query None _ _ _ E)
    as (text & before & after & _ & Hne & Hq & _).
  exists text, before, after. split; [exact Hq | exact Hne].
Defined.

End Conversation.
